(** * size_utils: size strings and byte counts

    A shallow embedding of [size_utils.py] (parse_size_to_bytes,
    bytes_to_human_readable, validate_size_string) together with the parts
    of the Python runtime those three functions rely on: [str.strip],
    [str.upper], [str.rstrip], [re.match] on the module's pattern, [float()]
    on a string, float arithmetic and comparison, [int()] on a float, true
    division of integers and the fixed-point format [:.Nf].  With them come
    the functions of the package that call the three: the size validators
    of [validation_utils.py] and the two disk reports of
    [filesystem_utils.py].

    Text model.  A Python [str] is a sequence of code points.  Whitespace
    ([str.isspace], [str.strip], [\s]), decimal digits ([\d], the digits
    [float()] converts) and upper case ([str.upper], which maps some
    letters to two or three) are those of the Unicode character database,
    version 14.0.0, as CPython 3.11 has it, written out in the tables
    below.

    Number model.  A Python [int] is a [Z].  A Python [float] is an IEEE-754
    binary64 value, kept exactly: a finite value is [m * 2^e] for integers
    [m] and [e >= -1074]; every operation computes the exact rational
    result and rounds it once, to nearest with ties to even, as the hardware
    and CPython's correctly rounded conversions do. *)

From Stdlib Require Import ZArith Lia Bool List.
From Stdlib.Strings Require Import Byte.
Import ListNotations.
Local Open Scope Z_scope.

(** ** Text *)

(** A character is its code point. *)
Definition char : Type := Z.

(** A string is a sequence of characters. *)
Inductive string : Type :=
| EmptyString
| String (c : char) (t : string).

Declare Scope string_scope.
Delimit Scope string_scope with string.
Bind Scope string_scope with string.
Declare Scope char_scope.
Delimit Scope char_scope with char.
Bind Scope char_scope with char.

(** A text between quotes is read as the string of its characters, when
    they are all below 128; other characters are given by their code
    points. *)
Fixpoint string_of_bytes (l : list Byte.byte) : option string :=
  match l with
  | [] => Some EmptyString
  | b :: t =>
      let c := Z.of_N (Byte.to_N b) in
      if c <? 128 then option_map (String c) (string_of_bytes t) else None
  end.

Fixpoint bytes_of_string (s : string) : option (list Byte.byte) :=
  match s with
  | EmptyString => Some []
  | String c t =>
      if (0 <=? c) && (c <? 128) then
        match Byte.of_N (Z.to_N c), bytes_of_string t with
        | Some b, Some l => Some (b :: l)
        | _, _ => None
        end
      else None
  end.

Definition char_of_bytes (l : list Byte.byte) : option Z :=
  match l with
  | [b] => let c := Z.of_N (Byte.to_N b) in if c <? 128 then Some c else None
  | _ => None
  end.

Definition bytes_of_char (c : Z) : option (list Byte.byte) := None.

String Notation string string_of_bytes bytes_of_string : string_scope.
String Notation Z char_of_bytes bytes_of_char : char_scope.

Module Char.
Definition eqb (a b : char) : bool := Z.eqb a b.
End Char.

Module String.
Fixpoint append (a b : string) : string :=
  match a with
  | EmptyString => b
  | String c t => String c (append t b)
  end.

Fixpoint length (s : string) : nat :=
  match s with
  | EmptyString => O
  | String _ t => S (length t)
  end.

Fixpoint eqb (a b : string) : bool :=
  match a, b with
  | EmptyString, EmptyString => true
  | String c t, String d u => Char.eqb c d && eqb t u
  | _, _ => false
  end.
End String.

Notation "a ++ b" := (String.append a b)
  (right associativity, at level 60) : string_scope.

Local Open Scope string_scope.
Local Open Scope Z_scope.

(** [s[n : n + m]], for [n + m] within the string. *)
Fixpoint substring (n m : nat) (s : string) : string :=
  match n, m, s with
  | O, O, _ => EmptyString
  | O, S m', EmptyString => s
  | O, S m', String c t => String c (substring O m' t)
  | S n', _, EmptyString => s
  | S n', _, String c t => substring n' m t
  end.

Fixpoint string_of_list (l : list Z) : string :=
  match l with
  | [] => EmptyString
  | c :: t => String c (string_of_list t)
  end.

Definition code (c : char) : Z := c.

Definition chr (z : Z) : char := z.

(** [str.isspace] for one character, which is also [\s] of [re] and what
    [str.strip] removes. *)
Definition isspace (c : char) : bool :=
  ((9 <=? code c) && (code c <=? 13)) || ((28 <=? code c) && (code c <=? 32))
  || (code c =? 133) || (code c =? 160) || (code c =? 5760)
  || ((8192 <=? code c) && (code c <=? 8202))
  || (code c =? 8232) || (code c =? 8233) || (code c =? 8239)
  || (code c =? 8287) || (code c =? 12288).

(** The decimal digits: each block of ten, 0 to 9, by the code of its 0. *)
Definition digit_blocks : list Z :=
  [48; 1632; 1776; 1984; 2406; 2534; 2662; 2790; 2918; 3046; 3174; 3302; 3430;
   3558; 3664; 3792; 3872; 4160; 4240; 6112; 6160; 6470; 6608; 6784; 6800;
   6992; 7088; 7232; 7248; 42528; 43216; 43264; 43472; 43504; 43600; 44016;
   65296; 66720; 68912; 69734; 69872; 69942; 70096; 70384; 70736; 70864;
   71248; 71360; 71472; 71904; 72016; 72784; 73040; 73120; 92768; 92864;
   93008; 120782; 120792; 120802; 120812; 120822; 123200; 123632; 125264;
   130032].

(** The block of a decimal digit. *)
Definition digit_block (c : char) : option Z :=
  find (fun zero => (zero <=? code c) && (code c <=? zero + 9)) digit_blocks.

(** [\d] of [re], and the digits [float()] reads. *)
Definition isdecimal (c : char) : bool :=
  match digit_block c with
  | Some _ => true
  | None => false
  end.

Definition digit_value (c : char) : Z :=
  match digit_block c with
  | Some zero => code c - zero
  | None => 0
  end.

Definition digit_char (d : Z) : char := chr (48 + d).

(** The letters whose upper case is one letter, in runs: from [first] to
    [last] in steps of [step], the upper case is [delta] further. *)
Definition upper_runs : list (Z * Z * Z * Z) :=
  [(97, 122, 1, -32); (181, 181, 1, 743); (224, 246, 1, -32);
   (248, 254, 1, -32); (255, 255, 1, 121); (257, 303, 2, -1);
   (305, 305, 1, -232); (307, 311, 2, -1); (314, 328, 2, -1);
   (331, 375, 2, -1); (378, 382, 2, -1); (383, 383, 1, -300);
   (384, 384, 1, 195); (387, 389, 2, -1); (392, 392, 1, -1);
   (396, 396, 1, -1); (402, 402, 1, -1); (405, 405, 1, 97); (409, 409, 1, -1);
   (410, 410, 1, 163); (414, 414, 1, 130); (417, 421, 2, -1);
   (424, 424, 1, -1); (429, 429, 1, -1); (432, 432, 1, -1); (436, 438, 2, -1);
   (441, 441, 1, -1); (445, 445, 1, -1); (447, 447, 1, 56); (453, 453, 1, -1);
   (454, 454, 1, -2); (456, 456, 1, -1); (457, 457, 1, -2); (459, 459, 1, -1);
   (460, 460, 1, -2); (462, 476, 2, -1); (477, 477, 1, -79);
   (479, 495, 2, -1); (498, 498, 1, -1); (499, 499, 1, -2); (501, 501, 1, -1);
   (505, 543, 2, -1); (547, 563, 2, -1); (572, 572, 1, -1);
   (575, 576, 1, 10815); (578, 578, 1, -1); (583, 591, 2, -1);
   (592, 592, 1, 10783); (593, 593, 1, 10780); (594, 594, 1, 10782);
   (595, 595, 1, -210); (596, 596, 1, -206); (598, 599, 1, -205);
   (601, 601, 1, -202); (603, 603, 1, -203); (604, 604, 1, 42319);
   (608, 608, 1, -205); (609, 609, 1, 42315); (611, 611, 1, -207);
   (613, 613, 1, 42280); (614, 614, 1, 42308); (616, 616, 1, -209);
   (617, 617, 1, -211); (618, 618, 1, 42308); (619, 619, 1, 10743);
   (620, 620, 1, 42305); (623, 623, 1, -211); (625, 625, 1, 10749);
   (626, 626, 1, -213); (629, 629, 1, -214); (637, 637, 1, 10727);
   (640, 640, 1, -218); (642, 642, 1, 42307); (643, 643, 1, -218);
   (647, 647, 1, 42282); (648, 648, 1, -218); (649, 649, 1, -69);
   (650, 651, 1, -217); (652, 652, 1, -71); (658, 658, 1, -219);
   (669, 669, 1, 42261); (670, 670, 1, 42258); (837, 837, 1, 84);
   (881, 883, 2, -1); (887, 887, 1, -1); (891, 893, 1, 130);
   (940, 940, 1, -38); (941, 943, 1, -37); (945, 961, 1, -32);
   (962, 962, 1, -31); (963, 971, 1, -32); (972, 972, 1, -64);
   (973, 974, 1, -63); (976, 976, 1, -62); (977, 977, 1, -57);
   (981, 981, 1, -47); (982, 982, 1, -54); (983, 983, 1, -8);
   (985, 1007, 2, -1); (1008, 1008, 1, -86); (1009, 1009, 1, -80);
   (1010, 1010, 1, 7); (1011, 1011, 1, -116); (1013, 1013, 1, -96);
   (1016, 1016, 1, -1); (1019, 1019, 1, -1); (1072, 1103, 1, -32);
   (1104, 1119, 1, -80); (1121, 1153, 2, -1); (1163, 1215, 2, -1);
   (1218, 1230, 2, -1); (1231, 1231, 1, -15); (1233, 1327, 2, -1);
   (1377, 1414, 1, -48); (4304, 4346, 1, 3008); (4349, 4351, 1, 3008);
   (5112, 5117, 1, -8); (7296, 7296, 1, -6254); (7297, 7297, 1, -6253);
   (7298, 7298, 1, -6244); (7299, 7300, 1, -6242); (7301, 7301, 1, -6243);
   (7302, 7302, 1, -6236); (7303, 7303, 1, -6181); (7304, 7304, 1, 35266);
   (7545, 7545, 1, 35332); (7549, 7549, 1, 3814); (7566, 7566, 1, 35384);
   (7681, 7829, 2, -1); (7835, 7835, 1, -59); (7841, 7935, 2, -1);
   (7936, 7943, 1, 8); (7952, 7957, 1, 8); (7968, 7975, 1, 8);
   (7984, 7991, 1, 8); (8000, 8005, 1, 8); (8017, 8023, 2, 8);
   (8032, 8039, 1, 8); (8048, 8049, 1, 74); (8050, 8053, 1, 86);
   (8054, 8055, 1, 100); (8056, 8057, 1, 128); (8058, 8059, 1, 112);
   (8060, 8061, 1, 126); (8112, 8113, 1, 8); (8126, 8126, 1, -7205);
   (8144, 8145, 1, 8); (8160, 8161, 1, 8); (8165, 8165, 1, 7);
   (8526, 8526, 1, -28); (8560, 8575, 1, -16); (8580, 8580, 1, -1);
   (9424, 9449, 1, -26); (11312, 11359, 1, -48); (11361, 11361, 1, -1);
   (11365, 11365, 1, -10795); (11366, 11366, 1, -10792);
   (11368, 11372, 2, -1); (11379, 11379, 1, -1); (11382, 11382, 1, -1);
   (11393, 11491, 2, -1); (11500, 11502, 2, -1); (11507, 11507, 1, -1);
   (11520, 11557, 1, -7264); (11559, 11559, 1, -7264);
   (11565, 11565, 1, -7264); (42561, 42605, 2, -1); (42625, 42651, 2, -1);
   (42787, 42799, 2, -1); (42803, 42863, 2, -1); (42874, 42876, 2, -1);
   (42879, 42887, 2, -1); (42892, 42892, 1, -1); (42897, 42899, 2, -1);
   (42900, 42900, 1, 48); (42903, 42921, 2, -1); (42933, 42947, 2, -1);
   (42952, 42954, 2, -1); (42961, 42961, 1, -1); (42967, 42969, 2, -1);
   (42998, 42998, 1, -1); (43859, 43859, 1, -928); (43888, 43967, 1, -38864);
   (65345, 65370, 1, -32); (66600, 66639, 1, -40); (66776, 66811, 1, -40);
   (66967, 67003, 2, -39); (66968, 66976, 2, -39); (66980, 66992, 2, -39);
   (66996, 67000, 2, -39); (67004, 67004, 1, -39); (68800, 68850, 1, -64);
   (71872, 71903, 1, -32); (93792, 93823, 1, -32); (125218, 125251, 1, -34)].

(** The letters whose upper case is two or three letters. *)
Definition upper_special : list (Z * list Z) :=
  [(223, [83; 83]); (329, [700; 78]); (496, [74; 780]);
   (912, [921; 776; 769]); (944, [933; 776; 769]); (1415, [1333; 1362]);
   (7830, [72; 817]); (7831, [84; 776]); (7832, [87; 778]); (7833, [89; 778]);
   (7834, [65; 702]); (8016, [933; 787]); (8018, [933; 787; 768]);
   (8020, [933; 787; 769]); (8022, [933; 787; 834]); (8064, [7944; 921]);
   (8065, [7945; 921]); (8066, [7946; 921]); (8067, [7947; 921]);
   (8068, [7948; 921]); (8069, [7949; 921]); (8070, [7950; 921]);
   (8071, [7951; 921]); (8072, [7944; 921]); (8073, [7945; 921]);
   (8074, [7946; 921]); (8075, [7947; 921]); (8076, [7948; 921]);
   (8077, [7949; 921]); (8078, [7950; 921]); (8079, [7951; 921]);
   (8080, [7976; 921]); (8081, [7977; 921]); (8082, [7978; 921]);
   (8083, [7979; 921]); (8084, [7980; 921]); (8085, [7981; 921]);
   (8086, [7982; 921]); (8087, [7983; 921]); (8088, [7976; 921]);
   (8089, [7977; 921]); (8090, [7978; 921]); (8091, [7979; 921]);
   (8092, [7980; 921]); (8093, [7981; 921]); (8094, [7982; 921]);
   (8095, [7983; 921]); (8096, [8040; 921]); (8097, [8041; 921]);
   (8098, [8042; 921]); (8099, [8043; 921]); (8100, [8044; 921]);
   (8101, [8045; 921]); (8102, [8046; 921]); (8103, [8047; 921]);
   (8104, [8040; 921]); (8105, [8041; 921]); (8106, [8042; 921]);
   (8107, [8043; 921]); (8108, [8044; 921]); (8109, [8045; 921]);
   (8110, [8046; 921]); (8111, [8047; 921]); (8114, [8122; 921]);
   (8115, [913; 921]); (8116, [902; 921]); (8118, [913; 834]);
   (8119, [913; 834; 921]); (8124, [913; 921]); (8130, [8138; 921]);
   (8131, [919; 921]); (8132, [905; 921]); (8134, [919; 834]);
   (8135, [919; 834; 921]); (8140, [919; 921]); (8146, [921; 776; 768]);
   (8147, [921; 776; 769]); (8150, [921; 834]); (8151, [921; 776; 834]);
   (8162, [933; 776; 768]); (8163, [933; 776; 769]); (8164, [929; 787]);
   (8166, [933; 834]); (8167, [933; 776; 834]); (8178, [8186; 921]);
   (8179, [937; 921]); (8180, [911; 921]); (8182, [937; 834]);
   (8183, [937; 834; 921]); (8188, [937; 921]); (64256, [70; 70]);
   (64257, [70; 73]); (64258, [70; 76]); (64259, [70; 70; 73]);
   (64260, [70; 70; 76]); (64261, [83; 84]); (64262, [83; 84]);
   (64275, [1348; 1350]); (64276, [1348; 1333]); (64277, [1348; 1339]);
   (64278, [1358; 1350]); (64279, [1348; 1341])].

Definition in_run (c : Z) (run : Z * Z * Z * Z) : bool :=
  let '(first, last, step, _) := run in
  (first <=? c) && (c <=? last) && ((c - first) mod step =? 0).

(** [c.upper()] for one character. *)
Definition upper_char (c : char) : string :=
  match find (fun entry => fst entry =? code c) upper_special with
  | Some (_, letters) => string_of_list letters
  | None =>
      match find (in_run (code c)) upper_runs with
      | Some (_, _, _, delta) => String (chr (code c + delta)) EmptyString
      | None => String c EmptyString
      end
  end.

(** The letters A to Z in lower case: [float()] reads [inf], [nan] and the
    [e] of an exponent in either case. *)
Definition lower_char (c : char) : char :=
  if (65 <=? code c) && (code c <=? 90) then chr (code c + 32) else c.

(** [s.upper()] *)
Fixpoint upper (s : string) : string :=
  match s with
  | EmptyString => EmptyString
  | String c t => upper_char c ++ upper t
  end.

Fixpoint lower (s : string) : string :=
  match s with
  | EmptyString => EmptyString
  | String c t => String (lower_char c) (lower t)
  end.

Definition is_empty (s : string) : bool :=
  match s with EmptyString => true | String _ _ => false end.

(** Removal of the leading characters that satisfy [p]. *)
Fixpoint lstrip_by (p : char -> bool) (s : string) : string :=
  match s with
  | EmptyString => EmptyString
  | String c t => if p c then lstrip_by p t else s
  end.

(** Removal of the trailing characters that satisfy [p]. *)
Fixpoint rstrip_by (p : char -> bool) (s : string) : string :=
  match s with
  | EmptyString => EmptyString
  | String c t =>
      let t' := rstrip_by p t in
      if is_empty t' && p c then EmptyString else String c t'
  end.

(** [s.strip()] *)
Definition strip (s : string) : string :=
  rstrip_by isspace (lstrip_by isspace s).

Fixpoint mem_char (c : char) (chars : string) : bool :=
  match chars with
  | EmptyString => false
  | String d t => Char.eqb c d || mem_char c t
  end.

(** [s.rstrip(chars)] *)
Definition rstrip (chars : string) (s : string) : string :=
  rstrip_by (fun c => mem_char c chars) s.

(** The longest prefix of characters that satisfy [p], and what follows. *)
Fixpoint span (p : char -> bool) (s : string) : string * string :=
  match s with
  | EmptyString => (EmptyString, EmptyString)
  | String c t =>
      if p c then let (a, b) := span p t in (String c a, b)
      else (EmptyString, s)
  end.

Fixpoint forall_chars (p : char -> bool) (s : string) : bool :=
  match s with
  | EmptyString => true
  | String c t => p c && forall_chars p t
  end.

Fixpoint repeat_char (c : char) (n : nat) : string :=
  match n with
  | O => EmptyString
  | S k => String c (repeat_char c k)
  end.

(** The value of a string of decimal digits, most significant first. *)
Fixpoint digits_value_from (acc : Z) (s : string) : Z :=
  match s with
  | EmptyString => acc
  | String c t => digits_value_from (10 * acc + digit_value c) t
  end.

Definition digits_value (s : string) : Z := digits_value_from 0 s.

Fixpoint decimal_loop (fuel : nat) (n : Z) (acc : string) : string :=
  match fuel with
  | O => acc
  | S f =>
      let acc' := String (digit_char (n mod 10)) acc in
      if n <? 10 then acc' else decimal_loop f (n / 10) acc'
  end.

(** [str(n)] for an integer [n >= 0]. *)
Definition decimal (n : Z) : string :=
  decimal_loop (S (Z.to_nat (Z.log2 n))) n EmptyString.

(** The characters of the tables, listed one by one. *)
Definition space_chars : list Z :=
  [9; 10; 11; 12; 13; 28; 29; 30; 31; 32; 133; 160; 5760; 8192; 8193; 8194;
   8195; 8196; 8197; 8198; 8199; 8200; 8201; 8202; 8232; 8233; 8239; 8287;
   12288].

Definition digit_chars : list Z :=
  flat_map (fun zero => map (Z.add zero) [0; 1; 2; 3; 4; 5; 6; 7; 8; 9])
    digit_blocks.

Definition run_chars (run : Z * Z * Z * Z) : list Z :=
  let '(first, last, step, _) := run in
  map (fun k => first + step * Z.of_nat k)
    (seq 0 (S (Z.to_nat ((last - first) / step)))).

Definition cased_chars : list Z :=
  map fst upper_special ++ flat_map run_chars upper_runs.

(** ** Outcomes *)

(** A finite binary64 value [m * 2^e], an infinity or a NaN. *)
Inductive pyfloat : Type :=
| Fin (m e : Z)
| PosInf
| NegInf
| NaN.

(** The message of an [InvalidSizeFormatError], one constructor for each
    [raise] of the module, with the text it interpolates. *)
Inductive size_error : Type :=
| MustBeString
| CannotBeEmpty
| InvalidFormat (size_str : string)
| InvalidNumericValue (value_str : string)
| CannotBeNegative (value : pyfloat)
| UnsupportedUnit (unit : string)
| TooLarge (size_str : string)
| BytesMustBeNumeric
| BytesCannotBeNegative.

Inductive exn : Type :=
| InvalidSizeFormatError (msg : size_error)
| ValueError
| OverflowError
| ZeroDivisionError
| KeyError.

Inductive result (A : Type) : Type :=
| Ok (a : A)
| Raise (e : exn).

Arguments Ok {A} a.
Arguments Raise {A} e.

Definition bind {A B : Type} (r : result A) (k : A -> result B) : result B :=
  match r with
  | Ok a => k a
  | Raise e => Raise e
  end.

Notation "x <- r ;; k" := (bind r (fun x => k))
  (at level 61, r at next level, right associativity).

(** The values the functions can be called with. *)
#[warnings="-register-all"]
Inductive pyval : Type :=
| PyNone
| PyBool (b : bool)
| PyInt (z : Z)
| PyFloat (x : pyfloat)
| PyStr (s : string)
| PyList (l : list pyval).

(** ** binary64 *)

(** The integer nearest to [n / d], ties to the even one ([0 <= n], [0 < d]). *)
Definition rnd_half_even (n d : Z) : Z :=
  let q := n / d in
  let r := n mod d in
  if 2 * r <? d then q
  else if d <? 2 * r then q + 1
  else if Z.even q then q else q + 1.

(** [2^z], and 1 for a negative [z]: the fraction [pow2 z / pow2 (- z)] is
    the power of two of any integer exponent. *)
Definition pow2 (z : Z) : Z := 2 ^ Z.max z 0.

(** The position of the leading bit of [n / d]: the [l] with
    [2^l <= n / d < 2^(l+1)], for [0 < n] and [0 < d]. *)
Definition leading_bit (n d : Z) : Z :=
  let l0 := Z.log2 n - Z.log2 d in
  if n * pow2 (- l0) <? d * pow2 l0 then l0 - 1 else l0.

(** The binary64 value nearest to [n / d], for [0 <= n] and [0 < d].
    The exponent [e] of the last bit kept leaves 53 bits from the leading
    one and is at least -1074 (subnormals); the significand is
    [(n / d) / 2^e] rounded.  A significand that rounds up to [2^53] moves
    one position up; an exponent above 971 is an overflow to infinity. *)
Definition round64 (n d : Z) : pyfloat :=
  let e := Z.max (leading_bit n d - 52) (-1074) in
  let m := rnd_half_even (n * pow2 (- e)) (d * pow2 e) in
  let e' := if m =? 2 ^ 53 then e + 1 else e in
  let m' := if m =? 2 ^ 53 then 2 ^ 52 else m in
  if 971 <? e' then PosInf else Fin m' e'.

(** The value of a finite float in units of [2^-1074], the smallest
    positive binary64 value: every finite binary64 value is a whole number
    of them. *)
Definition units (m e : Z) : Z := m * 2 ^ (e + 1074).

(** One, counted in those units. *)
Definition one_units : Z := 2 ^ 1074.

(** [2^1024], the first value that overflows, counted in those units. *)
Definition overflow_units : Z := 2 ^ 2098.

Definition fneg (x : pyfloat) : pyfloat :=
  match x with
  | Fin m e => Fin (- m) e
  | PosInf => NegInf
  | NegInf => PosInf
  | NaN => NaN
  end.

(** The binary64 value nearest to [n / d] for any sign of [n] ([0 < d]). *)
Definition round64_signed (n d : Z) : pyfloat :=
  if n <? 0 then fneg (round64 (- n) d) else round64 n d.

(** [x < z] for a float [x] and an integer [z]; Python compares the two
    exactly. *)
Definition float_lt_int (x : pyfloat) (z : Z) : bool :=
  match x with
  | Fin m e => m * pow2 e <? z * pow2 (- e)
  | PosInf => false
  | NegInf => true
  | NaN => false
  end.

(** [x > z] for a float [x] and an integer [z]. *)
Definition float_gt_int (x : pyfloat) (z : Z) : bool :=
  match x with
  | Fin m e => z * pow2 (- e) <? m * pow2 e
  | PosInf => true
  | NegInf => false
  | NaN => false
  end.

(** [float(z)] for an integer [z]. *)
Definition float_of_int (z : Z) : result pyfloat :=
  match round64_signed z 1 with
  | Fin m e => Ok (Fin m e)
  | _ => Raise OverflowError
  end.

Definition fsign (x : pyfloat) : Z :=
  match x with
  | Fin m _ => Z.sgn m
  | PosInf => 1
  | NegInf => -1
  | NaN => 0
  end.

(** [x * y] for two floats. *)
Definition fmul (x y : pyfloat) : pyfloat :=
  match x, y with
  | NaN, _ | _, NaN => NaN
  | Fin m1 e1, Fin m2 e2 =>
      round64_signed (m1 * m2 * pow2 (e1 + e2)) (pow2 (- (e1 + e2)))
  | _, _ =>
      match fsign x * fsign y with
      | 0 => NaN
      | Zpos _ => PosInf
      | Zneg _ => NegInf
      end
  end.

(** [x * z] for a float [x] and an integer [z]: the integer is converted
    first. *)
Definition float_mul_int (x : pyfloat) (z : Z) : result pyfloat :=
  y <- float_of_int z ;; Ok (fmul x y).

(** [int(x)] for a float [x]: truncation toward zero. *)
Definition int_of_float (x : pyfloat) : result Z :=
  match x with
  | Fin m e => Ok (Z.quot (m * pow2 e) (pow2 (- e)))
  | PosInf | NegInf => Raise OverflowError
  | NaN => Raise ValueError
  end.

(** [a / b] for two integers: the correctly rounded quotient. *)
Definition int_truediv (a b : Z) : result pyfloat :=
  if b =? 0 then Raise ZeroDivisionError
  else
    match round64_signed (Z.sgn b * a) (Z.abs b) with
    | Fin m e => Ok (Fin m e)
    | _ => Raise OverflowError
    end.

(** [str(z)] for an integer. *)
Definition str_of_int (z : Z) : string :=
  if z <? 0 then String "-" (decimal (- z)) else decimal z.

(** [r / 10^dp] written with [dp] fractional digits, for an integer
    [r >= 0]; no decimal point when [dp] is 0. *)
Definition fixed_point (r dp : Z) : string :=
  let ip := decimal (r / 10 ^ dp) in
  let fp := decimal (r mod 10 ^ dp) in
  ip ++ (if dp =? 0 then EmptyString
         else String "." (repeat_char "0" (Z.to_nat dp - String.length fp) ++ fp)).

(** [f"{x:.{dp}f}"]: the decimal expansion of the exact value, rounded to
    [dp] fractional digits, ties to even.  A precision that is negative,
    or above the largest C [int], is refused. *)
Definition format_f (x : pyfloat) (dp : Z) : result string :=
  if (dp <? 0) || (2 ^ 31 <=? dp) then Raise ValueError
  else
    match x with
    | Fin m e =>
        let r := rnd_half_even (Z.abs m * pow2 e * 10 ^ dp) (pow2 (- e)) in
        Ok ((if m <? 0 then "-" else "") ++ fixed_point r dp)
    | PosInf => Ok "inf"
    | NegInf => Ok "-inf"
    | NaN => Ok "nan"
    end.

(** The check of underscores in a numeric literal, and their removal: an
    underscore stands between two digits. *)
Fixpoint strip_underscores (prev : char) (s : string) : option string :=
  match s with
  | EmptyString => if Char.eqb prev "_" then None else Some EmptyString
  | String c t =>
      if Char.eqb c "_" then
        if isdecimal prev then strip_underscores c t else None
      else if Char.eqb prev "_" && negb (isdecimal c) then None
      else option_map (String c) (strip_underscores c t)
  end.

(** An optional sign: whether it is a minus, and what follows it. *)
Definition split_sign (s : string) : bool * string :=
  match s with
  | EmptyString => (false, s)
  | String c t =>
      if Char.eqb c "-" then (true, t)
      else if Char.eqb c "+" then (false, t)
      else (false, s)
  end.

(** An optional fraction: the digits after a decimal point, and what
    follows them. *)
Definition split_fraction (s : string) : string * string :=
  match s with
  | EmptyString => (EmptyString, s)
  | String c t => if Char.eqb c "." then span isdecimal t else (EmptyString, s)
  end.

(** The exponent part of a float literal: nothing, or [e], an optional sign
    and digits up to the end. *)
Definition exponent_part (s : string) : option Z :=
  match s with
  | EmptyString => Some 0
  | String c t =>
      if Char.eqb (lower_char c) "e" then
        let (neg, ds) := split_sign t in
        if is_empty ds || negb (forall_chars isdecimal ds) then None
        else Some (if neg then - digits_value ds else digits_value ds)
      else None
  end.

(** The binary64 value nearest to [d * 10^k]. *)
Definition round_decimal (d k : Z) : pyfloat :=
  if k <? 0 then round64_signed d (10 ^ (- k)) else round64_signed (d * 10 ^ k) 1.

(** What [float()] makes of a string that is not all below 128, before
    it reads it: a character below 127 stays, any other whitespace becomes
    a space and any other decimal digit the digit 0 to 9 of its value; at
    the first character that is none of these the text ends, with a
    question mark. *)
Fixpoint transform (s : string) : string :=
  match s with
  | EmptyString => EmptyString
  | String c t =>
      if code c <? 127 then String c (transform t)
      else if isspace c then String " " (transform t)
      else if isdecimal c then String (digit_char (digit_value c)) (transform t)
      else String "?" EmptyString
  end.

Definition is_ascii (s : string) : bool :=
  forall_chars (fun c => code c <? 128) s.

(** A string all below 128 is read as it is. *)
Definition to_ascii (s : string) : string :=
  if is_ascii s then s else transform s.

(** The whitespace of C: what [float()] removes around the number. *)
Definition ascii_space (c : char) : bool :=
  ((9 <=? code c) && (code c <=? 13)) || (code c =? 32).

Definition ascii_strip (s : string) : string :=
  rstrip_by ascii_space (lstrip_by ascii_space s).

(** [float(s)] for a string, once its digits and whitespace are those
    below 127: surrounding whitespace, a sign, then [inf], [infinity],
    [nan] or a decimal literal with optional fraction and exponent; the
    value is correctly rounded.  Anything else is a [ValueError]. *)
Definition float_of_ascii (s : string) : result pyfloat :=
  match strip_underscores " " (ascii_strip s) with
  | None => Raise ValueError
  | Some t =>
      let (neg, t1) := split_sign t in
      let sgn (x : pyfloat) := if neg then fneg x else x in
      if String.eqb (lower t1) "inf" || String.eqb (lower t1) "infinity" then
        Ok (sgn PosInf)
      else if String.eqb (lower t1) "nan" then Ok NaN
      else
        let (ip, r1) := span isdecimal t1 in
        let (fp, r2) := split_fraction r1 in
        if is_empty ip && is_empty fp then Raise ValueError
        else
          match exponent_part r2 with
          | None => Raise ValueError
          | Some ex =>
              Ok (sgn (round_decimal (digits_value (ip ++ fp))
                                     (ex - Z.of_nat (String.length fp))))
          end
  end.

(** [float(s)] for a string. *)
Definition float_of_string (s : string) : result pyfloat :=
  float_of_ascii (to_ascii s).

(** The digits 0 to 9 of the values of a string of decimal digits. *)
Fixpoint ascii_digits (s : string) : string :=
  match s with
  | EmptyString => EmptyString
  | String c t => String (digit_char (digit_value c)) (ascii_digits t)
  end.

(** ** Regular expressions *)

(** The constructs the module's pattern is written with: a character
    class, concatenation, the greedy [?], and the greedy [*] and [+] on a
    character class. *)
Inductive regex : Type :=
| Chars (p : char -> bool)
| Cat (r1 r2 : regex)
| Opt (r : regex)
| Star (p : char -> bool)
| Plus (p : char -> bool).

Section Matcher.
Context {A : Type}.

(** Greedy repetition with backtracking: the longest run first, then
    shorter ones, until the continuation accepts. *)
Fixpoint match_star (p : char -> bool) (s : string)
         (k : string -> option A) : option A :=
  match s with
  | EmptyString => k EmptyString
  | String c t =>
      if p c then
        match match_star p t k with
        | Some x => Some x
        | None => k s
        end
      else k s
  end.

(** The backtracking matcher: [k] is given what is left of the input. *)
Fixpoint match_regex (r : regex) (s : string)
         (k : string -> option A) : option A :=
  match r with
  | Chars p =>
      match s with
      | EmptyString => None
      | String c t => if p c then k t else None
      end
  | Cat r1 r2 => match_regex r1 s (fun t => match_regex r2 t k)
  | Opt r1 =>
      match match_regex r1 s k with
      | Some x => Some x
      | None => k s
      end
  | Star p => match_star p s k
  | Plus p =>
      match s with
      | EmptyString => None
      | String c t => if p c then match_star p t k else None
      end
  end.
End Matcher.

Definition is_char (c : char) : char -> bool := Char.eqb c.
Definition one_of (chars : string) : char -> bool := fun c => mem_char c chars.

(** [\d+(?:\.\d+)?] *)
Definition number_re : regex :=
  Cat (Plus isdecimal) (Opt (Cat (Chars (is_char ".")) (Plus isdecimal))).

(** [\s*] *)
Definition spaces_re : regex := Star isspace.

(** [[KMGT]?B] *)
Definition unit_re : regex := Cat (Opt (Chars (one_of "KMGT"))) (Chars (is_char "B")).

(** [$]: the end of the string, or the position before a final newline. *)
Definition at_end (s : string) : bool :=
  String.eqb s EmptyString || String.eqb s (String 10 EmptyString).

(** What [s] had before [rest], for a suffix [rest] of [s]. *)
Definition consumed (s rest : string) : string :=
  substring 0 (String.length s - String.length rest) s.

(** [re.match(r'^(\d+(?:\.\d+)?)\s*([KMGT]?B)$', s)] and the two groups of
    the match. *)
Definition re_match (s : string) : option (string * string) :=
  match_regex number_re s (fun s1 =>
    match_regex spaces_re s1 (fun s2 =>
      match_regex unit_re s2 (fun s3 =>
        if at_end s3 then Some (consumed s s1, consumed s2 s3) else None))).

(** ** The module *)

(** [SIZE_UNITS], in the order the dict is written. *)
Definition SIZE_UNITS : list (string * Z) :=
  [("B", 1); ("KB", 1024); ("MB", 1024 ^ 2); ("GB", 1024 ^ 3); ("TB", 1024 ^ 4)].

Definition UNIT_ORDER : list string := ["TB"; "GB"; "MB"; "KB"; "B"].

(** [d.get(key)] *)
Fixpoint dict_get (key : string) (d : list (string * Z)) : option Z :=
  match d with
  | [] => None
  | (k, v) :: rest => if String.eqb key k then Some v else dict_get key rest
  end.

(** [d[key]] *)
Definition dict_item (key : string) (d : list (string * Z)) : result Z :=
  match dict_get key d with
  | Some v => Ok v
  | None => Raise KeyError
  end.

(** [except ValueError]: the class and its subclass. *)
Definition is_ValueError (e : exn) : bool :=
  match e with
  | ValueError | InvalidSizeFormatError _ => true
  | _ => false
  end.

Definition size_limit : Z := 1024 ^ 5.

Definition parse_size_to_bytes (size_str : pyval) : result Z :=
  match size_str with
  | PyStr s =>
      let size_str := upper (strip s) in
      if is_empty size_str then Raise (InvalidSizeFormatError CannotBeEmpty)
      else
        match re_match size_str with
        | None => Raise (InvalidSizeFormatError (InvalidFormat size_str))
        | Some (value_str, unit) =>
            match float_of_string value_str with
            | Raise e =>
                if is_ValueError e
                then Raise (InvalidSizeFormatError (InvalidNumericValue value_str))
                else Raise e
            | Ok value =>
                if float_lt_int value 0
                then Raise (InvalidSizeFormatError (CannotBeNegative value))
                else
                  match dict_get unit SIZE_UNITS with
                  | None => Raise (InvalidSizeFormatError (UnsupportedUnit unit))
                  | Some multiplier =>
                      bytes_value <- float_mul_int value multiplier ;;
                      if float_gt_int bytes_value size_limit
                      then Raise (InvalidSizeFormatError (TooLarge size_str))
                      else int_of_float bytes_value
                  end
            end
        end
  | _ => Raise (InvalidSizeFormatError MustBeString)
  end.

(** The body of the [if] in the loop of [bytes_to_human_readable]: the
    division, the formatting, the removal of trailing zeros and of a
    trailing decimal point, and the unit. *)
Definition format_with (unit : string) (unit_size bytes_count decimal_places : Z)
  : result string :=
  value <- int_truediv bytes_count unit_size ;;
  formatted0 <- format_f value decimal_places ;;
  let formatted := rstrip "." (rstrip "0" formatted0) in
  Ok (formatted ++ " " ++ unit).

(** The [for unit in UNIT_ORDER] loop of [bytes_to_human_readable]:
    [Some r] when an iteration leaves the function with [r], [None] when
    the loop ends and control goes on to the statement after it. *)
Fixpoint unit_loop (units : list string) (bytes_count decimal_places : Z)
  : option (result string) :=
  match units with
  | [] => None
  | unit :: rest =>
      match dict_item unit SIZE_UNITS with
      | Raise e => Some (Raise e)
      | Ok unit_size =>
          if unit_size <=? bytes_count
          then Some (format_with unit unit_size bytes_count decimal_places)
          else unit_loop rest bytes_count decimal_places
      end
  end.

Definition bytes_to_human_readable (bytes_count : pyval) (decimal_places : Z)
  : result string :=
  let numeric (negative : bool) (to_int : result Z) : result string :=
    if negative then Raise (InvalidSizeFormatError BytesCannotBeNegative)
    else
      bytes_count <- to_int ;;
      if bytes_count =? 0 then Ok "0 B"
      else
        match unit_loop UNIT_ORDER bytes_count decimal_places with
        | Some r => r
        | None => Ok (str_of_int bytes_count ++ " B")
        end in
  match bytes_count with
  | PyInt z => numeric (z <? 0) (Ok z)
  | PyBool b => numeric false (Ok (if b then 1 else 0))
  | PyFloat x => numeric (float_lt_int x 0) (int_of_float x)
  | _ => Raise (InvalidSizeFormatError BytesMustBeNumeric)
  end.

Definition validate_size_string (size_str : pyval) : result bool :=
  match parse_size_to_bytes size_str with
  | Ok _ => Ok true
  | Raise (InvalidSizeFormatError _) => Ok false
  | Raise e => Raise e
  end.

(** The functions under the names the specification uses, [format] with
    its default of one decimal place. *)
Definition parse (text : string) : result Z := parse_size_to_bytes (PyStr text).
Definition format (b : Z) : result string := bytes_to_human_readable (PyInt b) 1.
Definition validate (text : string) : result bool := validate_size_string (PyStr text).

(** ** The grammar, as the specification gives it *)

(** The strings a regular expression denotes. *)
Fixpoint lang (r : regex) (s : string) : Prop :=
  match r with
  | Chars p => exists c, s = String c EmptyString /\ p c = true
  | Cat r1 r2 => exists a b, s = a ++ b /\ lang r1 a /\ lang r2 b
  | Opt r1 => s = EmptyString \/ lang r1 s
  | Star p => forall_chars p s = true
  | Plus p => s <> EmptyString /\ forall_chars p s = true
  end.

(** A string of the grammar [^(\d+(\.\d+)?)\s*([KMGT]?B)$]: a number, optional
    whitespace, a unit, and nothing else. *)
Definition matches_grammar (s : string) : Prop :=
  exists v w u,
    s = v ++ w ++ u /\ lang number_re v /\ lang spaces_re w /\ lang unit_re u.

(** The number and the unit of a string of the grammar. *)
Definition grammar_parts (s v u : string) : Prop :=
  exists w,
    s = v ++ w ++ u /\ lang number_re v /\ lang spaces_re w /\ lang unit_re u.

(** A decimal literal [ip] or [ip.fp]. *)
Definition decimal_literal (ip fp : string) : string :=
  if is_empty fp then ip else ip ++ String "." fp.

(** The magnitude of the literal [ip.fp] as a float: the binary64 value
    nearest to [digits_value (ip ++ fp) / 10 ^ |fp|]. *)
Definition magnitude (ip fp : string) : pyfloat :=
  round64 (digits_value (ip ++ fp)) (10 ^ Z.of_nat (String.length fp)).

(** The multipliers as powers of two: the unit and its exponent. *)
Definition unit_exponents : list (string * Z) :=
  [("B", 0); ("KB", 10); ("MB", 20); ("GB", 30); ("TB", 40)].

(** Whether the exact product of a float and a multiplier is above the
    limit of [1024^5] bytes: [units m e * multiplier] is the product in
    units of [2^-1074], of which [2^1074] make one byte. *)
Definition exceeds_limit (x : pyfloat) (multiplier : Z) : bool :=
  match x with
  | Fin m e => size_limit * one_units <? units m e * multiplier
  | _ => true
  end.

(** The exact product of a finite float and a multiplier, truncated toward
    zero. *)
Definition truncated (x : pyfloat) (multiplier : Z) : Z :=
  match x with
  | Fin m e => Z.quot (units m e * multiplier) (one_units)
  | _ => 0
  end.

Definition truncated_product (size_str : string) (x : pyfloat) (multiplier : Z)
  : result Z :=
  if exceeds_limit x multiplier
  then Raise (InvalidSizeFormatError (TooLarge size_str))
  else Ok (truncated x multiplier).

(** A string of the grammar, taken apart: the digits before and after the
    decimal point, the whitespace, the unit and the exponent of its
    multiplier. *)
Definition literal_parts (t ip fp w u : string) (j : Z) : Prop :=
  t = decimal_literal ip fp ++ w ++ u /\ ip <> "" /\
  forall_chars isdecimal ip = true /\ forall_chars isdecimal fp = true /\
  forall_chars isspace w = true /\ In (u, j) unit_exponents.



(** The units from the largest to the smallest, each with its multiplier. *)
Definition units_descending : list (string * Z) :=
  [("TB", 1024 ^ 4); ("GB", 1024 ^ 3); ("MB", 1024 ^ 2); ("KB", 1024); ("B", 1)].

(** The first unit, from the largest, whose multiplier is at most [b]. *)
Definition select_unit (b : Z) : option (string * Z) :=
  find (fun p => snd p <=? b) units_descending.

(** [int(bytes_count)] for an input that is numeric, not negative and that
    [int()] accepts. *)
Definition byte_count_of (v : pyval) : option Z :=
  match v with
  | PyInt z => if z <? 0 then None else Some z
  | PyBool b => Some (if b then 1 else 0)
  | PyFloat x =>
      if float_lt_int x 0 then None
      else match int_of_float x with Ok z => Some z | Raise _ => None end
  | _ => None
  end.

(** A number written with a fraction, once the trailing zeros of the
    fraction are removed, and the decimal point with them when no
    fractional digit is left. *)
Definition trim_fraction (ip fp : string) : string :=
  let fp' := rstrip "0" fp in
  if is_empty fp' then ip else ip ++ String "." fp'.

(** The first character of [s], if any, does not satisfy [p]. *)
Definition starts_not (p : char -> bool) (s : string) : bool :=
  match s with
  | EmptyString => true
  | String c _ => negb (p c)
  end.

(** Where the last kept bit of [N / d] stands, [N / d] being a quotient in
    units: at 0 with fewer than 54 bits above it, or at [s] with exactly
    53 bits from it to the leading one. *)
Definition position (N d s : Z) : Prop :=
  (s = 0 /\ N < d * 2 ^ 53) \/
  (0 < s /\ d * 2 ^ (s + 52) <= N /\ N < d * 2 ^ (s + 53)).

(** The digit of the tenths of [r / 10], when it is not zero. *)
Definition tenths (r : Z) : string :=
  if r mod 10 =? 0 then EmptyString else String (digit_char (r mod 10)) EmptyString.

(** The multiplier of the unit [b] bytes are formatted in; 1 for no byte. *)
Definition unit_size_of (b : Z) : Z :=
  match select_unit b with
  | Some (_, unit_size) => unit_size
  | None => 1
  end.

(** ** The callers: validation_utils *)

(** [validate_size_string_simple]: the bare [except] answers [False] for
    any exception. *)
Definition validate_size_string_simple (size_str : pyval) : bool :=
  match validate_size_string size_str with
  | Ok b => b
  | Raise _ => false
  end.

(** [BackupCheckConfig.validate_min_size], on the [str] that pydantic hands
    to the validator of a field declared [str]: [not v] is emptiness. *)
Definition validate_min_size (v : string) : result string :=
  if is_empty v || is_empty (strip v) then Raise ValueError
  else
    let size_str := strip v in
    valid <- validate_size_string (PyStr size_str) ;;
    if negb valid then Raise ValueError else Ok size_str.

(** [AppConfig.validate_min_free_space]: a value that is not a string fails
    [isinstance(v, str)], an empty string fails [not v]. *)
Definition validate_min_free_space (v : pyval) : result string :=
  match v with
  | PyStr s =>
      if is_empty s then Raise ValueError
      else
        let size_str := strip s in
        valid <- validate_size_string (PyStr size_str) ;;
        if negb valid then Raise ValueError else Ok size_str
  | _ => Raise ValueError
  end.

Record BackupCheckConfig : Type := {
  name : string;
  backup_dir : string;
  days : Z;
  min_size : string
}.

Definition get_min_size_bytes (self : BackupCheckConfig) : result Z :=
  parse_size_to_bytes (PyStr (min_size self)).

Record AppConfig : Type := {
  to_email : option (list string);
  pushover_priority : Z;
  log_level : string;
  log_file : string;
  min_free_space : string;
  backup_check_list : list BackupCheckConfig
}.

Definition get_min_free_space_bytes (self : AppConfig) : result Z :=
  parse_size_to_bytes (PyStr (min_free_space self)).

(** ** The callers: filesystem_utils *)

(** [format_disk_usage]: the string it returns and the exceptions its
    [except Exception] reports to the logger.  [used_percent] is a float, or
    the integer 0, which [:.1f] formats as the float 0.0. *)
Definition format_disk_usage (total used free : Z) : string * list exn :=
  let body : result string :=
    if total =? 0 then Ok "Disk usage unavailable"
    else
      used_percent <-
        (if 0 <? total
         then ratio <- int_truediv used total ;; float_mul_int ratio 100
         else Ok (Fin 0 0)) ;;
      total_str <- bytes_to_human_readable (PyInt total) 1 ;;
      used_str <- bytes_to_human_readable (PyInt used) 1 ;;
      free_str <- bytes_to_human_readable (PyInt free) 1 ;;
      percent <- format_f used_percent 1 ;;
      Ok (total_str ++ " total, " ++ used_str ++ " used (" ++ percent ++ "%), "
            ++ free_str ++ " free") in
  match body with
  | Ok text => (text, [])
  | Raise e =>
      ("Total: " ++ str_of_int total ++ ", Used: " ++ str_of_int used
         ++ ", Free: " ++ str_of_int free ++ " (bytes)", [e])
  end.




(** * Text lemmas *)

Arguments isdecimal : simpl never.
Arguments digit_value : simpl never.
Arguments upper_char : simpl never.
Arguments isspace : simpl never.

Lemma char_eqb_eq (a b : char) : Char.eqb a b = true <-> a = b.
Proof. apply Z.eqb_eq. Qed.

Lemma char_eqb_spec (a b : char) : reflect (a = b) (Char.eqb a b).
Proof. apply Z.eqb_spec. Qed.

Lemma string_eqb_eq (a : string) : forall b, String.eqb a b = true <-> a = b.
Proof.
  induction a as [|c t IH]; intros [|d u]; simpl; split; try discriminate;
    try reflexivity.
  - intros H. apply andb_true_iff in H as [Hc Ht].
    apply char_eqb_eq in Hc. apply IH in Ht. now subst.
  - intros H. inversion H; subst. apply andb_true_iff. split.
    + now apply char_eqb_eq.
    + now apply IH.
Qed.

Lemma string_eqb_spec (a b : string) : reflect (a = b) (String.eqb a b).
Proof.
  destruct (String.eqb a b) eqn:E; constructor.
  - now apply string_eqb_eq.
  - intros H. apply string_eqb_eq in H. congruence.
Qed.

Lemma string_eqb_neq (a b : string) : String.eqb a b = false <-> a <> b.
Proof.
  destruct (string_eqb_spec a b); split; congruence.
Qed.

(** * The character tables *)

Lemma isspace_listed (c : char) : isspace c = true -> In c space_chars.
Proof.
  unfold isspace, code, space_chars.
  rewrite !orb_true_iff, !andb_true_iff, !Z.leb_le, !Z.eqb_eq.
  intros H. simpl. lia.
Qed.

Lemma spaces_all (f : Z -> bool) :
  forallb f space_chars = true -> forall c, isspace c = true -> f c = true.
Proof.
  intros H c Hc. rewrite forallb_forall in H. apply H, isspace_listed, Hc.
Qed.

Lemma digit_block_spec (c : char) (zero : Z) :
  digit_block c = Some zero -> In zero digit_blocks /\ zero <= c <= zero + 9.
Proof.
  unfold digit_block, code. intros H. apply find_some in H as [Hin Hc].
  apply andb_true_iff in Hc as [H1 H2]. apply Z.leb_le in H1, H2. auto.
Qed.

Lemma isdecimal_listed (c : char) : isdecimal c = true -> In c digit_chars.
Proof.
  unfold isdecimal. destruct (digit_block c) as [zero|] eqn:E; [|discriminate].
  intros _. apply digit_block_spec in E as [Hin Hc].
  unfold digit_chars. apply in_flat_map. exists zero. split; [assumption|].
  replace c with (zero + (c - zero)) by lia. apply in_map.
  simpl. lia.
Qed.

Lemma digits_all (f : Z -> bool) :
  forallb f digit_chars = true -> forall c, isdecimal c = true -> f c = true.
Proof.
  intros H c Hc. rewrite forallb_forall in H. apply H, isdecimal_listed, Hc.
Qed.

Lemma upper_runs_steps :
  forallb (fun run => let '(_, _, step, _) := run in 0 <? step) upper_runs = true.
Proof. vm_compute. reflexivity. Qed.

Lemma in_run_listed (c : Z) (run : Z * Z * Z * Z) :
  In run upper_runs -> in_run c run = true -> In c (run_chars run).
Proof.
  intros Hin. pose proof upper_runs_steps as Hs.
  rewrite forallb_forall in Hs. specialize (Hs run Hin).
  destruct run as [[[first last] step] delta]. apply Z.ltb_lt in Hs.
  unfold in_run, run_chars. rewrite !andb_true_iff, !Z.leb_le, Z.eqb_eq.
  intros [[H1 H2] H3].
  apply Z.mod_divide in H3; [|lia]. destruct H3 as [k Hk].
  assert (Hk0 : 0 <= k) by nia.
  replace c with (first + step * Z.of_nat (Z.to_nat k)) by (rewrite Z2Nat.id; lia).
  apply (in_map (fun n => first + step * Z.of_nat n)), in_seq. split; [lia|].
  assert (k <= (last - first) / step).
  { apply Z.div_le_lower_bound; [assumption|]. nia. }
  assert (0 <= (last - first) / step) by (apply Z.div_pos; lia).
  lia.
Qed.

Lemma upper_char_listed (c : char) :
  upper_char c = String c "" \/ In c cased_chars.
Proof.
  unfold upper_char, code, cased_chars.
  destruct (find (fun entry => fst entry =? c) upper_special) as [[k letters]|] eqn:E.
  - right. apply find_some in E as [Hin Hk]. simpl in Hk.
    apply Z.eqb_eq in Hk. subst k. apply in_or_app. left.
    now apply (in_map fst) in Hin.
  - destruct (find (in_run c) upper_runs) as [[[[first last] step] delta]|] eqn:R.
    + right. apply find_some in R as [Hin Hr]. apply in_or_app. right.
      apply in_flat_map. eexists. split; [exact Hin|].
      now apply in_run_listed.
    + now left.
Qed.

Lemma cased_all (f : Z -> bool) :
  forallb f cased_chars = true ->
  forall c, upper_char c = String c "" \/ f c = true.
Proof.
  intros H c. rewrite forallb_forall in H.
  destruct (upper_char_listed c); auto.
Qed.

Lemma upper_char_space (c : char) :
  isspace c = true -> upper_char c = String c "".
Proof.
  intros H.
  apply (spaces_all (fun c => String.eqb (upper_char c) (String c ""))) in H;
    [now apply string_eqb_eq|].
  vm_compute. reflexivity.
Qed.

Lemma upper_char_nonempty (c : char) : is_empty (upper_char c) = false.
Proof.
  destruct (cased_all (fun c => negb (is_empty (upper_char c)))
              ltac:(vm_compute; reflexivity) c) as [->|H]; [reflexivity|].
  now apply negb_true_iff in H.
Qed.

Lemma upper_char_not_space (c : char) :
  isspace c = false ->
  forall_chars (fun d => negb (isspace d)) (upper_char c) = true.
Proof.
  intros Hc.
  destruct (cased_all (fun c => forall_chars (fun d => negb (isspace d))
                                  (upper_char c))
              ltac:(vm_compute; reflexivity) c) as [->|H]; [|exact H].
  simpl. now rewrite Hc.
Qed.

Lemma upper_char_fixed (c : char) :
  forall_chars (fun d => String.eqb (upper_char d) (String d ""))
    (upper_char c) = true.
Proof.
  destruct (cased_all (fun c => forall_chars
                                  (fun d => String.eqb (upper_char d) (String d ""))
                                  (upper_char c))
              ltac:(vm_compute; reflexivity) c) as [E|H]; [|exact H].
  rewrite E. simpl. rewrite E.
  now rewrite (proj2 (string_eqb_eq _ _) eq_refl).
Qed.

Lemma append_nil_r (s : string) : s ++ "" = s.
Proof. induction s as [|c t IH]; simpl; [reflexivity | now rewrite IH]. Qed.

Lemma append_assoc (a b c : string) : (a ++ b) ++ c = a ++ (b ++ c).
Proof. induction a as [|x t IH]; simpl; [reflexivity | now rewrite IH]. Qed.

Lemma length_append (a b : string) :
  String.length (a ++ b) = (String.length a + String.length b)%nat.
Proof. induction a as [|x t IH]; simpl; [reflexivity | now rewrite IH]. Qed.

Lemma substring_prefix (a b : string) :
  substring 0 (String.length a) (a ++ b) = a.
Proof.
  induction a as [|x t IH]; simpl.
  - destruct b; reflexivity.
  - now rewrite IH.
Qed.

Lemma consumed_append (a b : string) : consumed (a ++ b) b = a.
Proof.
  unfold consumed. rewrite length_append.
  replace (String.length a + String.length b - String.length b)%nat
    with (String.length a) by lia.
  apply substring_prefix.
Qed.

Lemma forall_chars_append (p : char -> bool) (a b : string) :
  forall_chars p (a ++ b) = forall_chars p a && forall_chars p b.
Proof.
  induction a as [|x t IH]; simpl; [reflexivity|].
  rewrite IH. now rewrite andb_assoc.
Qed.

Lemma forall_chars_impl (p q : char -> bool) (s : string) :
  (forall c, p c = true -> q c = true) ->
  forall_chars p s = true -> forall_chars q s = true.
Proof.
  intros Hpq. induction s as [|c t IH]; simpl; [reflexivity|].
  intros H. apply andb_true_iff in H as [Hc Ht].
  rewrite (Hpq _ Hc), (IH Ht). reflexivity.
Qed.

Lemma span_append (p : char -> bool) (a b : string) :
  forall_chars p a = true -> starts_not p b = true ->
  span p (a ++ b) = (a, b).
Proof.
  intros Ha Hb. induction a as [|x t IH]; simpl in *.
  - destruct b as [|c r]; simpl in *; [reflexivity|].
    apply negb_true_iff in Hb. now rewrite Hb.
  - apply andb_true_iff in Ha as [Hx Ht]. rewrite Hx, (IH Ht). reflexivity.
Qed.

Lemma lstrip_by_id (p : char -> bool) (s : string) :
  starts_not p s = true -> lstrip_by p s = s.
Proof.
  destruct s as [|c t]; simpl; [reflexivity|].
  intros H. apply negb_true_iff in H. now rewrite H.
Qed.

Lemma rstrip_by_none (p : char -> bool) (s : string) :
  forall_chars (fun c => negb (p c)) s = true -> rstrip_by p s = s.
Proof.
  induction s as [|c t IH]; simpl; [reflexivity|].
  intros H. apply andb_true_iff in H as [Hc Ht].
  rewrite (IH Ht). apply negb_true_iff in Hc. rewrite Hc, andb_false_r.
  reflexivity.
Qed.

Lemma rstrip_by_last (p : char -> bool) (s a : string) (c : char) :
  rstrip_by p s = a ++ String c EmptyString -> p c = false.
Proof.
  revert a. induction s as [|x t IH]; simpl; intros a H.
  - destruct a; discriminate.
  - destruct (rstrip_by p t) as [|y r] eqn:Ht; simpl in H.
    + destruct (p x) eqn:Hx; [destruct a; discriminate|].
      destruct a as [|a0 a']; simpl in H; inversion H; subst; auto.
      destruct a'; discriminate.
    + destruct a as [|a0 a']; simpl in H; inversion H; subst.
      apply (IH a'). assumption.
Qed.

(** * The matcher against the language *)

Section MatcherFacts.
Context {A : Type}.
Implicit Types (k : string -> option A) (x : A).

Lemma match_star_sound p s k x :
  match_star p s k = Some x ->
  exists a b, s = a ++ b /\ forall_chars p a = true /\ k b = Some x.
Proof.
  induction s as [|c t IH]; simpl; intros H.
  - exists "", "". auto.
  - destruct (p c) eqn:Hc.
    + destruct (match_star p t k) as [y|] eqn:Hm.
      * inversion H; subst y.
        destruct (IH eq_refl) as (a & b & E & Ha & Hk).
        exists (String c a), b. simpl. rewrite Hc, Ha, E. auto.
      * exists "", (String c t). auto.
    + exists "", (String c t). auto.
Qed.

Lemma match_regex_sound r : forall s k x,
  match_regex r s k = Some x ->
  exists a b, s = a ++ b /\ lang r a /\ k b = Some x.
Proof.
  induction r as [p|r1 IH1 r2 IH2|r1 IH1|p|p]; simpl; intros s k x H.
  - destruct s as [|c t]; [discriminate|].
    destruct (p c) eqn:Hc; [|discriminate].
    exists (String c ""), t. simpl. eauto.
  - apply IH1 in H as (a1 & b1 & E1 & L1 & H).
    apply IH2 in H as (a2 & b2 & E2 & L2 & H).
    exists (a1 ++ a2), b2. rewrite append_assoc, <- E2, <- E1. eauto 7.
  - destruct (match_regex r1 s k) as [y|] eqn:Hm.
    + inversion H; subst y.
      apply IH1 in Hm as (a & b & E & L & Hk). exists a, b. auto.
    + exists "", s. auto.
  - apply match_star_sound in H as (a & b & E & Ha & Hk). exists a, b. auto.
  - destruct s as [|c t]; [discriminate|].
    destruct (p c) eqn:Hc; [|discriminate].
    apply match_star_sound in H as (a & b & E & Ha & Hk).
    exists (String c a), b. simpl. rewrite Hc, Ha, E.
    repeat split; auto. discriminate.
Qed.

(** The longest run is tried first: when the continuation accepts what
    follows it, that is the match. *)
Lemma match_star_greedy p a b k x :
  forall_chars p a = true -> starts_not p b = true -> k b = Some x ->
  match_star p (a ++ b) k = Some x.
Proof.
  intros Ha Hb Hk. induction a as [|c t IH]; simpl in *.
  - destruct b as [|c r]; simpl in *; [exact Hk|].
    apply negb_true_iff in Hb. now rewrite Hb.
  - apply andb_true_iff in Ha as [Hc Ht]. rewrite Hc, (IH Ht). reflexivity.
Qed.

Lemma match_plus_greedy p a b k x :
  a <> "" -> forall_chars p a = true -> starts_not p b = true ->
  k b = Some x ->
  match_regex (Plus p) (a ++ b) k = Some x.
Proof.
  intros Hne Ha Hb Hk. destruct a as [|c t]; [contradiction|].
  simpl in *. apply andb_true_iff in Ha as [Hc Ht]. rewrite Hc.
  now apply match_star_greedy.
Qed.
End MatcherFacts.

Lemma is_char_eq (c d : char) : is_char c d = true -> d = c.
Proof. unfold is_char. intros H. apply char_eqb_eq in H. auto. Qed.

(** The five unit tokens are the strings of [[KMGT]?B]. *)
Lemma lang_unit_cases (u : string) :
  lang unit_re u <-> In u ["B"; "KB"; "MB"; "GB"; "TB"].
Proof.
  split.
  - intros (a & b & E & La & (c & Eb & Hc)). apply is_char_eq in Hc. subst.
    destruct La as [->|(k & -> & Hk)]; simpl; auto.
    unfold one_of in Hk. simpl in Hk.
    repeat (apply orb_true_iff in Hk as [Hk|Hk];
            [apply char_eqb_eq in Hk; subst; simpl; tauto|]).
    discriminate.
  - simpl. intros H.
    repeat (destruct H as [<-|H];
            [first [ exists "", "B"; simpl; split; [reflexivity|];
                     split; [left; reflexivity | exists "B"%char; auto]
                   | eexists (String _ ""), "B"; simpl; split; [reflexivity|];
                     split; [right; eexists; split; [reflexivity|reflexivity]
                            | exists "B"%char; auto] ]|]).
    contradiction.
Qed.

(** A number of the grammar is a decimal literal of digits. *)
Lemma lang_number_cases (v : string) :
  lang number_re v <->
  exists ip fp,
    v = decimal_literal ip fp /\ ip <> "" /\
    forall_chars isdecimal ip = true /\ forall_chars isdecimal fp = true.
Proof.
  split.
  - intros (ip & b & E & (Hne & Hip) & [->|(d & fp & Eb & (c & -> & Hc) & Hfe & Hfp)]).
    + exists ip, "". rewrite append_nil_r in E. auto.
    + apply is_char_eq in Hc. subst. exists ip, fp.
      unfold decimal_literal. destruct fp; [contradiction|]. auto.
  - intros (ip & fp & -> & Hne & Hip & Hfp). unfold decimal_literal.
    destruct fp as [|f fs]; simpl is_empty; cbv iota.
    + exists ip, "". rewrite append_nil_r. simpl. auto.
    + exists ip, (String "." (String f fs)). repeat split; auto.
      right. exists (String "." ""), (String f fs). repeat split; auto.
      * exists "."%char. auto.
      * discriminate.
Qed.

Lemma space_not_digit (c : char) : isspace c = true -> isdecimal c = false.
Proof.
  intros H. apply (spaces_all (fun c => negb (isdecimal c))) in H.
  - now apply negb_true_iff.
  - vm_compute. reflexivity.
Qed.

Lemma space_not_dot (c : char) : isspace c = true -> is_char "." c = false.
Proof.
  intros H. unfold is_char. destruct (char_eqb_spec "." c) as [<-|]; auto.
Qed.

Section Completeness.
Context {A : Type}.
Implicit Types (k : string -> option A) (x : A).

Lemma match_number_complete v rest k x :
  lang number_re v ->
  starts_not isdecimal rest = true -> starts_not (is_char ".") rest = true ->
  k rest = Some x ->
  match_regex number_re (v ++ rest) k = Some x.
Proof.
  intros Hv Hd Hp Hk.
  apply lang_number_cases in Hv as (ip & fp & -> & Hne & Hip & Hfp).
  unfold decimal_literal, number_re.
  change (match_regex (Cat ?r1 ?r2) ?s ?k0)
    with (match_regex r1 s (fun t => match_regex r2 t k0)).
  destruct fp as [|f fs]; simpl is_empty; cbv iota.
  - apply match_plus_greedy; auto.
    destruct rest as [|c t]; simpl in *; [exact Hk|].
    apply negb_true_iff in Hp. now rewrite Hp.
  - rewrite append_assoc. apply match_plus_greedy; auto.
    change (match_regex (Opt ?r) ?s ?k0)
      with (match match_regex r s k0 with Some y => Some y | None => k0 s end).
    change (match_regex (Cat ?r1 ?r2) ?s ?k0)
      with (match_regex r1 s (fun t => match_regex r2 t k0)).
    change (String "." (String f fs) ++ rest)
      with (String "." (String f fs ++ rest)).
    cbn [match_regex]. change (is_char "." ".") with true. cbv iota.
    pose proof (match_plus_greedy isdecimal (String f fs) rest k x
                  ltac:(discriminate) Hfp Hd Hk) as E.
    cbn [match_regex] in E. rewrite E. reflexivity.
Qed.

Lemma match_unit_complete u tail k :
  In u ["B"; "KB"; "MB"; "GB"; "TB"] ->
  match_regex unit_re (u ++ tail) k = k tail.
Proof.
  simpl. intros H.
  repeat (destruct H as [<-|H]; [simpl; destruct (k tail); reflexivity|]).
  contradiction.
Qed.
End Completeness.

Lemma unit_starts (u rest : string) (p : char -> bool) :
  In u ["B"; "KB"; "MB"; "GB"; "TB"] ->
  p "B"%char = false -> p "K"%char = false -> p "M"%char = false ->
  p "G"%char = false -> p "T"%char = false ->
  starts_not p (u ++ rest) = true.
Proof.
  simpl. intros H HB HK HM HG HT.
  repeat (destruct H as [<-|H]; [simpl; apply negb_true_iff; assumption|]).
  contradiction.
Qed.

(** [re.match] on the module's pattern accepts exactly the strings of the
    grammar, possibly followed by one newline, and its groups are the
    number and the unit. *)
Lemma re_match_sound (s v u : string) :
  re_match s = Some (v, u) ->
  exists w tail,
    s = v ++ w ++ u ++ tail /\ lang number_re v /\ lang spaces_re w /\
    lang unit_re u /\ at_end tail = true.
Proof.
  unfold re_match. intros H.
  apply match_regex_sound in H as (a1 & s1 & E1 & L1 & H).
  apply match_regex_sound in H as (a2 & s2 & E2 & L2 & H).
  apply match_regex_sound in H as (a3 & s3 & E3 & L3 & H).
  destruct (at_end s3) eqn:He; [|discriminate].
  inversion H; subst. rewrite !consumed_append.
  exists a2, s3. auto.
Qed.

Lemma re_match_complete (v w u tail : string) :
  lang number_re v -> lang spaces_re w -> lang unit_re u ->
  at_end tail = true ->
  re_match (v ++ w ++ u ++ tail) = Some (v, u).
Proof.
  intros Lv Lw Lu He. simpl in Lw. apply lang_unit_cases in Lu.
  assert (Hw : forall p, (forall c, isspace c = true -> p c = false) ->
                         p "B"%char = false -> p "K"%char = false ->
                         p "M"%char = false -> p "G"%char = false ->
                         p "T"%char = false ->
                         starts_not p (w ++ u ++ tail) = true).
  { intros p Hp HB HK HM HG HT. destruct w as [|c t].
    - simpl String.append. now apply unit_starts.
    - simpl in *. apply andb_true_iff in Lw as [Hc _].
      now rewrite (Hp _ Hc). }
  unfold re_match. apply match_number_complete; auto.
  - apply Hw; auto using space_not_digit.
  - apply Hw; auto using space_not_dot.
  - unfold spaces_re. cbn [match_regex]. apply match_star_greedy; auto.
    + apply unit_starts; auto.
    + rewrite match_unit_complete by assumption. rewrite He.
      rewrite !consumed_append. reflexivity.
Qed.

(** * Rounding lemmas *)

Lemma pow2_pos (z : Z) : 0 < pow2 z.
Proof. unfold pow2. apply Z.pow_pos_nonneg; lia. Qed.

Lemma one_units_pos : 0 < one_units.
Proof. apply Z.pow_pos_nonneg; lia. Qed.

Lemma pow2_nonneg (z : Z) : 0 <= z -> pow2 z = 2 ^ z.
Proof. intros H. unfold pow2. now rewrite Z.max_l. Qed.

Lemma pow2_nonpos (z : Z) : z <= 0 -> pow2 z = 1.
Proof. intros H. unfold pow2. now rewrite Z.max_r. Qed.

(** [2^(z+k) = 2^z * 2^k], on the fractions [pow2 _ / pow2 (- _)]. *)
Lemma pow2_shift (z k : Z) :
  0 <= k ->
  pow2 (z + k) * pow2 (- z) = pow2 z * pow2 (- (z + k)) * 2 ^ k.
Proof.
  intros Hk.
  destruct (Z.le_gt_cases 0 z) as [Hz|Hz].
  - rewrite (pow2_nonpos (- z)), (pow2_nonpos (- (z + k))) by lia.
    rewrite !pow2_nonneg by lia. rewrite Z.pow_add_r by lia. ring.
  - rewrite (pow2_nonpos z), (pow2_nonneg (- z)) by lia.
    destruct (Z.le_gt_cases 0 (z + k)) as [Hs|Hs].
    + rewrite (pow2_nonneg (z + k)), (pow2_nonpos (- (z + k))) by lia.
      rewrite <- Z.pow_add_r by lia. replace (z + k + - z) with k by lia. ring.
    + rewrite (pow2_nonpos (z + k)), (pow2_nonneg (- (z + k))) by lia.
      replace (- z) with (- (z + k) + k) at 1 by lia.
      rewrite Z.pow_add_r by lia. ring.
Qed.

Lemma pow2_units (e : Z) :
  -1074 <= e -> pow2 e * one_units = pow2 (- e) * 2 ^ (e + 1074).
Proof.
  intros He. pose proof (pow2_shift (-1074) (e + 1074) ltac:(lia)) as H.
  replace (-1074 + (e + 1074)) with e in H by lia.
  rewrite (pow2_nonpos (-1074)) in H by lia.
  rewrite (pow2_nonneg (- -1074)) in H by lia.
  change (2 ^ (- -1074)) with one_units in H. lia.
Qed.

Lemma rnd_half_even_scale (n d c : Z) :
  0 < d -> 0 < c -> rnd_half_even (n * c) (d * c) = rnd_half_even n d.
Proof.
  intros Hd Hc. unfold rnd_half_even.
  rewrite Z.div_mul_cancel_r by lia.
  rewrite Z.mul_mod_distr_r by lia.
  destruct (Z.ltb_spec (2 * (n mod d * c)) (d * c)),
           (Z.ltb_spec (2 * (n mod d)) d); try nia; try reflexivity.
  destruct (Z.ltb_spec (d * c) (2 * (n mod d * c))),
           (Z.ltb_spec d (2 * (n mod d))); try nia; reflexivity.
Qed.

(** Rounding depends on the fraction only. *)
Lemma rnd_half_even_cross (n d n' d' : Z) :
  0 < d -> 0 < d' -> n * d' = n' * d ->
  rnd_half_even n d = rnd_half_even n' d'.
Proof.
  intros Hd Hd' E.
  rewrite <- (rnd_half_even_scale n d d'), <- (rnd_half_even_scale n' d' d) by lia.
  rewrite E. f_equal. ring.
Qed.

Lemma rnd_half_even_exact (k d : Z) : 0 < d -> rnd_half_even (k * d) d = k.
Proof.
  intros Hd. unfold rnd_half_even.
  rewrite Z.div_mul, Z.mod_mul by lia.
  destruct (Z.ltb_spec (2 * 0) d); [reflexivity | lia].
Qed.

(** The rounded quotient is within half of the quotient. *)
Lemma rnd_half_even_error (n d : Z) :
  0 < d -> - d <= 2 * (rnd_half_even n d * d - n) <= d.
Proof.
  intros Hd. unfold rnd_half_even.
  pose proof (Z.div_mod n d ltac:(lia)) as E.
  pose proof (Z.mod_pos_bound n d Hd) as B.
  destruct (Z.ltb_spec (2 * (n mod d)) d); [nia|].
  destruct (Z.ltb_spec d (2 * (n mod d))); [nia|].
  destruct (Z.even (n / d)); nia.
Qed.

Lemma rnd_half_even_le (n d k : Z) :
  0 < d -> n <= k * d -> rnd_half_even n d <= k.
Proof. intros Hd H. pose proof (rnd_half_even_error n d Hd). nia. Qed.

Lemma rnd_half_even_ge (n d k : Z) :
  0 < d -> k * d <= n -> k <= rnd_half_even n d.
Proof. intros Hd H. pose proof (rnd_half_even_error n d Hd). nia. Qed.

Lemma pow2_succ (z : Z) : 0 <= z -> pow2 (z + 1) = 2 * pow2 z.
Proof.
  intros H. rewrite !pow2_nonneg by lia. rewrite Z.pow_add_r by lia. lia.
Qed.

(** [leading_bit n d] is the [l] with [2^l <= n / d < 2^(l+1)]. *)
Lemma leading_bit_spec (n d : Z) :
  0 < n -> 0 < d ->
  let l := leading_bit n d in
  d * pow2 l <= n * pow2 (- l) /\ n * pow2 (- l) < 2 * (d * pow2 l).
Proof.
  intros Hn Hd.
  destruct (Z.log2_spec n Hn) as [An An'], (Z.log2_spec d Hd) as [Bd Bd'].
  pose proof (Z.log2_nonneg n) as Ha. pose proof (Z.log2_nonneg d) as Hb.
  rewrite <- Z.add_1_r in An', Bd'.
  rewrite Z.pow_add_r in An', Bd' by lia. change (2 ^ 1) with 2 in An', Bd'.
  unfold leading_bit.
  set (a := Z.log2 n) in *. set (b := Z.log2 d) in *.
  destruct (Z.le_gt_cases b a) as [Hab|Hab].
  - (* the quotient is at least 1/2 *)
    assert (E : 2 ^ a = 2 ^ b * 2 ^ (a - b)).
    { unfold one_units. rewrite <- Z.pow_add_r by lia. f_equal. lia. }
    assert (P : 0 < 2 ^ (a - b)) by (apply Z.pow_pos_nonneg; lia).
    rewrite (pow2_nonpos (- (a - b))), (pow2_nonneg (a - b)) by lia.
    destruct (Z.ltb_spec (n * 1) (d * 2 ^ (a - b))) as [Ht|Ht]; cbv zeta.
    + destruct (Z.eq_dec a b) as [Eab|Nab].
      * replace (a - b) with 0 in * by lia.
        change (pow2 (0 - 1)) with 1. change (pow2 (- (0 - 1))) with 2.
        change (2 ^ 0) with 1 in *. nia.
      * rewrite (pow2_nonneg (a - b - 1)), (pow2_nonpos (- (a - b - 1))) by lia.
        assert (E2 : 2 ^ (a - b) = 2 * 2 ^ (a - b - 1)).
        { replace (a - b) with (a - b - 1 + 1) at 1 by lia.
          rewrite Z.pow_add_r by lia. lia. }
        assert (P2 : 0 < 2 ^ (a - b - 1)) by (apply Z.pow_pos_nonneg; lia).
        nia.
    + rewrite (pow2_nonpos (- (a - b))), (pow2_nonneg (a - b)) by lia. nia.
  - (* the quotient is below 1 *)
    assert (E : 2 ^ b = 2 ^ a * 2 ^ (b - a)).
    { unfold one_units. rewrite <- Z.pow_add_r by lia. f_equal. lia. }
    assert (P : 0 < 2 ^ (b - a)) by (apply Z.pow_pos_nonneg; lia).
    rewrite (pow2_nonneg (- (a - b))), (pow2_nonpos (a - b)) by lia.
    replace (- (a - b)) with (b - a) by lia.
    destruct (Z.ltb_spec (n * 2 ^ (b - a)) (d * 1)) as [Ht|Ht]; cbv zeta.
    + rewrite (pow2_nonpos (a - b - 1)) by lia.
      replace (- (a - b - 1)) with (b - a + 1) by lia.
      rewrite pow2_succ, pow2_nonneg by lia. nia.
    + rewrite (pow2_nonpos (a - b)), (pow2_nonneg (- (a - b))) by lia.
      replace (- (a - b)) with (b - a) by lia. nia.
Qed.

Lemma exponent_position (n d : Z) :
  0 < n -> 0 < d ->
  let e := Z.max (leading_bit n d - 52) (-1074) in
  position (n * one_units) d (e + 1074).
Proof.
  intros Hn Hd. destruct (leading_bit_spec n d Hn Hd) as [Lo Hi].
  set (l := leading_bit n d) in *. cbv zeta.
  pose proof (pow2_pos l) as Pl. pose proof (pow2_pos (- l)) as Pl'.
  destruct (Z.le_gt_cases (-1022) l) as [Hl|Hl].
  - rewrite Z.max_l by lia.
    pose proof (pow2_units l ltac:(lia)) as U.
    assert (P : 0 < 2 ^ (l + 1074)) by (apply Z.pow_pos_nonneg; lia).
    destruct (Z.eq_dec l (-1022)) as [El|Nl].
    + left. split; [lia|]. rewrite El in *.
      change (pow2 (-1022)) with 1 in *.
      change (pow2 (- -1022)) with (2 ^ 1022) in *.
      change (2 ^ (-1022 + 1074)) with (2 ^ 52) in U.
      set (A := 2 ^ 1022) in *. clearbody A.
      change (2 ^ 53) with (2 * 2 ^ 52). nia.
    + right. split; [lia|].
      replace (l - 52 + 1074 + 52) with (l + 1074) by lia.
      replace (l - 52 + 1074 + 53) with (l + 1074 + 1) by lia.
      rewrite (Z.pow_add_r 2 (l + 1074) 1) by lia. change (2 ^ 1) with 2.
      split.
      * apply (Z.mul_le_mono_pos_r _ _ (pow2 (- l))); [assumption|]. nia.
      * apply (Z.mul_lt_mono_pos_r (pow2 (- l))); [assumption|]. nia.
  - rewrite Z.max_r by lia. left. split; [lia|].
    rewrite (pow2_nonpos l) in * by lia.
    rewrite (pow2_nonneg (- l)) in * by lia.
    assert (Q : 2 ^ 1023 <= 2 ^ (- l)) by (apply Z.pow_le_mono_r; lia).
    assert (E : one_units = 2 ^ 1023 * 2 ^ 51) by reflexivity.
    assert (PB : 0 < 2 ^ 1023) by (apply Z.pow_pos_nonneg; lia).
    set (B := 2 ^ 1023) in *. clearbody B.
    change (2 ^ 53) with (4 * 2 ^ 51).
    assert (N1 : n * B < 2 * d) by nia.
    nia.
Qed.

(** [round64] on the quotient in units: the significand is the quotient
    [N / d] rounded at the position of the last kept bit. *)
Lemma round64_units (n d : Z) :
  0 < n -> 0 < d ->
  exists e,
    -1074 <= e /\ position (n * one_units) d (e + 1074) /\
    round64 n d =
      (let m := rnd_half_even (n * one_units) (d * 2 ^ (e + 1074)) in
       let e' := if m =? 2 ^ 53 then e + 1 else e in
       let m' := if m =? 2 ^ 53 then 2 ^ 52 else m in
       if 971 <? e' then PosInf else Fin m' e').
Proof.
  intros Hn Hd. exists (Z.max (leading_bit n d - 52) (-1074)).
  split; [lia|]. split; [now apply exponent_position|].
  unfold round64. set (e := Z.max (leading_bit n d - 52) (-1074)).
  assert (He : -1074 <= e) by lia.
  assert (P : 0 < 2 ^ (e + 1074)) by (apply Z.pow_pos_nonneg; lia).
  pose proof (pow2_pos e). pose proof (pow2_pos (- e)).
  rewrite (rnd_half_even_cross (n * pow2 (- e)) (d * pow2 e)
             (n * one_units) (d * 2 ^ (e + 1074))); [reflexivity|nia|nia|].
  pose proof (pow2_units e He) as U.
  transitivity (n * d * (pow2 (- e) * 2 ^ (e + 1074))); [ring|].
  rewrite <- U. ring.
Qed.

Lemma rnd_half_even_zero (d : Z) : 0 < d -> rnd_half_even 0 d = 0.
Proof. intros Hd. exact (rnd_half_even_exact 0 d Hd). Qed.

Lemma round64_zero (d : Z) :
  0 < d -> exists e, round64 0 d = Fin 0 e /\ -1074 <= e <= 971.
Proof.
  intros Hd. unfold round64.
  set (e := Z.max (leading_bit 0 d - 52) (-1074)).
  assert (He : -1074 <= e <= 971).
  { subst e. unfold leading_bit. pose proof (Z.log2_nonneg d).
    change (Z.log2 0) with 0.
    destruct (0 * pow2 (- (0 - Z.log2 d)) <? d * pow2 (0 - Z.log2 d)); lia. }
  rewrite Z.mul_0_l, rnd_half_even_zero by (pose proof (pow2_pos e); nia).
  change (0 =? 2 ^ 53) with false. cbv iota.
  destruct (Z.ltb_spec 971 e); [lia|]. eauto.
Qed.

(** A finite result has a significand of 53 bits and an exponent in range. *)
Lemma round64_bounds (n d m e : Z) :
  0 <= n -> 0 < d -> round64 n d = Fin m e ->
  0 <= m < 2 ^ 53 /\ -1074 <= e <= 971.
Proof.
  intros Hn Hd H.
  destruct (Z.eq_dec n 0) as [->|Nn].
  - destruct (round64_zero d Hd) as (e0 & E & B). rewrite E in H.
    inversion H; subst. lia.
  - destruct (round64_units n d ltac:(lia) Hd) as (e0 & He0 & Pos & E).
    rewrite E in H; clear E. cbv zeta in H.
    set (N := n * one_units) in *. set (s := e0 + 1074) in *.
    assert (P : 0 < 2 ^ s) by (apply Z.pow_pos_nonneg; lia).
    assert (HN : 0 <= N) by (subst N; pose proof one_units_pos; nia).
    assert (Lo : 0 <= rnd_half_even N (d * 2 ^ s))
      by (apply rnd_half_even_ge; nia).
    assert (Hi : rnd_half_even N (d * 2 ^ s) <= 2 ^ 53).
    { apply rnd_half_even_le; [nia|].
      destruct Pos as [[E0 Hlt]|(Hs & _ & Hlt)].
      - rewrite E0. change (2 ^ 0) with 1. lia.
      - rewrite Z.pow_add_r in Hlt by lia. lia. }
    destruct (Z.eqb_spec (rnd_half_even N (d * 2 ^ s)) (2 ^ 53)) as [Em|Nm].
    + destruct (Z.ltb_spec 971 (e0 + 1)); [discriminate|].
      inversion H; subst. change (2 ^ 52) with 4503599627370496.
      change (2 ^ 53) with 9007199254740992. lia.
    + destruct (Z.ltb_spec 971 e0); [discriminate|].
      inversion H; subst. lia.
Qed.

Lemma overflow_units_high : overflow_units = 2 ^ 52 * 2 ^ 2046.
Proof.
  unfold overflow_units. rewrite <- Z.pow_add_r; [reflexivity|discriminate..].
Qed.

Lemma overflow_units_low : overflow_units = 2 ^ 53 * 2 ^ 2045.
Proof.
  unfold overflow_units. rewrite <- Z.pow_add_r; [reflexivity|discriminate..].
Qed.

(** A quotient that is a binary64 value is not changed: [V] units with a
    significand [M] of at most 53 bits, through to the overflow. *)
Lemma round64_exact (n d V M S : Z) :
  0 < d -> n * one_units = V * d -> V = M * 2 ^ S -> 0 < M < 2 ^ 53 -> 0 <= S ->
  (V < overflow_units ->
   exists m e, round64 n d = Fin m e /\ units m e = V /\ -1074 <= e) /\
  (overflow_units <= V -> round64 n d = PosInf).
Proof.
  intros Hd EN EV HM HS. pose proof one_units_pos as PU.
  assert (PS : 0 < 2 ^ S) by (apply Z.pow_pos_nonneg; lia).
  assert (HV : 0 < V) by nia.
  assert (Hn : 0 < n) by nia.
  destruct (round64_units n d Hn Hd) as (e & He & Pos & E).
  rewrite E; clear E. cbv zeta. rewrite EN.
  set (s := e + 1074) in *.
  assert (P : 0 < 2 ^ s) by (apply Z.pow_pos_nonneg; lia).
  (* the bits below the position are all zero *)
  assert (K : exists k, V = k * 2 ^ s /\ 0 < k < 2 ^ 53 /\
                        (0 < s -> 2 ^ 52 <= k)).
  { destruct Pos as [[E0 Hlt]|(Hs & Hge & Hlt)].
    - exists V. rewrite E0. change (2 ^ 0) with 1. split; [lia|]. split; nia.
    - rewrite Z.pow_add_r in Hge, Hlt by lia.
      assert (Hle : s <= S).
      { destruct (Z.le_gt_cases s S) as [|Hlt']; [assumption|exfalso].
        assert (Q : 2 ^ s = 2 ^ S * 2 ^ (s - S)).
        { unfold one_units. rewrite <- Z.pow_add_r by lia. f_equal. lia. }
        assert (Q2 : 2 <= 2 ^ (s - S)).
        { change 2 with (2 ^ 1) at 1. apply Z.pow_le_mono_r; lia. }
        change (2 ^ 52) with 4503599627370496 in *.
        change (2 ^ 53) with 9007199254740992 in *. nia. }
      exists (M * 2 ^ (S - s)).
      assert (Q : 2 ^ S = 2 ^ (S - s) * 2 ^ s).
      { unfold one_units. rewrite <- Z.pow_add_r by lia. f_equal. lia. }
      assert (PQ : 0 < 2 ^ (S - s)) by (apply Z.pow_pos_nonneg; lia).
      split; [rewrite EV, Q; ring|]. nia. }
  destruct K as (k & Ek & Hk & Hk52).
  replace (V * d) with (k * (d * 2 ^ s)) by (rewrite Ek; ring).
  rewrite rnd_half_even_exact by nia.
  destruct (Z.eqb_spec k (2 ^ 53)) as [Ekk|_]; [lia|].
  destruct (Z.ltb_spec 971 e) as [Hover|Hfin].
  - split; [|reflexivity]. intros Hlt. exfalso.
    specialize (Hk52 ltac:(lia)).
    assert (Q : 2 ^ 2046 <= 2 ^ s) by (apply Z.pow_le_mono_r; lia).
    rewrite overflow_units_high in Hlt.
    set (T := 2 ^ 2046) in *. clearbody T. nia.
  - split.
    + intros _. exists k, e. unfold units. fold s. auto.
    + intros Hge. exfalso.
      assert (Q : 2 ^ s <= 2 ^ 2045) by (apply Z.pow_le_mono_r; lia).
      rewrite overflow_units_low in Hge.
      set (T := 2 ^ 2045) in *. clearbody T. nia.
Qed.

(** ** Floats in units *)

Section Units.
Variables m e : Z.
Hypothesis He : -1074 <= e.

Lemma units_cross :
  pow2 e * one_units = pow2 (- e) * 2 ^ (e + 1074) /\
  0 < pow2 e /\ 0 < pow2 (- e) /\ 0 < one_units /\ 0 < 2 ^ (e + 1074).
Proof.
  split; [exact (pow2_units e He)|].
  repeat split; try apply pow2_pos; apply Z.pow_pos_nonneg; lia.
Qed.

Lemma float_gt_int_units (z : Z) :
  float_gt_int (Fin m e) z = (z * one_units <? units m e).
Proof.
  unfold float_gt_int, units.
  destruct units_cross as (X & PA & PB & PC & PD).
  set (A := pow2 e) in *. set (B := pow2 (- e)) in *.
  set (C := one_units) in *. set (D := 2 ^ (e + 1074)) in *.
  clearbody A B C D.
  destruct (Z.ltb_spec (z * B) (m * A)) as [H|H],
           (Z.ltb_spec (z * C) (m * D)) as [H'|H']; try reflexivity; exfalso.
  - assert (z * B * C < m * A * C) by nia.
    assert (m * D * B <= z * C * B) by nia.
    assert (m * (A * C) = m * (B * D)) by (rewrite X; ring). lia.
  - assert (m * A * C <= z * B * C) by nia.
    assert (z * C * B < m * D * B) by nia.
    assert (m * (A * C) = m * (B * D)) by (rewrite X; ring). lia.
Qed.

Lemma float_lt_int_units (z : Z) :
  float_lt_int (Fin m e) z = (units m e <? z * one_units).
Proof.
  unfold float_lt_int, units.
  destruct units_cross as (X & PA & PB & PC & PD).
  set (A := pow2 e) in *. set (B := pow2 (- e)) in *.
  set (C := one_units) in *. set (D := 2 ^ (e + 1074)) in *.
  clearbody A B C D.
  destruct (Z.ltb_spec (m * A) (z * B)) as [H|H],
           (Z.ltb_spec (m * D) (z * C)) as [H'|H']; try reflexivity; exfalso.
  - assert (m * A * C < z * B * C) by nia.
    assert (z * C * B <= m * D * B) by nia.
    assert (m * (A * C) = m * (B * D)) by (rewrite X; ring). lia.
  - assert (z * B * C <= m * A * C) by nia.
    assert (m * D * B < z * C * B) by nia.
    assert (m * (A * C) = m * (B * D)) by (rewrite X; ring). lia.
Qed.

Lemma int_of_float_units :
  int_of_float (Fin m e) = Ok (Z.quot (units m e) (one_units)).
Proof.
  unfold int_of_float, units.
  destruct units_cross as (X & PA & PB & PC & PD).
  set (A := pow2 e) in *. set (B := pow2 (- e)) in *.
  set (C := one_units) in *. set (D := 2 ^ (e + 1074)) in *.
  clearbody A B C D.
  f_equal.
  rewrite <- (Z.quot_mul_cancel_r (m * A) B C) by lia.
  rewrite <- (Z.quot_mul_cancel_r (m * D) C B) by lia.
  f_equal; [|ring].
  transitivity (m * (A * C)); [ring|]. rewrite X. ring.
Qed.

Lemma format_f_units (dp : Z) :
  rnd_half_even (Z.abs m * pow2 e * 10 ^ dp) (pow2 (- e)) =
  rnd_half_even (Z.abs (units m e) * 10 ^ dp) (one_units).
Proof.
  unfold units.
  destruct units_cross as (X & PA & PB & PC & PD).
  set (A := pow2 e) in *. set (B := pow2 (- e)) in *.
  set (C := one_units) in *. set (D := 2 ^ (e + 1074)) in *.
  clearbody A B C D.
  apply rnd_half_even_cross; try assumption.
  rewrite Z.abs_mul, (Z.abs_eq D) by lia.
  transitivity (Z.abs m * 10 ^ dp * (A * C)); [ring|]. rewrite X. ring.
Qed.
End Units.

(** Multiplication by a power of two is exact, through to the overflow. *)
Lemma fmul_scale (m e j : Z) :
  0 <= m < 2 ^ 53 -> -1074 <= e -> 0 <= j ->
  let V := units m e * 2 ^ j in
  (V < overflow_units ->
   exists m' e',
     fmul (Fin m e) (Fin (2 ^ 52) (j - 52)) = Fin m' e' /\
     units m' e' = V /\ -1074 <= e') /\
  (overflow_units <= V -> fmul (Fin m e) (Fin (2 ^ 52) (j - 52)) = PosInf).
Proof.
  intros Hm He Hj V. unfold fmul, round64_signed.
  set (E := e + (j - 52)).
  pose proof (pow2_pos E) as PE. pose proof (pow2_pos (- E)) as PE'.
  assert (P52 : 0 < 2 ^ 52) by (apply Z.pow_pos_nonneg; lia).
  destruct (Z.ltb_spec (m * 2 ^ 52 * pow2 E) 0) as [Hneg|_]; [nia|].
  destruct (Z.eq_dec m 0) as [->|Nm].
  - subst V. unfold units. rewrite !Z.mul_0_l.
    destruct (round64_zero (pow2 (- E)) PE') as (e0 & E0 & B0).
    rewrite E0. split.
    + intros _. exists 0, e0. unfold units. rewrite Z.mul_0_l. intuition lia.
    + intros H. exfalso. assert (0 < overflow_units) by (apply Z.pow_pos_nonneg; lia). lia.
  - apply (round64_exact _ _ V m (e + 1074 + j)); try lia.
    + subst V. unfold units.
      pose proof (pow2_shift E 1126 ltac:(lia)) as X.
      replace (E + 1126) with (e + 1074 + j) in X by (subst E; lia).
      rewrite (pow2_nonneg (e + 1074 + j)),
              (pow2_nonpos (- (e + 1074 + j))) in X by lia.
      replace (2 ^ 1126) with (2 ^ 52 * one_units) in X
        by (unfold one_units; rewrite <- Z.pow_add_r; [reflexivity|discriminate..]).
      rewrite (Z.pow_add_r 2 (e + 1074) j) in X by lia.
      assert (P : 0 < 2 ^ (e + 1074)) by (apply Z.pow_pos_nonneg; lia).
      assert (Q : 0 < 2 ^ j) by (apply Z.pow_pos_nonneg; lia).
      nia.
    + subst V. unfold units. rewrite (Z.pow_add_r 2 (e + 1074) j) by lia. ring.
Qed.

(** The quotient of two integers of which the second divides the first is
    a whole number, and the quotient itself when that has at most 53
    bits. *)
Lemma round64_integer (k d : Z) :
  0 < k -> 0 < d ->
  round64 (k * d) d = PosInf \/
  exists m e K,
    round64 (k * d) d = Fin m e /\ units m e = K * one_units /\
    -1074 <= e /\ 0 < K /\ (k < 2 ^ 53 -> K = k).
Proof.
  intros Hk Hd.
  destruct (round64_units (k * d) d ltac:(nia) Hd) as (e & He & Pos & E).
  rewrite E; clear E. cbv zeta.
  set (s := e + 1074) in *.
  assert (P : 0 < 2 ^ s) by (apply Z.pow_pos_nonneg; lia).
  assert (PC : 0 < one_units) by (apply Z.pow_pos_nonneg; lia).
  rewrite (rnd_half_even_cross (k * d * one_units) (d * 2 ^ s)
             (k * one_units) (2 ^ s)) by nia.
  set (m := rnd_half_even (k * one_units) (2 ^ s)).
  assert (Hm : 0 < m).
  { destruct Pos as [[E0 _]|(Hs & Hge & _)].
    - subst m. rewrite E0. change (2 ^ 0) with 1.
      replace (k * one_units) with (k * one_units * 1) by ring.
      rewrite rnd_half_even_exact by lia. nia.
    - assert (2 ^ 52 <= m); [|lia].
      apply rnd_half_even_ge; [lia|].
      rewrite Z.pow_add_r in Hge by lia. nia. }
  assert (Core : exists K, m * 2 ^ s = K * one_units /\ 0 < K /\
                           (k < 2 ^ 53 -> K = k)).
  { destruct (Z.le_gt_cases s 1074) as [Hs|Hs].
    - assert (Q : one_units = 2 ^ (1074 - s) * 2 ^ s).
      { unfold one_units. rewrite <- Z.pow_add_r by lia. f_equal. lia. }
      exists k. subst m. rewrite Q at 1.
      rewrite Z.mul_assoc, rnd_half_even_exact by lia.
      split; [rewrite Q; ring|]. split; [lia|reflexivity].
    - assert (Q : 2 ^ s = 2 ^ (s - 1074) * one_units).
      { unfold one_units. rewrite <- Z.pow_add_r by lia. f_equal. lia. }
      assert (PQ : 0 < 2 ^ (s - 1074)) by (apply Z.pow_pos_nonneg; lia).
      exists (m * 2 ^ (s - 1074)). split; [rewrite Q; ring|]. split; [nia|].
      intros Hk53. exfalso.
      destruct Pos as [[E0 _]|(_ & Hge & _)]; [lia|].
      assert (Q2 : 2 ^ (s + 52) = 2 ^ (s - 1074) * 2 ^ 52 * one_units).
      { unfold one_units. rewrite <- !Z.pow_add_r by lia. f_equal. lia. }
      rewrite Q2 in Hge.
      assert (P52 : 0 < 2 ^ 52) by (apply Z.pow_pos_nonneg; lia).
      change (2 ^ 53) with (2 * 2 ^ 52) in Hk53.
      assert (G : 2 <= 2 ^ (s - 1074)).
      { change 2 with (2 ^ 1) at 1. apply Z.pow_le_mono_r; lia. }
      assert (Hc : 2 ^ (s - 1074) * 2 ^ 52 * (d * one_units)
                   <= k * (d * one_units)) by lia.
      apply Z.mul_le_mono_pos_r in Hc; [|nia]. nia. }
  destruct Core as (K & EK & HK & Hsmall).
  destruct (Z.eqb_spec m (2 ^ 53)) as [Em|Nm].
  - destruct (Z.ltb_spec 971 (e + 1)); [left; reflexivity|right].
    exists (2 ^ 52), (e + 1), K. split; [reflexivity|].
    split; [|split; [lia|split; assumption]].
    unfold units. replace (e + 1 + 1074) with (s + 1) by (subst s; lia).
    rewrite Z.pow_add_r by lia. rewrite <- EK, Em.
    change (2 ^ 53) with (2 ^ 52 * 2 ^ 1). ring.
  - destruct (Z.ltb_spec 971 e); [left; reflexivity|right].
    exists m, e, K. split; [reflexivity|].
    split; [exact EK|split; [lia|split; assumption]].
Qed.

(** * [float()] on a number of the grammar *)

Lemma digit_facts (c : char) :
  isdecimal c = true ->
  lower_char c = c /\ upper_char c = String c "" /\ isspace c = false /\
  Char.eqb c "-" = false /\ Char.eqb c "+" = false /\
  Char.eqb c "_" = false /\ Char.eqb c "." = false /\
  c <> "i"%char /\ c <> "n"%char /\ 0 <= digit_value c <= 9.
Proof.
  intros H.
  apply (digits_all
           (fun c => (lower_char c =? c) &&
                     String.eqb (upper_char c) (String c "") &&
                     negb (isspace c) &&
                     negb (Char.eqb c "-") && negb (Char.eqb c "+") &&
                     negb (Char.eqb c "_") && negb (Char.eqb c ".") &&
                     negb (Char.eqb c "i") && negb (Char.eqb c "n") &&
                     (0 <=? digit_value c) && (digit_value c <=? 9))) in H;
    [|vm_compute; reflexivity].
  repeat (apply andb_true_iff in H as [H ?]).
  repeat match goal with
         | H : negb _ = true |- _ => apply negb_true_iff in H
         end.
  unfold Char.eqb in *.
  repeat split; try assumption; try (apply Z.eqb_neq; assumption);
    try (apply Z.leb_le; assumption).
  - now apply Z.eqb_eq.
  - now apply string_eqb_eq.
Qed.

(** The digit below 127 that [float()] puts for a decimal digit is the
    digit itself when it is below 127. *)
Lemma digit_ascii (c : char) :
  isdecimal c = true ->
  ((code c <? 127) = true -> digit_char (digit_value c) = c) /\
  isdecimal (digit_char (digit_value c)) = true /\
  digit_value (digit_char (digit_value c)) = digit_value c /\
  (code (digit_char (digit_value c)) <? 127) = true.
Proof.
  intros H.
  apply (digits_all
           (fun c => (if code c <? 127
                      then digit_char (digit_value c) =? c else true) &&
                     isdecimal (digit_char (digit_value c)) &&
                     (digit_value (digit_char (digit_value c)) =? digit_value c) &&
                     (code (digit_char (digit_value c)) <? 127))) in H;
    [|vm_compute; reflexivity].
  repeat (apply andb_true_iff in H as [H ?]).
  repeat split; try assumption.
  - intros E. rewrite E in H. now apply Z.eqb_eq.
  - now apply Z.eqb_eq.
Qed.

Lemma strip_id (s : string) :
  forall_chars (fun c => negb (isspace c)) s = true -> strip s = s.
Proof.
  intros H. unfold strip. rewrite lstrip_by_id.
  - now apply rstrip_by_none.
  - destruct s as [|c t]; simpl in *; [reflexivity|].
    now apply andb_true_iff in H as [H _].
Qed.

Lemma strip_underscores_id (s : string) : forall prev,
  Char.eqb prev "_" = false ->
  forall_chars (fun c => negb (Char.eqb c "_")) s = true ->
  strip_underscores prev s = Some s.
Proof.
  induction s as [|c t IH]; simpl; intros prev Hp H.
  - now rewrite Hp.
  - apply andb_true_iff in H as [Hc Ht]. apply negb_true_iff in Hc.
    rewrite Hc, Hp. simpl. now rewrite (IH c Hc Ht).
Qed.

Lemma literal_chars (ip fp : string) (p : char -> bool) :
  (forall c, isdecimal c = true -> p c = true) -> p "."%char = true ->
  forall_chars isdecimal ip = true -> forall_chars isdecimal fp = true ->
  forall_chars p (decimal_literal ip fp) = true.
Proof.
  intros Hd Hdot Hip Hfp. unfold decimal_literal.
  destruct (is_empty fp).
  - now apply (forall_chars_impl isdecimal).
  - rewrite forall_chars_append. simpl. rewrite Hdot.
    rewrite !(forall_chars_impl isdecimal p) by assumption. reflexivity.
Qed.

Lemma digits_value_from_nonneg (s : string) : forall acc,
  0 <= acc -> forall_chars isdecimal s = true -> 0 <= digits_value_from acc s.
Proof.
  induction s as [|c t IH]; cbn [digits_value_from forall_chars];
    intros acc Ha H; [assumption|].
  apply andb_true_iff in H as [Hc Ht].
  apply IH; [|assumption].
  destruct (digit_facts c Hc) as (_ & _ & _ & _ & _ & _ & _ & _ & _ & Hv). lia.
Qed.

Lemma round64_signed_nonneg (n d : Z) :
  0 <= n -> round64_signed n d = round64 n d.
Proof.
  intros H. unfold round64_signed. destruct (Z.ltb_spec n 0); [lia|reflexivity].
Qed.

Lemma ascii_space_isspace (c : char) :
  ascii_space c = true -> isspace c = true.
Proof.
  unfold ascii_space, isspace.
  rewrite !orb_true_iff, !andb_true_iff, !Z.leb_le, !Z.eqb_eq. lia.
Qed.

Lemma ascii_strip_id (s : string) :
  forall_chars (fun c => negb (isspace c)) s = true -> ascii_strip s = s.
Proof.
  intros H.
  assert (H' : forall_chars (fun c => negb (ascii_space c)) s = true).
  { revert H. apply forall_chars_impl. intros c Hc.
    apply negb_true_iff in Hc. apply negb_true_iff.
    destruct (ascii_space c) eqn:E; [|reflexivity].
    apply ascii_space_isspace in E. congruence. }
  unfold ascii_strip. rewrite lstrip_by_id.
  - now apply rstrip_by_none.
  - destruct s as [|c t]; simpl in *; [reflexivity|].
    now apply andb_true_iff in H' as [H' _].
Qed.

(** The magnitude a literal [ip.fp] denotes is the fraction
    [digits_value (ip ++ fp) / 10 ^ |fp|]; [float()] rounds it once. *)
Lemma float_of_ascii_literal (ip fp : string) :
  ip <> "" -> forall_chars isdecimal ip = true -> forall_chars isdecimal fp = true ->
  float_of_ascii (decimal_literal ip fp) =
  Ok (round64 (digits_value (ip ++ fp)) (10 ^ Z.of_nat (String.length fp))).
Proof.
  intros Hne Hip Hfp. unfold float_of_ascii.
  rewrite ascii_strip_id.
  2:{ apply literal_chars; auto.
      intros c Hc. now rewrite (proj1 (proj2 (proj2 (digit_facts c Hc)))). }
  rewrite strip_underscores_id; [|reflexivity|].
  2:{ apply literal_chars; auto. intros c Hc.
      destruct (digit_facts c Hc) as (_ & _ & _ & _ & _ & -> & _). reflexivity. }
  assert (Hv : exists c t, decimal_literal ip fp = String c t /\ isdecimal c = true).
  { unfold decimal_literal. destruct ip as [|c t]; [contradiction|].
    simpl in Hip. apply andb_true_iff in Hip as [Hc _].
    destruct (is_empty fp); simpl; eauto. }
  destruct Hv as (c & t & Ev & Hc).
  destruct (digit_facts c Hc) as (Hl & _ & _ & Hm & Hp & _ & _ & Hi & Hn & _).
  assert (Hs : split_sign (decimal_literal ip fp) = (false, decimal_literal ip fp)).
  { rewrite Ev. simpl. now rewrite Hm, Hp. }
  rewrite Hs.
  assert (Hw : forall w, (forall r, w <> String c r) ->
                         String.eqb (lower (decimal_literal ip fp)) w = false).
  { intros w Hw. apply string_eqb_neq. rewrite Ev. simpl. rewrite Hl. apply not_eq_sym, Hw. }
  rewrite !Hw by (intros r E; inversion E; congruence). simpl orb. cbv iota.
  assert (Hspan : span isdecimal (decimal_literal ip fp)
                  = (ip, if is_empty fp then "" else String "." fp)).
  { unfold decimal_literal. destruct (is_empty fp).
    - rewrite <- (append_nil_r ip) at 1. now apply span_append.
    - now apply span_append. }
  rewrite Hspan.
  assert (Hfrac : split_fraction (if is_empty fp then "" else String "." fp)
                  = (fp, "")).
  { destruct fp as [|f fs]; [reflexivity|]. simpl is_empty. cbv iota.
    unfold split_fraction. change (Char.eqb "." ".") with true. cbv iota.
    rewrite <- (append_nil_r (String f fs)) at 1. now apply span_append. }
  rewrite Hfrac.
  destruct ip as [|i0 ir]; [contradiction|]. simpl is_empty. simpl andb. cbv iota.
  simpl exponent_part. cbv iota.
  assert (HD : 0 <= digits_value (String i0 ir ++ fp)).
  { apply digits_value_from_nonneg; [lia|].
    rewrite forall_chars_append, Hip, Hfp. reflexivity. }
  unfold round_decimal. f_equal.
  destruct (Z.ltb_spec (0 - Z.of_nat (String.length fp)) 0) as [Hk|Hk].
  - rewrite round64_signed_nonneg by assumption. f_equal. f_equal. lia.
  - replace (Z.of_nat (String.length fp)) with 0 by lia.
    change (0 - 0) with 0. change (10 ^ 0) with 1.
    rewrite Z.mul_1_r. now apply round64_signed_nonneg.
Qed.

Lemma ascii_digits_facts (s : string) :
  forall_chars isdecimal s = true ->
  forall_chars isdecimal (ascii_digits s) = true /\
  String.length (ascii_digits s) = String.length s /\
  (forall acc, digits_value_from acc (ascii_digits s) = digits_value_from acc s) /\
  (forall rest, transform (s ++ rest) = ascii_digits s ++ transform rest).
Proof.
  induction s as [|c t IH]; intros H.
  - repeat split; reflexivity.
  - cbn [forall_chars] in H. apply andb_true_iff in H as [Hc Ht].
    destruct (IH Ht) as (I1 & I2 & I3 & I4).
    destruct (digit_ascii c Hc) as (D1 & D2 & D3 & D4).
    destruct (digit_facts c Hc) as (_ & _ & Hs & _).
    cbn [ascii_digits forall_chars String.length digits_value_from].
    rewrite D2, I1, I2, D3. repeat split; try reflexivity.
    + intros acc. apply I3.
    + intros rest. cbn [String.append transform]. rewrite I4, Hs, Hc.
      destruct (code c <? 127) eqn:E; [|reflexivity].
      now rewrite (D1 eq_refl).
Qed.

Lemma ascii_digits_append (a b : string) :
  ascii_digits (a ++ b) = ascii_digits a ++ ascii_digits b.
Proof. induction a as [|c t IH]; simpl; [reflexivity|now rewrite IH]. Qed.

Lemma float_of_string_literal (ip fp : string) :
  ip <> "" -> forall_chars isdecimal ip = true -> forall_chars isdecimal fp = true ->
  float_of_string (decimal_literal ip fp) =
  Ok (round64 (digits_value (ip ++ fp)) (10 ^ Z.of_nat (String.length fp))).
Proof.
  intros Hne Hip Hfp. unfold float_of_string, to_ascii.
  destruct (is_ascii (decimal_literal ip fp));
    [now apply float_of_ascii_literal|].
  destruct (ascii_digits_facts ip Hip) as (Ai & _ & _ & Ti).
  destruct (ascii_digits_facts fp Hfp) as (Af & Lf & _ & Tf).
  assert (E : transform (decimal_literal ip fp)
              = decimal_literal (ascii_digits ip) (ascii_digits fp)).
  { unfold decimal_literal. destruct fp as [|f fs].
    - simpl. rewrite <- (append_nil_r ip) at 1. rewrite Ti. simpl.
      apply append_nil_r.
    - cbn [is_empty ascii_digits]. rewrite Ti. f_equal.
      change (transform (String "." (String f fs)))
        with (String "." (transform (String f fs))).
      rewrite <- (append_nil_r (String f fs)) at 1. rewrite Tf. simpl.
      now rewrite append_nil_r. }
  rewrite E, float_of_ascii_literal; try assumption.
  - rewrite Lf. do 2 f_equal. unfold digits_value.
    rewrite <- ascii_digits_append.
    assert (Hall : forall_chars isdecimal (ip ++ fp) = true)
      by (rewrite forall_chars_append, Hip, Hfp; reflexivity).
    now destruct (ascii_digits_facts (ip ++ fp) Hall) as (_ & _ & -> & _).
  - destruct ip; [contradiction|discriminate].
Qed.

(** * The normalised input *)

Lemma rstrip_by_append (p : char -> bool) (a b : string) :
  rstrip_by p (a ++ b) =
  if is_empty (rstrip_by p b) then rstrip_by p a else a ++ rstrip_by p b.
Proof.
  induction a as [|c t IH]; cbn [String.append rstrip_by].
  - destruct (rstrip_by p b); reflexivity.
  - rewrite IH. destruct (rstrip_by p b) as [|x r]; cbn [is_empty].
    + reflexivity.
    + destruct t; reflexivity.
Qed.

Lemma upper_append (a b : string) : upper (a ++ b) = upper a ++ upper b.
Proof.
  induction a as [|c t IH]; simpl; [reflexivity|].
  now rewrite IH, append_assoc.
Qed.

Lemma is_empty_append (a b : string) :
  is_empty (a ++ b) = is_empty a && is_empty b.
Proof. destruct a; reflexivity. Qed.

Lemma is_empty_upper (s : string) : is_empty (upper s) = is_empty s.
Proof.
  destruct s as [|c t]; simpl; [reflexivity|].
  now rewrite is_empty_append, upper_char_nonempty.
Qed.


(** A string of letters that are their own upper case is its own upper
    case. *)
Lemma upper_fixed (s : string) :
  forall_chars (fun d => String.eqb (upper_char d) (String d "")) s = true ->
  upper s = s.
Proof.
  induction s as [|c t IH]; simpl; [reflexivity|]. intros H.
  apply andb_true_iff in H as [Hc Ht]. apply string_eqb_eq in Hc.
  now rewrite Hc, IH.
Qed.

Lemma upper_idem (s : string) : upper (upper s) = upper s.
Proof.
  induction s as [|c t IH]; simpl; [reflexivity|].
  rewrite upper_append, IH. f_equal. apply upper_fixed, upper_char_fixed.
Qed.

Lemma lstrip_by_first (p : char -> bool) (a b : string) :
  starts_not p a = true -> a <> "" -> lstrip_by p (a ++ b) = a ++ b.
Proof.
  destruct a as [|c t]; [contradiction|]. simpl. intros H _.
  apply negb_true_iff in H. now rewrite H.
Qed.

Lemma strip_upper (s : string) : strip (upper s) = upper (strip s).
Proof.
  unfold strip.
  assert (L : forall t, lstrip_by isspace (upper t) = upper (lstrip_by isspace t)).
  { induction t as [|c t IH]; simpl; [reflexivity|].
    destruct (isspace c) eqn:E.
    - rewrite (upper_char_space c E). simpl. now rewrite E.
    - pose proof (upper_char_not_space c E) as N.
      pose proof (upper_char_nonempty c) as M.
      destruct (upper_char c) as [|d ds] eqn:U; [discriminate M|].
      simpl in N. apply andb_true_iff in N as [Nd _].
      apply negb_true_iff in Nd. simpl. now rewrite Nd, U. }
  assert (R : forall t, rstrip_by isspace (upper t) = upper (rstrip_by isspace t)).
  { induction t as [|c t IH]; cbn [upper rstrip_by]; [reflexivity|].
    rewrite rstrip_by_append, IH, is_empty_upper.
    destruct (is_empty (rstrip_by isspace t)) eqn:Et; cbn [andb].
    - destruct (isspace c) eqn:E.
      + rewrite (upper_char_space c E). simpl. now rewrite E.
      + rewrite (rstrip_by_none _ _ (upper_char_not_space c E)).
        destruct (rstrip_by isspace t); [|discriminate Et].
        simpl. now rewrite append_nil_r.
    - reflexivity. }
  now rewrite L, R.
Qed.

(** What [strip] and [upper] leave does not end with whitespace. *)
Lemma normalised_last (s a : string) (c : char) :
  upper (strip s) = a ++ String c "" -> isspace c = false.
Proof.
  rewrite <- strip_upper. unfold strip. apply rstrip_by_last.
Qed.

(** On a normalised input, [re.match] succeeds on the strings of the
    grammar and on no other, with the number and the unit as groups. *)
Lemma re_match_normalised (s v u : string) :
  re_match (upper (strip s)) = Some (v, u) <->
  grammar_parts (upper (strip s)) v u.
Proof.
  split.
  - intros H. apply re_match_sound in H as (w & tail & E & Lv & Lw & Lu & He).
    unfold at_end in He. apply orb_true_iff in He as [He|He];
      apply string_eqb_eq in He; subst tail.
    + exists w. rewrite append_nil_r in E. auto.
    + exfalso. rewrite <- !append_assoc in E.
      apply normalised_last in E. discriminate E.
  - intros (w & E & Lv & Lw & Lu).
    rewrite E. rewrite <- (append_nil_r u) at 1.
    now apply re_match_complete.
Qed.

Lemma matches_grammar_parts (t : string) :
  matches_grammar t <-> exists v u, grammar_parts t v u.
Proof.
  unfold matches_grammar, grammar_parts. split.
  - intros (v & w & u & H). eauto.
  - intros (v & u & w & H). eauto.
Qed.

Lemma re_match_none_normalised (s : string) :
  re_match (upper (strip s)) = None <-> ~ matches_grammar (upper (strip s)).
Proof.
  rewrite matches_grammar_parts. split.
  - intros H (v & u & G). apply re_match_normalised in G. congruence.
  - intros H. destruct (re_match (upper (strip s))) as [[v u]|] eqn:E; [|reflexivity].
    exfalso. apply H. exists v, u. now apply re_match_normalised.
Qed.

(** * The units *)

Lemma unit_multiplier (u : string) (j : Z) :
  In (u, j) unit_exponents ->
  In u ["B"; "KB"; "MB"; "GB"; "TB"] /\ 0 <= j /\
  dict_get u SIZE_UNITS = Some (2 ^ j) /\
  float_of_int (2 ^ j) = Ok (Fin (2 ^ 52) (j - 52)).
Proof.
  simpl. intros H.
  repeat (destruct H as [H|H];
          [inversion H; subst; split; [simpl; tauto|];
           split; [lia|]; split; vm_compute; reflexivity|]).
  contradiction.
Qed.

Lemma unit_exponent (u : string) :
  In u ["B"; "KB"; "MB"; "GB"; "TB"] -> exists j, In (u, j) unit_exponents.
Proof.
  simpl. intros H.
  repeat (destruct H as [<-|H]; [eexists; simpl; tauto|]).
  contradiction.
Qed.

Lemma round64_cases (n d : Z) :
  round64 n d = PosInf \/ exists m e, round64 n d = Fin m e.
Proof.
  unfold round64.
  match goal with |- context [if ?b then PosInf else _] => destruct b end; eauto.
Qed.

(** * parse_size_to_bytes on the grammar *)

Lemma magnitude_bounds (ip fp : string) (m e : Z) :
  forall_chars isdecimal ip = true -> forall_chars isdecimal fp = true ->
  magnitude ip fp = Fin m e ->
  0 <= m < 2 ^ 53 /\ -1074 <= e <= 971.
Proof.
  intros Hip Hfp H. unfold magnitude in H.
  apply round64_bounds in H; [assumption| |].
  - apply digits_value_from_nonneg; [lia|].
    rewrite forall_chars_append, Hip, Hfp. reflexivity.
  - apply Z.pow_pos_nonneg; lia.
Qed.

(** After the float conversion: negative test, multiplication, limit,
    truncation. *)
Lemma product_of_magnitude (t : string) (x : pyfloat) (j : Z) :
  (x = PosInf \/ exists m e, x = Fin m e /\ 0 <= m < 2 ^ 53 /\ -1074 <= e) ->
  0 <= j -> float_of_int (2 ^ j) = Ok (Fin (2 ^ 52) (j - 52)) ->
  float_lt_int x 0 = false /\
  (bytes_value <- float_mul_int x (2 ^ j) ;;
   if float_gt_int bytes_value size_limit
   then Raise (InvalidSizeFormatError (TooLarge t))
   else int_of_float bytes_value) = truncated_product t x (2 ^ j).
Proof.
  intros Hx Hj Hf. unfold float_mul_int. rewrite Hf. cbn [bind].
  destruct Hx as [->|(m & e & -> & Hm & He)].
  - split; reflexivity.
  - assert (P : 0 < 2 ^ (e + 1074)) by (apply Z.pow_pos_nonneg; lia).
    split.
    + rewrite float_lt_int_units by assumption. unfold units.
      destruct (Z.ltb_spec (m * 2 ^ (e + 1074)) (0 * one_units)); [nia|reflexivity].
    + unfold truncated_product, exceeds_limit, truncated.
      destruct (fmul_scale m e j Hm He Hj) as [Hfin Hinf].
      destruct (Z.lt_ge_cases (units m e * 2 ^ j) (overflow_units)) as [Hlt|Hge].
      * destruct (Hfin Hlt) as (m' & e' & -> & <- & He').
        rewrite float_gt_int_units by assumption.
        destruct (size_limit * one_units <? units m' e'); [reflexivity|].
        now apply int_of_float_units.
      * rewrite (Hinf Hge). cbn [float_gt_int].
        destruct (Z.ltb_spec (size_limit * one_units) (units m e * 2 ^ j));
          [reflexivity|exfalso].
        assert (size_limit * one_units < overflow_units) by (vm_compute; reflexivity).
        lia.
Qed.

Lemma literal_parts_grammar (t ip fp w u : string) (j : Z) :
  literal_parts t ip fp w u j -> grammar_parts t (decimal_literal ip fp) u.
Proof.
  intros (E & Hne & Hip & Hfp & Hw & Hj). exists w.
  split; [assumption|]. split; [|split; [exact Hw|]].
  - apply lang_number_cases. exists ip, fp. auto.
  - apply lang_unit_cases. now apply (unit_multiplier u j).
Qed.

Lemma grammar_literal_parts (t : string) :
  matches_grammar t <-> exists ip fp w u j, literal_parts t ip fp w u j.
Proof.
  split.
  - intros (v & w & u & E & Lv & Lw & Lu).
    apply lang_number_cases in Lv as (ip & fp & -> & Hne & Hip & Hfp).
    apply lang_unit_cases in Lu. destruct (unit_exponent u Lu) as (j & Hj).
    exists ip, fp, w, u, j. repeat split; assumption.
  - intros (ip & fp & w & u & j & H). apply matches_grammar_parts.
    exists (decimal_literal ip fp), u. eapply literal_parts_grammar. exact H.
Qed.

(** [parse] on an input of the grammar: the float nearest to the literal,
    times the multiplier of the unit, exactly, then the limit and the
    truncation. *)
Lemma parse_literal (s ip fp w u : string) (j : Z) :
  literal_parts (upper (strip s)) ip fp w u j ->
  parse s = truncated_product (upper (strip s)) (magnitude ip fp) (2 ^ j).
Proof.
  intros L. pose proof (literal_parts_grammar _ _ _ _ _ _ L) as G.
  destruct L as (E & Hne & Hip & Hfp & Hw & Hj).
  destruct (unit_multiplier u j Hj) as (Hu & Hj0 & Hd & Hf).
  unfold parse, parse_size_to_bytes.
  assert (Hempty : is_empty (upper (strip s)) = false).
  { rewrite E. unfold decimal_literal.
    destruct ip; [contradiction|]. destruct (is_empty fp); reflexivity. }
  rewrite Hempty. apply re_match_normalised in G. rewrite G.
  rewrite float_of_string_literal by assumption. fold (magnitude ip fp).
  assert (Hx : magnitude ip fp = PosInf \/
               exists m e, magnitude ip fp = Fin m e /\
                           0 <= m < 2 ^ 53 /\ -1074 <= e).
  { destruct (round64_cases (digits_value (ip ++ fp))
                (10 ^ Z.of_nat (String.length fp))) as [H|(m & e & H)];
      fold (magnitude ip fp) in H; [left; assumption|right].
    exists m, e. split; [assumption|].
    pose proof (magnitude_bounds ip fp m e Hip Hfp H). lia. }
  destruct (product_of_magnitude (upper (strip s)) _ j Hx Hj0 Hf) as [Hneg Hprod].
  rewrite Hneg, Hd. exact Hprod.
Qed.

(** [parse] outside the grammar. *)
Lemma parse_not_grammar (s : string) :
  ~ matches_grammar (upper (strip s)) ->
  parse s = Raise (InvalidSizeFormatError
                     (if is_empty (upper (strip s)) then CannotBeEmpty
                      else InvalidFormat (upper (strip s)))).
Proof.
  intros H. apply re_match_none_normalised in H.
  unfold parse, parse_size_to_bytes.
  destruct (is_empty (upper (strip s))); [reflexivity|].
  now rewrite H.
Qed.

(** The two ways of [parse] on a string. *)
Lemma parse_cases (s : string) :
  (~ matches_grammar (upper (strip s)) /\
   parse s = Raise (InvalidSizeFormatError
                      (if is_empty (upper (strip s)) then CannotBeEmpty
                       else InvalidFormat (upper (strip s))))) \/
  (exists ip fp w u j,
     literal_parts (upper (strip s)) ip fp w u j /\
     parse s = truncated_product (upper (strip s)) (magnitude ip fp) (2 ^ j)).
Proof.
  destruct (re_match (upper (strip s))) as [[v u]|] eqn:E.
  - right. apply re_match_normalised in E.
    assert (G : matches_grammar (upper (strip s)))
      by (apply matches_grammar_parts; eauto).
    apply grammar_literal_parts in G as (ip & fp & w & u' & j & L).
    exists ip, fp, w, u', j. split; [assumption|]. now apply (parse_literal s ip fp w u' j).
  - left. apply re_match_none_normalised in E. split; [assumption|].
    now apply parse_not_grammar.
Qed.

Lemma truncated_bounds (x : pyfloat) (j : Z) :
  0 <= j -> exceeds_limit x (2 ^ j) = false ->
  (forall m e, x = Fin m e -> 0 <= m /\ -1074 <= e) ->
  0 <= truncated x (2 ^ j) <= size_limit.
Proof.
  intros Hj H Hx. destruct x as [m e| | |]; try discriminate H.
  destruct (Hx m e eq_refl) as [Hm He]. cbn [exceeds_limit truncated] in *.
  apply Z.ltb_ge in H.
  assert (P : 0 < 2 ^ (e + 1074)) by (apply Z.pow_pos_nonneg; lia).
  assert (Q : 0 < 2 ^ j) by (apply Z.pow_pos_nonneg; lia).
  assert (C : 0 < one_units) by (apply Z.pow_pos_nonneg; lia).
  assert (0 <= units m e * 2 ^ j) by (unfold units; nia).
  rewrite Z.quot_div_nonneg by lia. split.
  - apply Z.div_pos; lia.
  - apply Z.div_le_upper_bound; lia.
Qed.

(** [parse] sees its input through [upper (strip _)] only. *)
Lemma parse_normalised (s1 s2 : string) :
  upper (strip s1) = upper (strip s2) -> parse s1 = parse s2.
Proof.
  intros H. unfold parse, parse_size_to_bytes. now rewrite H.
Qed.

Lemma parse_only_invalid_format (v : pyval) :
  (exists n, parse_size_to_bytes v = Ok n) \/
  (exists msg, parse_size_to_bytes v = Raise (InvalidSizeFormatError msg)).
Proof.
  destruct v as [|b|z|x|s|l]; try (right; eexists; reflexivity).
  change (parse_size_to_bytes (PyStr s)) with (parse s).
  destruct (parse_cases s) as [[_ ->]|(ip & fp & w & u & j & _ & ->)].
  - right. eauto.
  - unfold truncated_product. destruct (exceeds_limit _ _); eauto.
Qed.

(** * The claims on parsing *)

(** C2.  On success [parse] returns the magnitude (the float the number
    denotes) multiplied by the multiplier of the unit, the product exact,
    then truncated toward zero; it does not round: "1.5TB" is
    1649267441664, "100kb" is 102400, "1.5 KB" is 1536, "0.0001 KB" is 0
    and "1.9 B" is 1. *)
Theorem parse_truncates_after_multiply :
  (forall s n, parse s = Ok n ->
     exists ip fp w u j m e,
       literal_parts (upper (strip s)) ip fp w u j /\
       dict_get u SIZE_UNITS = Some (2 ^ j) /\
       magnitude ip fp = Fin m e /\
       n = Z.quot (units m e * 2 ^ j) (one_units)) /\
  parse "1.5TB" = Ok 1649267441664 /\
  parse "100kb" = Ok 102400 /\
  parse "1.5 KB" = Ok 1536 /\
  parse "0.0001 KB" = Ok 0 /\
  parse "1.9 B" = Ok 1.
Proof.
  split; [|repeat split; vm_compute; reflexivity].
  intros s n H.
  destruct (parse_cases s) as [[_ E]|(ip & fp & w & u & j & L & E)];
    rewrite E in H; [discriminate|].
  unfold truncated_product in H.
  destruct (exceeds_limit (magnitude ip fp) (2 ^ j)) eqn:X; [discriminate|].
  destruct (magnitude ip fp) as [m e| | |] eqn:M; try discriminate X.
  inversion H; subst n. exists ip, fp, w, u, j, m, e.
  destruct L as (? & ? & ? & ? & ? & Hj).
  destruct (unit_multiplier u j Hj) as (_ & _ & Hd & _).
  repeat split; assumption.
Qed.

Lemma parse_truncates_after_multiply_witness :
  exists ip fp w u j m e,
    literal_parts (upper (strip "1.5 KB")) ip fp w u j /\
    dict_get u SIZE_UNITS = Some (2 ^ j) /\
    magnitude ip fp = Fin m e /\
    1536 = Z.quot (units m e * 2 ^ j) (one_units).
Proof.
  apply (proj1 parse_truncates_after_multiply "1.5 KB" 1536).
  vm_compute. reflexivity.
Defined.




(** Characters above 127 are read as Python reads them: the Arabic-Indic
    digits of ten (U+0661, U+0660) are the number 10, a no-break space
    (U+00A0) between number and unit is whitespace and alone it leaves
    nothing, a unit separator (U+001F) at the end is trimmed, the fullwidth
    letters of a unit (U+FF2B, U+FF22) are not K and B, and the failure on
    "10 gb" followed by e acute (U+00E9) names the text with E acute
    (U+00C9); the ligature fi (U+FB01) becomes the two letters F and I. *)
Example parse_reads_unicode :
  parse (String 1633 (String 1632 " GB")) = Ok 10737418240 /\
  parse (String 49 (String 48 (String 160 "GB"))) = Ok 10737418240 /\
  parse (String 160 (String 160 "")) = Raise (InvalidSizeFormatError CannotBeEmpty) /\
  parse ("1 kb" ++ String 31 "") = Ok 1024 /\
  parse ("10 " ++ String 65323 (String 65314 ""))
    = Raise (InvalidSizeFormatError
               (InvalidFormat ("10 " ++ String 65323 (String 65314 "")))) /\
  parse ("10 gb" ++ String 233 "")
    = Raise (InvalidSizeFormatError (InvalidFormat ("10 GB" ++ String 201 ""))) /\
  parse ("5 " ++ String 64257 "b")
    = Raise (InvalidSizeFormatError (InvalidFormat "5 FIB")).
Proof. repeat split; vm_compute; reflexivity. Qed.

(** C4.  [validate] answers for every input, a string or not, and never
    raises; the answer is true exactly when [parse] succeeds on the same
    input. *)
Theorem validate_reflects_parse (v : pyval) :
  exists b,
    validate_size_string v = Ok b /\
    (b = true <-> exists n, parse_size_to_bytes v = Ok n).
Proof.
  unfold validate_size_string.
  destruct (parse_only_invalid_format v) as [(n & ->)|(msg & ->)].
  - exists true. split; [reflexivity|]. split; eauto.
  - exists false. split; [reflexivity|].
    split; [discriminate|]. intros (n & H). discriminate H.
Qed.



(** C8.  [parse] does not see the case of letters: two inputs with the
    same uppercase form have the same result, byte count or failure, and
    so have an input and its uppercase form; "10 gb", "10 GB" and "10 Gb"
    are all 10 * 1024^3. *)
Theorem parse_case_insensitive :
  (forall s1 s2, upper s1 = upper s2 -> parse s1 = parse s2) /\
  (forall s, parse (upper s) = parse s) /\
  parse "10 gb" = Ok (10 * 1024 ^ 3) /\
  parse "10 GB" = Ok (10 * 1024 ^ 3) /\
  parse "10 Gb" = Ok (10 * 1024 ^ 3).
Proof.
  assert (H : forall s1 s2, upper s1 = upper s2 -> parse s1 = parse s2).
  { intros s1 s2 E. apply parse_normalised.
    rewrite <- !strip_upper. now rewrite E. }
  split; [exact H|]. split; [|repeat split; vm_compute; reflexivity].
  intros s. apply H, upper_idem.
Qed.

Lemma parse_case_insensitive_witness : parse "1.5 tb" = parse "1.5 Tb".
Proof.
  apply (proj1 parse_case_insensitive). reflexivity.
Defined.



(** * Decimal digits *)

Lemma digit_char_facts (d : Z) :
  0 <= d <= 9 ->
  isdecimal (digit_char d) = true /\ digit_value (digit_char d) = d /\
  (d <> 0 -> mem_char (digit_char d) "0" = false).
Proof.
  intros H.
  assert (C : d = 0 \/ d = 1 \/ d = 2 \/ d = 3 \/ d = 4 \/ d = 5 \/ d = 6 \/
              d = 7 \/ d = 8 \/ d = 9) by lia.
  repeat (destruct C as [->|C]; [vm_compute; intuition congruence|]).
  subst. vm_compute. intuition congruence.
Qed.

Lemma decimal_loop_digits (fuel : nat) : forall n acc,
  forall_chars isdecimal acc = true ->
  forall_chars isdecimal (decimal_loop fuel n acc) = true.
Proof.
  induction fuel as [|f IH]; intros n acc H; cbn [decimal_loop]; [assumption|].
  assert (D : forall_chars isdecimal (String (digit_char (n mod 10)) acc) = true).
  { cbn [forall_chars]. rewrite H.
    destruct (digit_char_facts (n mod 10)) as (-> & _).
    - pose proof (Z.mod_pos_bound n 10). lia.
    - reflexivity. }
  destruct (n <? 10); [exact D|]. now apply IH.
Qed.

Lemma decimal_loop_nonempty (fuel : nat) : forall n acc,
  acc <> "" -> decimal_loop fuel n acc <> "".
Proof.
  induction fuel as [|f IH]; intros n acc H; cbn [decimal_loop]; [assumption|].
  destruct (n <? 10); [discriminate|]. apply IH. discriminate.
Qed.

Lemma decimal_digits (n : Z) :
  forall_chars isdecimal (decimal n) = true /\ decimal n <> "".
Proof.
  unfold decimal. split.
  - now apply decimal_loop_digits.
  - cbn [decimal_loop]. destruct (n <? 10); [discriminate|].
    apply decimal_loop_nonempty. discriminate.
Qed.

Lemma decimal_loop_value (fuel : nat) : forall n acc a0,
  0 <= n < 10 ^ Z.of_nat fuel -> (1 <= fuel)%nat ->
  exists p,
    digits_value_from a0 (decimal_loop fuel n acc)
    = digits_value_from (a0 * p + n) acc.
Proof.
  induction fuel as [|f IH]; intros n acc a0 Hn Hf; [lia|].
  cbn [decimal_loop].
  pose proof (Z.mod_pos_bound n 10 ltac:(lia)) as Hm.
  destruct (digit_char_facts (n mod 10) ltac:(lia)) as (_ & Hv & _).
  destruct (Z.ltb_spec n 10) as [Hs|Hs].
  - exists 10. cbn [digits_value_from]. rewrite Hv.
    rewrite Z.mod_small by lia. f_equal. ring.
  - assert (Hf' : (1 <= f)%nat).
    { destruct f; [|lia]. change (10 ^ Z.of_nat 1) with 10 in Hn. lia. }
    assert (Hq : 0 <= n / 10 < 10 ^ Z.of_nat f).
    { split; [apply Z.div_pos; lia|].
      apply Z.div_lt_upper_bound; [lia|].
      rewrite Nat2Z.inj_succ, Z.pow_succ_r in Hn by lia. lia. }
    destruct (IH (n / 10) (String (digit_char (n mod 10)) acc) a0 Hq Hf')
      as (p & E).
    exists (10 * p). rewrite E. cbn [digits_value_from]. rewrite Hv. f_equal.
    pose proof (Z.div_mod n 10 ltac:(lia)). lia.
Qed.

(** Reading back the digits of [n] gives [n]. *)
Lemma decimal_value (n : Z) : 0 <= n -> digits_value (decimal n) = n.
Proof.
  intros Hn. unfold digits_value, decimal.
  destruct (decimal_loop_value (S (Z.to_nat (Z.log2 n))) n "" 0) as (p & E).
  - split; [assumption|].
    rewrite Nat2Z.inj_succ, Z2Nat.id by apply Z.log2_nonneg.
    destruct (Z.eq_dec n 0) as [->|Nn]; [reflexivity|].
    destruct (Z.log2_spec n ltac:(lia)) as [_ Hi].
    eapply Z.lt_le_trans; [exact Hi|].
    apply Z.pow_le_mono_l. pose proof (Z.log2_nonneg n). lia.
  - lia.
  - rewrite E. reflexivity.
Qed.

Lemma decimal_small (d : Z) :
  0 <= d <= 9 -> decimal d = String (digit_char d) "".
Proof.
  intros H. unfold decimal. cbn [decimal_loop].
  destruct (Z.ltb_spec d 10); [|lia]. now rewrite Z.mod_small by lia.
Qed.

Lemma digits_value_from_append (a b : string) : forall acc,
  digits_value_from acc (a ++ b) = digits_value_from (digits_value_from acc a) b.
Proof.
  induction a as [|c t IH]; intros acc; cbn [String.append digits_value_from];
    [reflexivity|apply IH].
Qed.

(** * Trailing zeros *)

Lemma rstrip_by_digits (chars : string) (s : string) :
  forall_chars isdecimal s = true ->
  forall_chars isdecimal (rstrip chars s) = true.
Proof.
  unfold rstrip. induction s as [|c t IH]; cbn [rstrip_by forall_chars];
    [reflexivity|].
  intros H. apply andb_true_iff in H as [Hc Ht].
  destruct (is_empty _ && _); [reflexivity|].
  cbn [forall_chars]. now rewrite Hc, IH.
Qed.

Lemma rstrip_dot_digits (s : string) :
  forall_chars isdecimal s = true -> rstrip "." s = s.
Proof.
  intros H. apply rstrip_by_none.
  apply (forall_chars_impl isdecimal); [|assumption].
  intros c Hc. cbn [mem_char].
  destruct (digit_facts c Hc) as (_ & _ & _ & _ & _ & _ & -> & _). reflexivity.
Qed.

(** What the two [rstrip] calls of the module do to a number written with
    a fraction. *)
Lemma rstrip_fraction (ip fp : string) :
  forall_chars isdecimal ip = true -> forall_chars isdecimal fp = true ->
  rstrip "." (rstrip "0" (ip ++ String "." fp)) = trim_fraction ip fp.
Proof.
  intros Hip Hfp. unfold trim_fraction.
  pose proof (rstrip_by_digits "0" fp Hfp) as Hfp'.
  assert (E0 : rstrip "0" (ip ++ String "." fp) = ip ++ String "." (rstrip "0" fp)).
  { unfold rstrip at 1. rewrite rstrip_by_append. cbn [rstrip_by].
    fold (rstrip "0" fp).
    change (mem_char "." "0") with false. rewrite andb_false_r. reflexivity. }
  rewrite E0. unfold rstrip at 1. rewrite rstrip_by_append. cbn [rstrip_by].
  fold (rstrip "." (rstrip "0" fp)) (rstrip "." ip).
  rewrite !rstrip_dot_digits by assumption.
  change (mem_char "." ".") with true. rewrite andb_true_r.
  destruct (rstrip "0" fp); reflexivity.
Qed.

Lemma repeat_char_all (c : char) (p : char -> bool) (n : nat) :
  p c = true -> forall_chars p (repeat_char c n) = true.
Proof.
  intros H. induction n as [|k IH]; cbn [repeat_char forall_chars];
    [reflexivity|]. now rewrite H, IH.
Qed.

Lemma rstrip_by_all (p : char -> bool) (s : string) :
  forall_chars p s = true -> rstrip_by p s = "".
Proof.
  induction s as [|c t IH]; cbn [rstrip_by forall_chars]; [reflexivity|].
  intros H. apply andb_true_iff in H as [Hc Ht]. now rewrite (IH Ht), Hc.
Qed.

(** * Formatting *)

Lemma fixed_point_fraction (r dp : Z) :
  1 <= dp ->
  exists fp,
    fixed_point r dp = decimal (r / 10 ^ dp) ++ String "." fp /\
    forall_chars isdecimal fp = true /\
    (r mod 10 ^ dp = 0 -> rstrip "0" fp = "") /\
    (dp = 1 -> fp = String (digit_char (r mod 10)) "").
Proof.
  intros Hdp. unfold fixed_point.
  destruct (Z.eqb_spec dp 0) as [|_]; [lia|].
  eexists. split; [reflexivity|]. split; [|split].
  - rewrite forall_chars_append, repeat_char_all by reflexivity.
    apply decimal_digits.
  - intros ->. apply rstrip_by_all.
    rewrite forall_chars_append, repeat_char_all by reflexivity. reflexivity.
  - intros ->. change (10 ^ 1) with 10.
    rewrite decimal_small by (pose proof (Z.mod_pos_bound r 10); lia).
    reflexivity.
Qed.

Lemma int_truediv_pos (b d : Z) :
  0 < b -> 0 < d ->
  int_truediv b d =
  match round64 b d with
  | Fin m e => Ok (Fin m e)
  | _ => Raise OverflowError
  end.
Proof.
  intros Hb Hd. unfold int_truediv.
  destruct (Z.eqb_spec d 0) as [|_]; [lia|].
  rewrite Z.sgn_pos, Z.abs_eq, Z.mul_1_l by lia.
  now rewrite round64_signed_nonneg by lia.
Qed.

Lemma format_f_pos (m e dp : Z) :
  0 < m -> -1074 <= e -> 0 <= dp < 2 ^ 31 ->
  format_f (Fin m e) dp
  = Ok (fixed_point (rnd_half_even (units m e * 10 ^ dp) (one_units)) dp).
Proof.
  intros Hm He Hdp. unfold format_f.
  destruct (Z.ltb_spec dp 0) as [|_]; [lia|].
  destruct (Z.leb_spec (2 ^ 31) dp) as [|_]; [lia|]. cbn [orb].
  destruct (Z.ltb_spec m 0) as [|_]; [lia|].
  rewrite format_f_units by assumption.
  assert (P : 0 < 2 ^ (e + 1074)) by (apply Z.pow_pos_nonneg; lia).
  rewrite (Z.abs_eq (units m e)) by (unfold units; nia). reflexivity.
Qed.

Lemma units_pos_significand (m e : Z) : -1074 <= e -> 0 < units m e -> 0 < m.
Proof.
  intros He H. unfold units in H.
  assert (P : 0 < 2 ^ (e + 1074)) by (apply Z.pow_pos_nonneg; lia). nia.
Qed.

(** A byte count of at most 53 bits, in a unit: the quotient is exact, and
    what is displayed is the quotient rounded to [dp] digits, trimmed. *)
Lemma format_with_small (u : string) (j b dp : Z) :
  0 < b < 2 ^ 53 -> 0 <= j <= 1074 -> 0 <= dp < 2 ^ 31 ->
  format_with u (2 ^ j) b dp
  = Ok (rstrip "." (rstrip "0"
          (fixed_point (rnd_half_even (b * 10 ^ dp) (2 ^ j)) dp)) ++ " " ++ u).
Proof.
  intros Hb Hj Hdp. unfold format_with.
  assert (PJ : 0 < 2 ^ j) by (apply Z.pow_pos_nonneg; lia).
  assert (PS : 0 < 2 ^ (1074 - j)) by (apply Z.pow_pos_nonneg; lia).
  assert (PC : one_units = 2 ^ (1074 - j) * 2 ^ j).
  { unfold one_units. rewrite <- Z.pow_add_r by lia. f_equal. lia. }
  rewrite int_truediv_pos by lia.
  destruct (round64_exact b (2 ^ j) (b * 2 ^ (1074 - j)) b (1074 - j))
    as [Hfin _]; try lia; try (rewrite PC; ring).
  destruct Hfin as (m & e & -> & Hu & He).
  { assert (2 ^ (1074 - j) <= one_units) by (apply Z.pow_le_mono_r; lia).
    assert (2 ^ 53 * one_units < overflow_units) by (vm_compute; reflexivity).
    assert (b * 2 ^ (1074 - j) < 2 ^ 53 * one_units); [|lia].
    apply Z.le_lt_trans with (b * one_units); [nia|].
    apply Z.mul_lt_mono_pos_r; [apply Z.pow_pos_nonneg|]; lia. }
  cbn [bind].
  rewrite format_f_pos; try assumption.
  2:{ apply (units_pos_significand m e He). rewrite Hu. nia. }
  cbn [bind]. rewrite Hu.
  rewrite (rnd_half_even_cross (b * 2 ^ (1074 - j) * 10 ^ dp) (one_units)
             (b * 10 ^ dp) (2 ^ j)); [reflexivity|lia|lia|].
  rewrite PC. ring.
Qed.

(** A byte count that is a multiple of the multiplier: a whole number is
    displayed, without a decimal point. *)
Lemma format_with_multiple (u : string) (d k dp : Z) :
  0 < k -> 0 < d -> 0 <= dp < 2 ^ 31 ->
  format_with u d (k * d) dp = Raise OverflowError \/
  exists K,
    format_with u d (k * d) dp
    = Ok ((if dp =? 0 then rstrip "0" (decimal K) else decimal K) ++ " " ++ u) /\
    0 < K /\ (k < 2 ^ 53 -> K = k).
Proof.
  intros Hk Hd Hdp. unfold format_with.
  rewrite int_truediv_pos by nia.
  destruct (round64_integer k d Hk Hd) as [->|(m & e & K & -> & Hu & He & HK & Hs)];
    [left; reflexivity|right].
  exists K. split; [|split; assumption].
  assert (PC : 0 < one_units) by (apply Z.pow_pos_nonneg; lia).
  assert (PD : 0 < 10 ^ dp) by (apply Z.pow_pos_nonneg; lia).
  cbn [bind]. rewrite format_f_pos; try assumption.
  2:{ apply (units_pos_significand m e He). rewrite Hu. nia. }
  cbn [bind]. rewrite Hu.
  replace (K * one_units * 10 ^ dp) with (K * 10 ^ dp * one_units) by ring.
  rewrite rnd_half_even_exact by lia.
  destruct (decimal_digits K) as [DK _].
  destruct (Z.eqb_spec dp 0) as [->|Ndp].
  - unfold fixed_point. change (10 ^ 0) with 1. change (0 =? 0) with true.
    cbv iota. rewrite Z.mul_1_r, Z.div_1_r, append_nil_r.
    rewrite rstrip_dot_digits by now apply rstrip_by_digits. reflexivity.
  - destruct (fixed_point_fraction (K * 10 ^ dp) dp ltac:(lia))
      as (fp & -> & Hfp & Hz & _).
    rewrite Z.div_mul in * by lia.
    rewrite rstrip_fraction by assumption.
    unfold trim_fraction. rewrite Hz by (apply Z.mod_mul; lia). reflexivity.
Qed.

(** The loop leaves the function at the first unit, from the largest,
    whose multiplier is at most the byte count. *)
Lemma unit_loop_select (b dp : Z) :
  unit_loop UNIT_ORDER b dp
  = option_map (fun p => format_with (fst p) (snd p) b dp) (select_unit b).
Proof.
  unfold select_unit, units_descending, UNIT_ORDER.
  cbn [unit_loop find snd fst].
  change (dict_item "TB" SIZE_UNITS) with (@Ok Z (1024 ^ 4)).
  change (dict_item "GB" SIZE_UNITS) with (@Ok Z (1024 ^ 3)).
  change (dict_item "MB" SIZE_UNITS) with (@Ok Z (1024 ^ 2)).
  change (dict_item "KB" SIZE_UNITS) with (@Ok Z 1024).
  change (dict_item "B" SIZE_UNITS) with (@Ok Z 1).
  cbv iota beta.
  repeat match goal with
         | |- context [?a <=? b] => destruct (a <=? b); [reflexivity|]
         end.
  reflexivity.
Qed.

Lemma select_unit_some (b : Z) :
  1 <= b ->
  exists u j,
    select_unit b = Some (u, 2 ^ j) /\ In (u, j) unit_exponents /\
    2 ^ j <= b /\ (j < 40 -> b < 2 ^ (j + 10)).
Proof.
  intros Hb. unfold select_unit, units_descending. cbn [find snd].
  change (1024 ^ 4) with (2 ^ 40). change (1024 ^ 3) with (2 ^ 30).
  change (1024 ^ 2) with (2 ^ 20). change 1024 with (2 ^ 10).
  destruct (Z.leb_spec (2 ^ 40) b);
    [exists "TB", 40; simpl In; intuition lia|].
  destruct (Z.leb_spec (2 ^ 30) b);
    [exists "GB", 30; simpl In; intuition lia|].
  destruct (Z.leb_spec (2 ^ 20) b);
    [exists "MB", 20; simpl In; intuition lia|].
  destruct (Z.leb_spec (2 ^ 10) b);
    [exists "KB", 10; simpl In; intuition lia|].
  destruct (Z.leb_spec 1 b); [|lia].
  exists "B", 0. change (2 ^ 0) with 1. change (2 ^ (0 + 10)) with (2 ^ 10).
  simpl In. intuition lia.
Qed.

(** * bytes_to_human_readable after the conversion to an integer *)

Lemma bytes_to_human_readable_count (v : pyval) (dp b : Z) :
  byte_count_of v = Some b ->
  bytes_to_human_readable v dp =
  if b =? 0 then Ok "0 B"
  else match unit_loop UNIT_ORDER b dp with
       | Some r => r
       | None => Ok (str_of_int b ++ " B")
       end.
Proof.
  unfold byte_count_of, bytes_to_human_readable.
  destruct v as [|c|z|x|s|l]; try discriminate.
  - intros H. inversion H. reflexivity.
  - destruct (z <? 0); [discriminate|]. intros H. inversion H. reflexivity.
  - destruct (float_lt_int x 0); [discriminate|].
    destruct (int_of_float x) as [z|e]; [|discriminate].
    intros H. inversion H. reflexivity.
Qed.

Lemma byte_count_of_nonneg (v : pyval) (b : Z) :
  byte_count_of v = Some b -> 0 <= b.
Proof.
  unfold byte_count_of. destruct v as [|c|z|x|s|l]; try discriminate.
  - intros Hq. inversion Hq. destruct c; lia.
  - destruct (Z.ltb_spec z 0); [discriminate|]. intros Hq. inversion Hq. lia.
  - destruct x as [m e| | |]; cbn [float_lt_int int_of_float];
      try discriminate.
    destruct (Z.ltb_spec (m * pow2 e) (0 * pow2 (- e))); [discriminate|].
    intros Hq. inversion Hq. apply Z.quot_pos; [lia|].
    pose proof (pow2_pos (- e)). lia.
Qed.

Lemma bytes_to_human_readable_unit (v : pyval) (dp b : Z) (u : string) (U : Z) :
  byte_count_of v = Some b -> b <> 0 -> select_unit b = Some (u, U) ->
  bytes_to_human_readable v dp = format_with u U b dp.
Proof.
  intros Hv Hb Hs. rewrite (bytes_to_human_readable_count v dp b Hv).
  destruct (Z.eqb_spec b 0); [contradiction|].
  rewrite unit_loop_select, Hs. reflexivity.
Qed.

(** * The claims on formatting *)

(** C7.  [format(0)] is "0 B"; a byte count from 1 to 1023 is written as
    the integer and " B", the unit being B with multiplier 1, as in
    "512 B"; and every positive byte count is formatted in the first unit
    of TB, GB, MB, KB, B whose multiplier is at most the count. *)
Theorem format_selects_unit :
  format 0 = Ok "0 B" /\
  format 512 = Ok "512 B" /\
  (forall b, 0 < b < 1024 ->
     select_unit b = Some ("B", 1) /\
     format b = Ok (decimal b ++ " B") /\
     forall_chars isdecimal (decimal b) = true /\ digits_value (decimal b) = b) /\
  (forall b dp, 0 < b ->
     exists u U,
       select_unit b = Some (u, U) /\
       bytes_to_human_readable (PyInt b) dp = format_with u U b dp).
Proof.
  split; [vm_compute; reflexivity|]. split; [vm_compute; reflexivity|]. split.
  - intros b Hb.
    assert (Hs : select_unit b = Some ("B", 1)).
    { unfold select_unit, units_descending. cbn [find snd].
      repeat match goal with
             | |- context [?a <=? b] => destruct (Z.leb_spec a b); [lia|]
             end.
      destruct (Z.leb_spec 1 b); [reflexivity|lia]. }
    split; [exact Hs|]. split; [|split].
    + unfold format.
      rewrite (bytes_to_human_readable_unit (PyInt b) 1 b "B" 1); try assumption.
      * destruct (format_with_multiple "B" 1 b 1) as [E|(K & E & _ & HK)];
          try lia; rewrite Z.mul_1_r in E.
        -- exfalso. unfold format_with in E. rewrite int_truediv_pos in E by lia.
           destruct (round64_exact b 1 (b * one_units) b 1074) as [Hfin _];
             try lia; try reflexivity.
           destruct Hfin as (m & e & Hr & _).
           { assert (1024 * one_units < overflow_units) by (vm_compute; reflexivity).
             assert (0 < one_units) by (apply Z.pow_pos_nonneg; lia). nia. }
           rewrite Hr in E. cbn [bind] in E. unfold format_f in E.
           change (1 <? 0) with false in E. cbv iota in E. discriminate E.
        -- rewrite E. change (1 =? 0) with false. cbv iota.
           rewrite HK by lia. reflexivity.
      * simpl. destruct (Z.ltb_spec b 0); [lia|reflexivity].
      * lia.
    + apply decimal_digits.
    + apply decimal_value. lia.
  - intros b dp Hb. destruct (select_unit_some b ltac:(lia)) as (u & j & Hs & _).
    exists u, (2 ^ j). split; [assumption|].
    apply (bytes_to_human_readable_unit (PyInt b) dp b); try assumption; try lia.
    simpl. destruct (Z.ltb_spec b 0); [lia|reflexivity].
Qed.

Lemma format_selects_unit_witness :
  select_unit 1000 = Some ("B", 1) /\
  format 1000 = Ok (decimal 1000 ++ " B") /\
  forall_chars isdecimal (decimal 1000) = true /\
  digits_value (decimal 1000) = 1000.
Proof.
  apply (proj1 (proj2 (proj2 format_selects_unit)) 1000). lia.
Defined.

(** C10.  The statement after the loop is never reached: for every input
    that is numeric, not negative and converted by [int()], a count other
    than 0 is at least 1, the last unit, B, has multiplier 1, and the loop
    leaves the function in the iteration of the selected unit. *)
Theorem fallback_unreachable :
  (forall v dp b,
     byte_count_of v = Some b -> b <> 0 ->
     1 <= b /\
     exists u U,
       select_unit b = Some (u, U) /\
       unit_loop UNIT_ORDER b dp = Some (format_with u U b dp) /\
       bytes_to_human_readable v dp = format_with u U b dp) /\
  (forall v dp, byte_count_of v = Some 0 -> bytes_to_human_readable v dp = Ok "0 B") /\
  (forall b dp, 1 <= b -> unit_loop UNIT_ORDER b dp <> None) /\
  last UNIT_ORDER "" = "B" /\ dict_get "B" SIZE_UNITS = Some 1.
Proof.
  split; [|split; [|split; [|split; reflexivity]]].
  - intros v dp b Hv Hb. pose proof (byte_count_of_nonneg v b Hv) as H0.
    split; [lia|].
    destruct (select_unit_some b ltac:(lia)) as (u & j & Hs & _).
    exists u, (2 ^ j). split; [assumption|]. split.
    + rewrite unit_loop_select, Hs. reflexivity.
    + now apply (bytes_to_human_readable_unit v dp b).
  - intros v dp Hv. now rewrite (bytes_to_human_readable_count v dp 0 Hv).
  - intros b dp Hb. rewrite unit_loop_select.
    destruct (select_unit_some b Hb) as (u & j & -> & _). discriminate.
Qed.

Lemma fallback_unreachable_witness :
  1 <= 1 /\
  exists u U,
    select_unit 1 = Some (u, U) /\
    unit_loop UNIT_ORDER 1 1 = Some (format_with u U 1 1) /\
    bytes_to_human_readable (PyFloat (Fin 3 (-1))) 1 = format_with u U 1 1.
Proof.
  apply (proj1 fallback_unreachable (PyFloat (Fin 3 (-1))) 1 1).
  - vm_compute. reflexivity.
  - discriminate.
Defined.



(** * The error of one rounding *)

(** A finite result is within half a unit of the last place of the
    quotient: of [N / d] times [2^-53] for a normal result, of half the
    smallest unit for a subnormal one. *)
Lemma round64_near (n d m e : Z) :
  0 < n -> 0 < d -> round64 n d = Fin m e ->
  -1074 <= e /\
  2 ^ 53 * Z.abs (units m e * d - n * one_units)
  <= Z.max (n * one_units) (2 ^ 52 * d).
Proof.
  intros Hn Hd H.
  destruct (round64_units n d Hn Hd) as (e0 & He0 & Pos & E).
  rewrite E in H; clear E. cbv zeta in H.
  set (N := n * one_units) in *. set (s := e0 + 1074) in *.
  assert (P : 0 < 2 ^ s) by (apply Z.pow_pos_nonneg; lia).
  pose proof (rnd_half_even_error N (d * 2 ^ s) ltac:(nia)) as Err.
  set (m0 := rnd_half_even N (d * 2 ^ s)) in *.
  assert (W : -1074 <= e /\ units m e = m0 * 2 ^ s).
  { destruct (Z.eqb_spec m0 (2 ^ 53)) as [Em|Nm].
    - destruct (Z.ltb_spec 971 (e0 + 1)); [discriminate|].
      inversion H; subst m e. split; [lia|]. unfold units.
      replace (e0 + 1 + 1074) with (s + 1) by (subst s; lia).
      rewrite Z.pow_add_r, Em by lia.
      change (Z.pow_pos 2 52) with (2 ^ 52).
      change (2 ^ 53) with (2 ^ 52 * 2 ^ 1). ring.
    - destruct (Z.ltb_spec 971 e0); [discriminate|].
      inversion H; subst m e. split; [lia|reflexivity]. }
  destruct W as [He ->]. split; [assumption|].
  clearbody m0 N.
  change (2 ^ 53) with (2 * 2 ^ 52). change (2 ^ 52) with 4503599627370496.
  destruct Pos as [[E0 _]|(Hs & Hge & _)].
  - rewrite E0 in *. change (2 ^ 0) with 1 in *. lia.
  - rewrite Z.pow_add_r in Hge by lia.
    change (2 ^ 52) with 4503599627370496 in Hge.
    set (T := 2 ^ s) in *. clearbody T. nia.
Qed.

(** A quotient below [2^64] does not overflow. *)
Lemma round64_finite (n d : Z) :
  0 <= n -> 0 < d -> n < d * 2 ^ 64 -> exists m e, round64 n d = Fin m e.
Proof.
  intros Hn Hd Hlt.
  destruct (Z.eq_dec n 0) as [->|Nn].
  - destruct (round64_zero d Hd) as (e & E & _). eauto.
  - destruct (round64_units n d ltac:(lia) Hd) as (e0 & He0 & Pos & E).
    rewrite E; clear E. cbv zeta.
    assert (Hs : e0 + 1074 <= 1085).
    { destruct Pos as [[E0 _]|(Hs & Hge & _)]; [lia|].
      destruct (Z.le_gt_cases (e0 + 1074) 1085) as [|Hbig]; [assumption|exfalso].
      assert (Q : 2 ^ 1138 <= 2 ^ (e0 + 1074 + 52))
        by (apply Z.pow_le_mono_r; lia).
      replace (2 ^ 1138) with (2 ^ 64 * one_units) in Q
        by (unfold one_units; rewrite <- Z.pow_add_r; [reflexivity|discriminate..]).
      pose proof one_units_pos as PU.
      set (T := 2 ^ (e0 + 1074 + 52)) in *. clearbody T.
      set (B := 2 ^ 64) in *.
      assert (PB : 0 < B) by (subst B; lia). clearbody B. nia. }
    destruct (_ =? 2 ^ 53).
    + destruct (Z.ltb_spec 971 (e0 + 1)); [lia|eauto].
    + destruct (Z.ltb_spec 971 e0); [lia|eauto].
Qed.

(** * From the formatted text back to bytes *)

Lemma upper_digits (s : string) : forall_chars isdecimal s = true -> upper s = s.
Proof.
  induction s as [|c t IH]; simpl; [reflexivity|]. intros H.
  apply andb_true_iff in H as [Hc Ht].
  destruct (digit_facts c Hc) as (_ & -> & _). now rewrite IH.
Qed.

(** A number, a space and a unit are left as they are by the
    normalisation of [parse]. *)
Lemma normalised_formatted (ip fp u : string) (j : Z) :
  ip <> "" -> forall_chars isdecimal ip = true -> forall_chars isdecimal fp = true ->
  In (u, j) unit_exponents ->
  upper (strip (decimal_literal ip fp ++ " " ++ u))
  = decimal_literal ip fp ++ " " ++ u.
Proof.
  intros Hne Hip Hfp Hj.
  assert (Hl : forall_chars isdecimal (decimal_literal ip "") = true /\
               (fp <> "" -> decimal_literal ip fp = ip ++ String "." fp)).
  { unfold decimal_literal. split; [exact Hip|].
    destruct fp; [contradiction|reflexivity]. }
  assert (Hu : rstrip_by isspace (" " ++ u) = " " ++ u /\
               upper (" " ++ u) = " " ++ u).
  { simpl in Hj.
    repeat (destruct Hj as [Hj|Hj]; [inversion Hj; subst; split; reflexivity|]).
    contradiction. }
  destruct Hu as [Hr Hup].
  assert (Hstrip : strip (decimal_literal ip fp ++ " " ++ u)
                   = decimal_literal ip fp ++ " " ++ u).
  { unfold strip. rewrite lstrip_by_id.
    - rewrite rstrip_by_append, Hr. reflexivity.
    - unfold decimal_literal. destruct ip as [|c t]; [contradiction|].
      simpl in Hip. apply andb_true_iff in Hip as [Hc _].
      destruct (digit_facts c Hc) as (_ & _ & Hs & _).
      destruct (is_empty fp); simpl; now rewrite Hs. }
  rewrite Hstrip, upper_append, Hup. f_equal.
  unfold decimal_literal. destruct (is_empty fp).
  - now apply upper_digits.
  - rewrite upper_append. simpl. now rewrite !upper_digits.
Qed.

Lemma parse_formatted (ip fp u : string) (j : Z) :
  ip <> "" -> forall_chars isdecimal ip = true -> forall_chars isdecimal fp = true ->
  In (u, j) unit_exponents ->
  parse (decimal_literal ip fp ++ " " ++ u)
  = truncated_product (decimal_literal ip fp ++ " " ++ u)
      (magnitude ip fp) (2 ^ j).
Proof.
  intros Hne Hip Hfp Hj.
  pose proof (normalised_formatted ip fp u j Hne Hip Hfp Hj) as N.
  rewrite (parse_literal _ ip fp " " u j); rewrite N; [reflexivity|].
  repeat split; assumption.
Qed.

Lemma tenths_digits (r : Z) : forall_chars isdecimal (tenths r) = true.
Proof.
  unfold tenths. destruct (r mod 10 =? 0); [reflexivity|].
  cbn [forall_chars].
  destruct (digit_char_facts (r mod 10)) as (-> & _); [|reflexivity].
  pose proof (Z.mod_pos_bound r 10). lia.
Qed.

(** What [format] writes for a byte count of at most 53 bits in its unit:
    the tenths of the unit, rounded, with the tenths digit when it is not
    zero. *)
Lemma format_with_tenths (u : string) (j b : Z) :
  0 < b < 2 ^ 53 -> 0 <= j <= 1074 ->
  let r := rnd_half_even (b * 10) (2 ^ j) in
  format_with u (2 ^ j) b 1
  = Ok (decimal_literal (decimal (r / 10)) (tenths r) ++ " " ++ u).
Proof.
  intros Hb Hj r. rewrite format_with_small by lia.
  change (10 ^ 1) with 10. fold r.
  destruct (fixed_point_fraction r 1 ltac:(lia)) as (fp & -> & Hfp & _ & Hone).
  rewrite (Hone eq_refl) in *. change (10 ^ 1) with 10.
  destruct (decimal_digits (r / 10)) as [Hd _].
  rewrite rstrip_fraction by assumption. do 2 f_equal.
  unfold trim_fraction, decimal_literal, tenths, rstrip. cbn [rstrip_by is_empty].
  rewrite andb_true_l.
  pose proof (Z.mod_pos_bound r 10 ltac:(lia)) as Hm.
  destruct (Z.eqb_spec (r mod 10) 0) as [E|N].
  - rewrite E. reflexivity.
  - destruct (digit_char_facts (r mod 10) ltac:(lia)) as (_ & _ & Hz).
    rewrite (Hz N). reflexivity.
Qed.

(** The magnitude [parse] reads back is the float nearest to [r / 10]. *)
Lemma magnitude_tenths (r : Z) :
  0 <= r ->
  magnitude (decimal (r / 10)) (tenths r) =
  if r mod 10 =? 0 then round64 (r / 10) 1 else round64 r 10.
Proof.
  intros Hr. unfold magnitude, tenths.
  pose proof (Z.mod_pos_bound r 10 ltac:(lia)) as Hm.
  pose proof (Z.div_mod r 10 ltac:(lia)) as Hdm.
  assert (Hq : 0 <= r / 10) by (apply Z.div_pos; lia).
  destruct (Z.eqb_spec (r mod 10) 0) as [E|N].
  - rewrite append_nil_r. unfold digits_value at 1.
    fold (digits_value (decimal (r / 10))). rewrite decimal_value by assumption.
    reflexivity.
  - unfold digits_value. rewrite digits_value_from_append.
    fold (digits_value (decimal (r / 10))). rewrite decimal_value by assumption.
    cbn [digits_value_from String.length].
    destruct (digit_char_facts (r mod 10) ltac:(lia)) as (_ & -> & _).
    change (10 ^ Z.of_nat 1) with 10. f_equal. lia.
Qed.

(** The arithmetic of the round trip.  [r] is the byte count in tenths of
    the unit [U], rounded; [W] is the float read back from [r / 10], in
    units of which [C] make one; [n] is the truncated product. *)
Lemma round_trip_arith (b r U Rk W C n : Z) :
  0 < C -> 0 < U -> Rk * U = 2 ^ 50 -> 0 <= r <= 10 * Rk ->
  - U <= 2 * (r * U - b * 10) <= U ->
  2 ^ 53 * Z.abs (W * 10 - r * C) <= r * C ->
  (r mod 10 = 0 -> W * 10 = r * C) ->
  (r mod 10 <> 0 -> 1024 <= U) ->
  0 <= W ->
  n = (W * U) / C ->
  W * U <= 2 ^ 50 * C /\
  10 * Z.abs (n - b) < U /\ 20 * Z.abs (n - b) <= U + 22.
Proof.
  intros HC HU HRk Hr Hrnd Herr Hexact Hinexact HW Hn.
  change (2 ^ 50) with 1125899906842624 in *.
  change (2 ^ 53) with 9007199254740992 in *.
  assert (HRU : r * U <= 10 * 1125899906842624) by nia.
  destruct (Z.eq_dec (r mod 10) 0) as [E|N].
  - specialize (Hexact E).
    pose proof (Z.div_mod r 10 ltac:(lia)) as Hdm. rewrite E in Hdm.
    set (q := r / 10) in *.
    assert (EW : W = q * C) by lia.
    assert (En : n = q * U).
    { rewrite Hn, EW. replace (q * C * U) with (q * U * C) by ring.
      apply Z.div_mul. lia. }
    split; [nia|]. rewrite En. split.
    + assert (20 * Z.abs (q * U - b) <= U); [|lia].
      assert (20 * (q * U - b) = 2 * (r * U - b * 10)) by nia. lia.
    + assert (20 * (q * U - b) = 2 * (r * U - b * 10)) by nia. lia.
  - specialize (Hinexact N).
    assert (Hr' : r <= 10 * Rk - 1).
    { destruct (Z.eq_dec r (10 * Rk)) as [->|]; [|lia].
      exfalso. apply N. rewrite Z.mul_comm. apply Z.mod_mul. lia. }
    assert (HRU' : r * U <= 10 * 1125899906842624 - U) by nia.
    set (D := W * 10 - r * C) in *.
    assert (HD : 9007199254740992 * (Z.abs D * U) <= 2 * 9007199254740992 * C).
    { assert (r * C * U <= 2 * 9007199254740992 * C) by nia.
      assert (9007199254740992 * Z.abs D * U <= r * C * U) by nia.
      lia. }
    assert (HDU : - (2 * C) <= D * U <= 2 * C).
    { assert (Z.abs D * U <= 2 * C) by lia.
      assert (Z.abs (D * U) = Z.abs D * U) by (rewrite Z.abs_mul; f_equal; lia).
      lia. }
    assert (EWU : 10 * (W * U) = r * U * C + D * U) by (subst D; ring).
    assert (Hlo : n * C <= W * U).
    { pose proof (Z.mul_div_le (W * U) C HC) as G. rewrite <- Hn in G. lia. }
    assert (Hhi : W * U < (n + 1) * C).
    { pose proof (Z.mul_succ_div_gt (W * U) C HC) as G. rewrite <- Hn in G. lia. }
    assert (Hup : 10 * n <= r * U + 2).
    { assert ((10 * n - r * U - 2) * C <= 0) by nia. nia. }
    assert (Hdn : r * U - 11 <= 10 * n).
    { assert (0 < (10 * n + 10 - r * U + 2) * C) by nia. nia. }
    split; [nia|]. lia.
Qed.

Lemma one_units_big : 2 ^ 56 <= one_units.
Proof. unfold one_units. apply Z.pow_le_mono_r; lia. Qed.

Lemma small_below_overflow (q : Z) :
  0 <= q < 2 ^ 53 -> q * one_units < overflow_units.
Proof.
  intros Hq. rewrite overflow_units_low.
  assert (Q : one_units <= 2 ^ 2045)
    by (unfold one_units; apply Z.pow_le_mono_r; lia).
  pose proof one_units_pos as PU.
  set (T := 2 ^ 2045) in *. clearbody T.
  change (2 ^ 53) with 9007199254740992 in *. nia.
Qed.

(** The float [parse] reads back from the tenths [r]: finite, not
    negative, within [2^-53] of [r / 10], and [r / 10] itself when that
    is a whole number. *)
Lemma read_back (r : Z) :
  1 <= r <= 10 * 2 ^ 50 ->
  exists m e,
    (if r mod 10 =? 0 then round64 (r / 10) 1 else round64 r 10) = Fin m e /\
    0 <= units m e /\
    2 ^ 53 * Z.abs (units m e * 10 - r * one_units) <= r * one_units /\
    (r mod 10 = 0 -> units m e * 10 = r * one_units).
Proof.
  intros Hr. change (2 ^ 50) with 1125899906842624 in Hr.
  pose proof one_units_pos as PU. pose proof one_units_big as PB.
  pose proof (Z.div_mod r 10 ltac:(lia)) as Hdm.
  destruct (Z.eqb_spec (r mod 10) 0) as [E|N].
  - rewrite E in Hdm. set (q := r / 10) in *.
    destruct (round64_exact q 1 (q * one_units) q 1074) as [Hfin _];
      try lia; try reflexivity.
    destruct Hfin as (m & e & -> & Hu & _).
    { apply small_below_overflow.
      change (2 ^ 53) with 9007199254740992. lia. }
    exists m, e. rewrite Hu. split; [reflexivity|]. split; [nia|].
    replace (q * one_units * 10 - r * one_units) with 0 by nia.
    split; [simpl Z.abs; nia|]. intros _. nia.
  - destruct (round64_finite r 10) as (m & e & H); try lia.
    rewrite H. exists m, e. split; [reflexivity|].
    destruct (round64_near r 10 m e ltac:(lia) ltac:(lia) H) as [He Hnear].
    destruct (round64_bounds r 10 m e ltac:(lia) ltac:(lia) H) as [Hm _].
    assert (P : 0 < 2 ^ (e + 1074)) by (apply Z.pow_pos_nonneg; lia).
    split; [unfold units; nia|]. split; [|contradiction].
    rewrite Z.max_l in Hnear; [exact Hnear|].
    change (2 ^ 52) with 4503599627370496.
    change (2 ^ 56) with 72057594037927936 in PB. nia.
Qed.

(** * The round trip *)

(** C1.  For every byte count from 0 to [1024^5], the text [format] gives
    is accepted by [validate] and parsed by [parse] to a byte count that
    differs from the original by less than one tenth of the selected unit,
    the last displayed place (and by at most a twentieth of the unit plus
    the byte lost in truncation); in particular a count below 1024 comes
    back exactly. *)
Theorem format_parse_round_trip (b : Z) :
  0 <= b <= 1024 ^ 5 ->
  exists text n,
    format b = Ok text /\ validate text = Ok true /\ parse text = Ok n /\
    10 * Z.abs (n - b) < unit_size_of b /\
    20 * Z.abs (n - b) <= unit_size_of b + 22.
Proof.
  intros Hb. change (1024 ^ 5) with (2 ^ 50) in Hb.
  destruct (Z.eq_dec b 0) as [->|Nb].
  { exists "0 B", 0. repeat split; try (vm_compute; reflexivity).
    vm_compute. discriminate. }
  destruct (select_unit_some b ltac:(lia)) as (u & j & Hs & Hj & Hlo & Hhi).
  assert (HU : unit_size_of b = 2 ^ j) by (unfold unit_size_of; now rewrite Hs).
  assert (J : 0 <= j <= 40).
  { simpl in Hj. repeat (destruct Hj as [Hj|Hj]; [inversion Hj; lia|]).
    contradiction. }
  assert (PU : 0 < 2 ^ j) by (apply Z.pow_pos_nonneg; lia).
  assert (PR : 0 < 2 ^ (50 - j)) by (apply Z.pow_pos_nonneg; lia).
  assert (ER : 2 ^ (50 - j) * 2 ^ j = 2 ^ 50).
  { rewrite <- Z.pow_add_r by lia. f_equal. lia. }
  assert (H1024 : j <> 0 -> 1024 <= 2 ^ j).
  { intros Hj0. change 1024 with (2 ^ 10). apply Z.pow_le_mono_r; [lia|].
    simpl in Hj. repeat (destruct Hj as [Hj|Hj]; [inversion Hj; lia|]).
    contradiction. }
  set (r := rnd_half_even (b * 10) (2 ^ j)).
  pose proof (rnd_half_even_error (b * 10) (2 ^ j) PU) as Hrnd. fold r in Hrnd.
  assert (Hr : 10 <= r <= 10 * 2 ^ (50 - j)).
  { split; [apply rnd_half_even_ge|apply rnd_half_even_le]; try assumption.
    - lia.
    - rewrite <- Z.mul_assoc, ER. lia. }
  assert (Hr50 : 1 <= r <= 10 * 2 ^ 50).
  { split; [lia|]. assert (2 ^ (50 - j) <= 2 ^ 50) by (apply Z.pow_le_mono_r; lia).
    lia. }
  assert (Hbyte : j = 0 -> r mod 10 = 0).
  { intros ->. subst r. change (2 ^ 0) with 1.
    replace (b * 10) with (b * 10 * 1) by ring.
    rewrite rnd_half_even_exact by lia. apply Z.mod_mul. lia. }
  set (text := decimal_literal (decimal (r / 10)) (tenths r) ++ " " ++ u).
  assert (Hformat : format b = Ok text).
  { unfold format.
    rewrite (bytes_to_human_readable_unit (PyInt b) 1 b u (2 ^ j));
      try assumption.
    - apply format_with_tenths; [|lia].
      change (2 ^ 50) with 1125899906842624 in Hb.
      change (2 ^ 53) with 9007199254740992. lia.
    - simpl. destruct (Z.ltb_spec b 0); [lia|reflexivity]. }
  destruct (decimal_digits (r / 10)) as [Dq Nq].
  pose proof (parse_formatted (decimal (r / 10)) (tenths r) u j Nq Dq
                (tenths_digits r) Hj) as Hparse.
  fold text in Hparse. rewrite magnitude_tenths in Hparse by lia.
  destruct (read_back r Hr50) as (m & e & Hx & HW & Herr & Hexact).
  rewrite Hx in Hparse. unfold truncated_product in Hparse.
  cbn [exceeds_limit truncated] in Hparse.
  pose proof one_units_pos as PC.
  assert (Hq : Z.quot (units m e * 2 ^ j) one_units = units m e * 2 ^ j / one_units).
  { apply Z.quot_div_nonneg; nia. }
  rewrite Hq in Hparse.
  destruct (round_trip_arith b r (2 ^ j) (2 ^ (50 - j)) (units m e) one_units
              (units m e * 2 ^ j / one_units))
    as (Hlim & Hten & Htw); try assumption; try reflexivity; try lia.
  unfold size_limit in Hparse. change (1024 ^ 5) with (2 ^ 50) in Hparse.
  destruct (Z.ltb_spec (2 ^ 50 * one_units) (units m e * 2 ^ j)) as [Hover|_];
    [lia|].
  exists text, (units m e * 2 ^ j / one_units).
  split; [exact Hformat|]. split; [|split; [exact Hparse|]].
  - unfold validate, validate_size_string.
    change (parse_size_to_bytes (PyStr text)) with (parse text).
    now rewrite Hparse.
  - rewrite HU. split; assumption.
Qed.

Lemma format_parse_round_trip_witness :
  exists text n,
    format 1280 = Ok text /\ validate text = Ok true /\ parse text = Ok n /\
    10 * Z.abs (n - 1280) < unit_size_of 1280 /\
    20 * Z.abs (n - 1280) <= unit_size_of 1280 + 22.
Proof.
  apply (format_parse_round_trip 1280). split; [lia|].
  vm_compute. discriminate.
Defined.

(** With no decimal place asked for there is no fraction, and the zeros
    that [rstrip] removes are those of the whole number. *)
Example format_without_decimal_places :
  bytes_to_human_readable (PyInt 10240) 0 = Ok "1 KB" /\
  bytes_to_human_readable (PyInt 10240) 1 = Ok "10 KB".
Proof. split; vm_compute; reflexivity. Qed.

(** * More on whitespace *)

Lemma lstrip_by_append (p : char -> bool) (a b : string) :
  lstrip_by p (a ++ b) =
  if is_empty (lstrip_by p a) then lstrip_by p b else lstrip_by p a ++ b.
Proof.
  induction a as [|c t IH]; simpl.
  - reflexivity.
  - destruct (p c); [exact IH|reflexivity].
Qed.

Lemma lstrip_by_all (p : char -> bool) (s : string) :
  forall_chars p s = true -> lstrip_by p s = "".
Proof.
  induction s as [|c t IH]; simpl; [reflexivity|].
  intros H. apply andb_true_iff in H as [Hc Ht]. rewrite Hc. auto.
Qed.

Lemma lstrip_by_starts (p : char -> bool) (s : string) :
  starts_not p (lstrip_by p s) = true.
Proof.
  induction s as [|c t IH]; simpl; [reflexivity|].
  destruct (p c) eqn:E; [exact IH|]. simpl. now rewrite E.
Qed.

Lemma rstrip_by_starts (p : char -> bool) (s : string) :
  starts_not p s = true -> starts_not p (rstrip_by p s) = true.
Proof.
  destruct s as [|c t]; simpl; [reflexivity|].
  intros H. apply negb_true_iff in H. rewrite H, andb_false_r. simpl.
  now rewrite H.
Qed.

Lemma rstrip_by_idem (p : char -> bool) (s : string) :
  rstrip_by p (rstrip_by p s) = rstrip_by p s.
Proof.
  induction s as [|c t IH]; simpl; [reflexivity|].
  destruct (is_empty (rstrip_by p t) && p c) eqn:E; [reflexivity|].
  simpl. now rewrite IH, E.
Qed.

Lemma strip_idem (s : string) : strip (strip s) = strip s.
Proof.
  unfold strip.
  rewrite (lstrip_by_id isspace (rstrip_by isspace (lstrip_by isspace s))).
  - apply rstrip_by_idem.
  - apply rstrip_by_starts, lstrip_by_starts.
Qed.

Lemma strip_surrounded (a s b : string) :
  forall_chars isspace a = true -> forall_chars isspace b = true ->
  strip (a ++ s ++ b) = strip s.
Proof.
  intros Ha Hb. unfold strip.
  rewrite lstrip_by_append, (lstrip_by_all _ a Ha). simpl.
  rewrite lstrip_by_append.
  destruct (is_empty (lstrip_by isspace s)) eqn:E.
  - rewrite (lstrip_by_all _ b Hb).
    destruct (lstrip_by isspace s); [reflexivity|discriminate].
  - rewrite rstrip_by_append, (rstrip_by_all _ b Hb). reflexivity.
Qed.

Lemma upper_spaces (w : string) : forall_chars isspace w = true -> upper w = w.
Proof.
  induction w as [|c t IH]; simpl; [reflexivity|].
  intros H. apply andb_true_iff in H as [Hc Ht].
  now rewrite (IH Ht), (upper_char_space c Hc).
Qed.

(** * parse_size_to_bytes on a text written out *)

Lemma normalised_literal (ip fp w u : string) (j : Z) :
  ip <> "" -> forall_chars isdecimal ip = true -> forall_chars isdecimal fp = true ->
  forall_chars isspace w = true -> In (u, j) unit_exponents ->
  upper (strip (decimal_literal ip fp ++ w ++ u))
  = decimal_literal ip fp ++ w ++ u.
Proof.
  intros Hne Hip Hfp Hw Hj.
  assert (Hu : rstrip_by isspace u = u /\ upper u = u /\ is_empty u = false).
  { simpl in Hj.
    repeat (destruct Hj as [Hj|Hj]; [inversion Hj; subst; repeat split; reflexivity|]).
    contradiction. }
  destruct Hu as (Hr & Hup & Hue).
  assert (Hstrip : strip (decimal_literal ip fp ++ w ++ u)
                   = decimal_literal ip fp ++ w ++ u).
  { unfold strip. rewrite lstrip_by_id.
    - rewrite !rstrip_by_append, Hr, Hue.
      destruct (is_empty (w ++ u)) eqn:E; [|reflexivity].
      destruct w; [simpl in E; congruence|discriminate E].
    - unfold decimal_literal. destruct ip as [|c t]; [contradiction|].
      simpl in Hip. apply andb_true_iff in Hip as [Hc _].
      destruct (digit_facts c Hc) as (_ & _ & Hs & _).
      destruct (is_empty fp); simpl; now rewrite Hs. }
  rewrite Hstrip, !upper_append, Hup, (upper_spaces w Hw). f_equal.
  unfold decimal_literal. destruct (is_empty fp).
  - now apply upper_digits.
  - rewrite upper_append. simpl. now rewrite !upper_digits.
Qed.

Lemma parse_text (ip fp w u : string) (j : Z) :
  ip <> "" -> forall_chars isdecimal ip = true -> forall_chars isdecimal fp = true ->
  forall_chars isspace w = true -> In (u, j) unit_exponents ->
  parse (decimal_literal ip fp ++ w ++ u)
  = truncated_product (decimal_literal ip fp ++ w ++ u)
      (magnitude ip fp) (2 ^ j).
Proof.
  intros Hne Hip Hfp Hw Hj.
  pose proof (normalised_literal ip fp w u j Hne Hip Hfp Hw Hj) as N.
  rewrite (parse_literal _ ip fp w u j); rewrite N; [reflexivity|].
  repeat split; assumption.
Qed.

(** The product of a whole number and a multiplier: exact, and compared
    with the limit as integers are. *)
Lemma truncated_product_whole (t ip : string) (j : Z) :
  forall_chars isdecimal ip = true -> 0 <= j ->
  truncated_product t (magnitude ip "") (2 ^ j)
  = if digits_value ip * 2 ^ j <=? 1024 ^ 5
    then Ok (digits_value ip * 2 ^ j)
    else Raise (InvalidSizeFormatError (TooLarge t)).
Proof.
  intros Hip Hj. unfold magnitude. rewrite append_nil_r.
  change (10 ^ Z.of_nat (String.length "")) with 1.
  set (k := digits_value ip).
  assert (Hk : 0 <= k) by (apply digits_value_from_nonneg; [lia|assumption]).
  pose proof one_units_pos as PC.
  assert (PJ : 1 <= 2 ^ j) by (apply (Z.pow_le_mono_r 2 0 j); lia).
  unfold truncated_product, exceeds_limit, truncated, size_limit.
  change (1024 ^ 5) with (2 ^ 50).
  assert (P50 : 2 ^ 50 = 1125899906842624) by reflexivity.
  assert (P53 : 2 ^ 53 = 9007199254740992) by reflexivity.
  destruct (Z.eq_dec k 0) as [K0|K0].
  - rewrite K0. destruct (round64_zero 1 ltac:(lia)) as (e & -> & _).
    unfold units. rewrite !Z.mul_0_l.
    destruct (Z.ltb_spec (2 ^ 50 * one_units) 0); [nia|].
    destruct (Z.leb_spec 0 (2 ^ 50)); [|lia].
    now rewrite Z.quot_0_l by lia.
  - destruct (Z.lt_ge_cases k (2 ^ 53)) as [Hs|Hb].
    + destruct (round64_exact k 1 (k * one_units) k 1074) as [Hfin _];
        try lia; try reflexivity.
      destruct Hfin as (m & e & -> & Hu & He).
      { apply small_below_overflow. lia. }
      rewrite Hu.
      replace (k * one_units * 2 ^ j) with (k * 2 ^ j * one_units) by ring.
      rewrite Z.quot_mul by lia.
      destruct (Z.ltb_spec (2 ^ 50 * one_units) (k * 2 ^ j * one_units));
        destruct (Z.leb_spec (k * 2 ^ j) (2 ^ 50)); try reflexivity; nia.
    + destruct (Z.leb_spec (k * 2 ^ j) (2 ^ 50)); [nia|].
      destruct (round64_cases k 1) as [->|(m & e & E)]; [reflexivity|].
      rewrite E.
      destruct (round64_near k 1 m e ltac:(lia) ltac:(lia) E) as [He Hn].
      rewrite Z.max_l in Hn by nia.
      destruct (Z.ltb_spec (2 ^ 50 * one_units) (units m e * 2 ^ j));
        [reflexivity|exfalso].
      set (W := units m e) in *. clearbody W.
      set (C := one_units) in *. clearbody C.
      rewrite P50 in *. rewrite P53 in *.
      assert (HW : 9007199254740992 * (k * C - W) <= k * C) by lia.
      assert (W <= 1125899906842624 * C) by nia.
      nia.
Qed.

Lemma size_units_exponent (u : string) (U : Z) :
  dict_get u SIZE_UNITS = Some U ->
  exists j, In (u, j) unit_exponents /\ U = 2 ^ j /\ 0 <= j <= 40.
Proof.
  unfold SIZE_UNITS, dict_get.
  repeat match goal with
         | |- context [String.eqb u ?k] =>
             destruct (string_eqb_spec u k);
             [subst u; intros H; inversion H; eexists; split;
              [simpl; eauto 6|split; [reflexivity|lia]]|]
         end.
  discriminate.
Qed.

Lemma parse_whole_text (ip w u : string) (j : Z) :
  ip <> "" -> forall_chars isdecimal ip = true ->
  forall_chars isspace w = true -> In (u, j) unit_exponents ->
  parse (ip ++ w ++ u)
  = if digits_value ip * 2 ^ j <=? 1024 ^ 5
    then Ok (digits_value ip * 2 ^ j)
    else Raise (InvalidSizeFormatError (TooLarge (ip ++ w ++ u))).
Proof.
  intros Hne Hip Hw Hj.
  destruct (unit_multiplier u j Hj) as (_ & Hj0 & _).
  pose proof (parse_text ip "" w u j Hne Hip eq_refl Hw Hj) as E.
  change (decimal_literal ip "") with ip in E. rewrite E.
  now apply truncated_product_whole.
Qed.

(** * More on parse_size_to_bytes *)



(** X2.  The unsupported-unit failure is never raised: the second group of
    a match is one of the five keys of [SIZE_UNITS], whose multiplier is a
    power of two from [2^0] to [2^40]. *)
Theorem unit_always_supported :
  (forall v u,
     parse_size_to_bytes v
     <> Raise (InvalidSizeFormatError (UnsupportedUnit u))) /\
  (forall t value_str unit,
     re_match t = Some (value_str, unit) ->
     In unit UNIT_ORDER /\
     exists j, 0 <= j <= 40 /\ dict_get unit SIZE_UNITS = Some (2 ^ j)).
Proof.
  split.
  - intros v s. destruct v as [|b|z|y|t|l]; try discriminate.
    change (parse_size_to_bytes (PyStr t)) with (parse t).
    destruct (parse_cases t) as [[_ ->]|(ip & fp & w & u & j & _ & ->)].
    + destruct (is_empty _); discriminate.
    + unfold truncated_product. destruct (exceeds_limit _ _); discriminate.
  - intros t value_str unit H.
    apply re_match_sound in H as (w & tail & _ & _ & _ & Lu & _).
    apply lang_unit_cases in Lu. split.
    + simpl in Lu. simpl. tauto.
    + destruct (unit_exponent unit Lu) as (j & Hj).
      destruct (unit_multiplier unit j Hj) as (_ & Hj0 & Hd & _).
      exists j. split; [|assumption].
      simpl in Hj.
      repeat (destruct Hj as [Hj|Hj]; [inversion Hj; lia|]).
      contradiction.
Qed.

Lemma unit_always_supported_witness :
  In "GB" UNIT_ORDER /\
  exists j, 0 <= j <= 40 /\ dict_get "GB" SIZE_UNITS = Some (2 ^ j).
Proof.
  apply (proj2 unit_always_supported "10.5GB" "10.5" "GB").
  vm_compute. reflexivity.
Defined.





(** X5.  Whitespace around the input does not count: [parse] gives the
    same result, byte count or failure, with and without it. *)
Theorem parse_ignores_surrounding_whitespace (a s b : string) :
  forall_chars isspace a = true -> forall_chars isspace b = true ->
  parse (a ++ s ++ b) = parse s.
Proof.
  intros Ha Hb. apply parse_normalised. now rewrite strip_surrounded.
Qed.

Lemma parse_ignores_surrounding_whitespace_witness :
  parse ("  " ++ "1.5 gb" ++ " ") = parse "1.5 gb".
Proof.
  apply (parse_ignores_surrounding_whitespace "  " "1.5 gb" " "); reflexivity.
Defined.

(** X6.  The whitespace between the number and the unit does not count:
    with any run of whitespace there, [parse] succeeds exactly when it does
    with none, and with the same byte count. *)
Theorem parse_ignores_inner_whitespace (ip fp w u : string) (U n : Z) :
  ip <> "" -> forall_chars isdecimal ip = true -> forall_chars isdecimal fp = true ->
  forall_chars isspace w = true -> dict_get u SIZE_UNITS = Some U ->
  parse (decimal_literal ip fp ++ w ++ u) = Ok n <->
  parse (decimal_literal ip fp ++ u) = Ok n.
Proof.
  intros Hne Hip Hfp Hw HU.
  destruct (size_units_exponent u U HU) as (j & Hj & -> & Hj0).
  rewrite (parse_text ip fp w u j Hne Hip Hfp Hw Hj).
  pose proof (parse_text ip fp "" u j Hne Hip Hfp eq_refl Hj) as E.
  change ("" ++ u) with u in E. rewrite E.
  unfold truncated_product. destruct (exceeds_limit _ _); [|reflexivity].
  split; discriminate.
Qed.

Lemma parse_ignores_inner_whitespace_witness :
  parse (decimal_literal "1" "5" ++ "   " ++ "KB") = Ok 1536 <->
  parse (decimal_literal "1" "5" ++ "KB") = Ok 1536.
Proof.
  apply (parse_ignores_inner_whitespace "1" "5" "   " "KB" 1024 1536);
    try reflexivity. discriminate.
Defined.

(** * More on bytes_to_human_readable *)

Lemma format_with_defined (u : string) (U b dp : Z) :
  0 < b -> 0 < U -> b < U * 2 ^ 64 ->
  (dp < 0 \/ 2 ^ 31 <= dp -> format_with u U b dp = Raise ValueError) /\
  (0 <= dp < 2 ^ 31 -> exists text, format_with u U b dp = Ok text).
Proof.
  intros Hb HU Hlt. unfold format_with.
  rewrite int_truediv_pos by assumption.
  destruct (round64_finite b U ltac:(lia) HU Hlt) as (m & e & ->).
  cbn [bind]. unfold format_f.
  destruct (Z.ltb_spec dp 0); destruct (Z.leb_spec (2 ^ 31) dp); cbn [orb];
    split; intros; try lia; try reflexivity.
  cbn [bind]. eauto.
Qed.

Lemma bytes_to_human_readable_int (b dp : Z) :
  0 < b < 2 ^ 64 ->
  (dp < 0 \/ 2 ^ 31 <= dp ->
   bytes_to_human_readable (PyInt b) dp = Raise ValueError) /\
  (0 <= dp < 2 ^ 31 ->
   exists text, bytes_to_human_readable (PyInt b) dp = Ok text).
Proof.
  intros Hb.
  destruct (select_unit_some b ltac:(lia)) as (u & j & Hs & Hj & Hlo & _).
  assert (PU : 0 < 2 ^ j).
  { apply Z.pow_pos_nonneg; [lia|].
    destruct (unit_multiplier u j Hj) as (_ & ? & _). assumption. }
  rewrite (bytes_to_human_readable_unit (PyInt b) dp b u (2 ^ j));
    try assumption; try lia.
  - apply format_with_defined; lia.
  - simpl. destruct (Z.ltb_spec b 0); [lia|reflexivity].
Qed.


(** X8.  For a byte count from 1 to [2^64 - 1], [bytes_to_human_readable]
    returns a text whenever [decimal_places] is from 0 to [2^31 - 1], and
    raises [ValueError] when it is negative or [2^31] and more, the
    precision the format refuses; for the byte count 0 it returns "0 B"
    whatever [decimal_places] is. *)
Theorem bytes_to_human_readable_defined (b dp : Z) :
  0 <= b < 2 ^ 64 ->
  (b = 0 -> bytes_to_human_readable (PyInt b) dp = Ok "0 B") /\
  (0 < b -> dp < 0 \/ 2 ^ 31 <= dp ->
   bytes_to_human_readable (PyInt b) dp = Raise ValueError) /\
  (0 <= dp < 2 ^ 31 ->
   exists text, bytes_to_human_readable (PyInt b) dp = Ok text).
Proof.
  intros Hb. split; [intros ->; reflexivity|]. split.
  - intros H0 Hdp. now apply bytes_to_human_readable_int.
  - intros Hdp. destruct (Z.eq_dec b 0) as [->|Nb]; [eexists; reflexivity|].
    apply bytes_to_human_readable_int; lia.
Qed.

Lemma bytes_to_human_readable_defined_witness :
  bytes_to_human_readable (PyInt 1536) (2 ^ 31) = Raise ValueError /\
  exists text, bytes_to_human_readable (PyInt 1536) 3 = Ok text.
Proof.
  pose proof (bytes_to_human_readable_defined 1536 (2 ^ 31)) as N.
  pose proof (bytes_to_human_readable_defined 1536 3) as P.
  split.
  - apply N; [split; [lia|reflexivity]|lia|right; lia].
  - apply P; [split; [lia|reflexivity]|lia].
Defined.

Lemma select_unit_multiplier (b : Z) (u : string) (U : Z) :
  select_unit b = Some (u, U) ->
  exists j, In (u, j) unit_exponents /\ U = 2 ^ j /\ 0 <= j <= 40 /\ U <= b.
Proof.
  unfold select_unit. intros H. apply find_some in H as [Hin Hle].
  simpl in Hle. apply Z.leb_le in Hle.
  simpl in Hin.
  repeat (destruct Hin as [Hin|Hin];
          [inversion Hin; subst; eexists; split; [simpl; eauto 6|];
           split; [reflexivity|split; [lia|assumption]]|]).
  contradiction.
Qed.

(** [format] with its one decimal place: the count of tenths of the unit
    nearest to the byte count, ties to the even one. *)
Lemma format_tenths (b : Z) (u : string) (U : Z) :
  0 < b < 2 ^ 53 -> select_unit b = Some (u, U) ->
  format b
  = Ok (decimal_literal (decimal (rnd_half_even (b * 10) U / 10))
          (tenths (rnd_half_even (b * 10) U)) ++ " " ++ u).
Proof.
  intros Hb Hs.
  destruct (select_unit_multiplier b u U Hs) as (j & Hj & -> & Hj0 & _).
  unfold format.
  rewrite (bytes_to_human_readable_unit (PyInt b) 1 b u (2 ^ j));
    try assumption; try lia.
  - apply format_with_tenths; lia.
  - simpl. destruct (Z.ltb_spec b 0); [lia|reflexivity].
Qed.

Lemma select_unit_range (b : Z) (u : string) (j : Z) :
  In (u, j) unit_exponents -> 2 ^ j <= b -> (j < 40 -> b < 2 ^ (j + 10)) ->
  select_unit b = Some (u, 2 ^ j).
Proof.
  intros Hj Hlo Hhi. unfold select_unit, units_descending.
  simpl in Hj.
  repeat (destruct Hj as [Hj|Hj];
          [inversion Hj; subst u j; clear Hj;
           vm_compute (2 ^ _) in *; vm_compute (1024 ^ _);
           cbn [find snd];
           repeat match goal with
                  | |- context [?a <=? b] => destruct (Z.leb_spec a b)
                  end; try reflexivity; lia|]).
  contradiction.
Qed.

(** X9.  What [format] displays: for a byte count [b] from 1 to [2^53 - 1]
    in the unit of multiplier [U], the number of tenths of the unit nearest
    to [b], an exact tie going to the even number of tenths, written as
    whole part, and ".d" when the tenths digit [d] is not 0, then a space
    and the unit.  The tenths are at least 10 and, up to [1024^5] bytes,
    at most 10240.  So 1280 bytes, 1.25 KB, are "1.2 KB" and 1792 bytes,
    1.75 KB, are "1.8 KB". *)
Theorem format_rounds_to_tenths :
  (forall b u U,
     0 < b < 2 ^ 53 -> select_unit b = Some (u, U) ->
     let r := rnd_half_even (b * 10) U in
     format b = Ok (decimal_literal (decimal (r / 10)) (tenths r) ++ " " ++ u) /\
     - U <= 2 * (r * U - b * 10) <= U /\
     10 <= r /\ (b <= 1024 ^ 5 -> r <= 10240)) /\
  format 1280 = Ok "1.2 KB" /\ format 1792 = Ok "1.8 KB".
Proof.
  split; [|split; vm_compute; reflexivity].
  intros b u U Hb Hs r.
  destruct (select_unit_multiplier b u U Hs) as (j & Hj & HU & Hj0 & Hle).
  assert (PU : 0 < U) by (subst U; apply Z.pow_pos_nonneg; lia).
  split; [now apply format_tenths|].
  split; [now apply rnd_half_even_error|].
  split; [apply rnd_half_even_ge; [assumption|lia]|].
  intros Hlim. apply rnd_half_even_le; [assumption|].
  destruct (select_unit_some b ltac:(lia)) as (u' & j' & Hs' & Hj' & Hlo & Hhi).
  rewrite Hs in Hs'. inversion Hs'; subst u'.
  assert (j' = j).
  { apply (Z.pow_inj_r 2); try lia.
    destruct (unit_multiplier u j' Hj') as (_ & ? & _). lia. }
  subst j' U.
  destruct (Z.eq_dec j 40) as [->|Nj].
  - change (2 ^ 40) with 1099511627776.
    change (1024 ^ 5) with 1125899906842624 in Hlim. lia.
  - assert (Hb10 : b < 2 ^ (j + 10)) by (apply Hhi; lia).
    rewrite Z.pow_add_r in Hb10 by lia. change (2 ^ 10) with 1024 in Hb10. lia.
Qed.

Lemma format_rounds_to_tenths_witness :
  let r := rnd_half_even (1280 * 10) 1024 in
  format 1280 = Ok (decimal_literal (decimal (r / 10)) (tenths r) ++ " " ++ "KB") /\
  - 1024 <= 2 * (r * 1024 - 1280 * 10) <= 1024 /\
  10 <= r /\ (1280 <= 1024 ^ 5 -> r <= 10240).
Proof.
  apply (proj1 format_rounds_to_tenths 1280 "KB" 1024).
  - split; [lia|reflexivity].
  - reflexivity.
Defined.

(** X10.  A byte count less than a twentieth of a unit below the next
    larger unit is displayed as 1024 of the smaller one, not as 1 of the
    larger: 1048575 bytes are "1024 KB". *)
Theorem format_shows_1024 (b : Z) (u : string) (j : Z) :
  In (u, j) unit_exponents -> j < 40 ->
  b < 2 ^ (j + 10) -> 20 * (2 ^ (j + 10) - b) < 2 ^ j ->
  format b = Ok ("1024 " ++ u).
Proof.
  intros Hj Hj40 Hhi Hnear.
  destruct (unit_multiplier u j Hj) as (_ & Hj0 & _ & _).
  assert (PU : 0 < 2 ^ j) by (apply Z.pow_pos_nonneg; lia).
  assert (E : 2 ^ (j + 10) = 1024 * 2 ^ j).
  { rewrite Z.pow_add_r by lia. change (2 ^ 10) with 1024. lia. }
  rewrite E in *.
  assert (Hs : select_unit b = Some (u, 2 ^ j)).
  { apply select_unit_range; try assumption; [lia|]. intros _. now rewrite E. }
  assert (Hb : 0 < b < 2 ^ 53).
  { split; [lia|].
    assert (2 ^ j < 2 ^ 40) by (apply Z.pow_lt_mono_r; lia).
    change (2 ^ 40) with 1099511627776 in *.
    change (2 ^ 53) with 9007199254740992. lia. }
  rewrite (format_tenths b u (2 ^ j) Hb Hs).
  pose proof (rnd_half_even_error (b * 10) (2 ^ j) PU) as Herr.
  assert (Hle : rnd_half_even (b * 10) (2 ^ j) <= 10240)
    by (apply rnd_half_even_le; lia).
  assert (Hr : rnd_half_even (b * 10) (2 ^ j) = 10240) by nia.
  rewrite Hr. change (10240 / 10) with 1024.
  change (decimal 1024) with "1024". reflexivity.
Qed.

Lemma format_shows_1024_witness : format 1048575 = Ok ("1024 " ++ "KB").
Proof.
  apply (format_shows_1024 1048575 "KB" 10).
  - simpl. tauto.
  - lia.
  - reflexivity.
  - reflexivity.
Defined.

(** X11.  A byte count that is a whole number of its unit comes back
    exactly: up to [1024^5] bytes, [parse] of what [format] displays for
    [k] units is the byte count itself. *)
Theorem whole_units_round_trip (b : Z) (u : string) (U k : Z) :
  0 < b <= 1024 ^ 5 -> select_unit b = Some (u, U) -> b = k * U ->
  format b = Ok (decimal k ++ " " ++ u) /\
  parse (decimal k ++ " " ++ u) = Ok b.
Proof.
  intros Hb Hs Hk.
  destruct (select_unit_multiplier b u U Hs) as (j & Hj & HU & Hj0 & Hle).
  assert (PU : 0 < U) by (subst U; apply Z.pow_pos_nonneg; lia).
  assert (Hk0 : 0 < k) by nia.
  split.
  - rewrite (format_tenths b u U); [|change (1024 ^ 5) with (2 ^ 50) in Hb;
                                      change (2 ^ 50) with 1125899906842624 in Hb;
                                      change (2 ^ 53) with 9007199254740992;
                                      lia|assumption].
    replace (b * 10) with (k * 10 * U) by lia.
    rewrite rnd_half_even_exact by assumption.
    rewrite Z.div_mul by lia. unfold tenths. rewrite Z.mod_mul by lia.
    change (0 =? 0) with true. cbv iota. unfold decimal_literal.
    cbn [is_empty]. reflexivity.
  - destruct (decimal_digits k) as [Dk Nk].
    rewrite (parse_whole_text (decimal k) " " u j Nk Dk eq_refl Hj).
    rewrite decimal_value by lia. rewrite <- HU, <- Hk.
    destruct (Z.leb_spec b (1024 ^ 5)); [reflexivity|lia].
Qed.

Lemma whole_units_round_trip_witness :
  format (3 * 1024 ^ 3) = Ok (decimal 3 ++ " " ++ "GB") /\
  parse (decimal 3 ++ " " ++ "GB") = Ok (3 * 1024 ^ 3).
Proof.
  apply (whole_units_round_trip (3 * 1024 ^ 3) "GB" (1024 ^ 3) 3).
  - split; [reflexivity|discriminate].
  - reflexivity.
  - reflexivity.
Defined.

(** X12.  A text in the form [format] writes whole numbers in is kept: for
    a whole number [k] from 1 to 1023 and any of the five units, [parse]
    gives [k] times the multiplier and [format] of that byte count gives
    the text back. *)
Theorem whole_text_round_trip (k : Z) (u : string) (U : Z) :
  1 <= k < 1024 -> dict_get u SIZE_UNITS = Some U ->
  parse (decimal k ++ " " ++ u) = Ok (k * U) /\
  format (k * U) = Ok (decimal k ++ " " ++ u).
Proof.
  intros Hk HU.
  destruct (size_units_exponent u U HU) as (j & Hj & -> & Hj0).
  assert (PU : 0 < 2 ^ j) by (apply Z.pow_pos_nonneg; lia).
  assert (P40 : 2 ^ j <= 2 ^ 40) by (apply Z.pow_le_mono_r; lia).
  change (2 ^ 40) with 1099511627776 in P40.
  assert (E : 2 ^ (j + 10) = 1024 * 2 ^ j).
  { rewrite Z.pow_add_r by lia. change (2 ^ 10) with 1024. lia. }
  destruct (decimal_digits k) as [Dk Nk].
  split.
  - rewrite (parse_whole_text (decimal k) " " u j Nk Dk eq_refl Hj).
    rewrite decimal_value by lia.
    change (1024 ^ 5) with 1125899906842624.
    destruct (Z.leb_spec (k * 2 ^ j) 1125899906842624); [reflexivity|nia].
  - assert (Hs : select_unit (k * 2 ^ j) = Some (u, 2 ^ j)).
    { apply select_unit_range; try assumption; [nia|].
      intros _. rewrite E. nia. }
    rewrite (format_tenths (k * 2 ^ j) u (2 ^ j)); [| |assumption].
    + replace (k * 2 ^ j * 10) with (k * 10 * 2 ^ j) by lia.
      rewrite rnd_half_even_exact by assumption.
      rewrite Z.div_mul by lia. unfold tenths. rewrite Z.mod_mul by lia.
      change (0 =? 0) with true. cbv iota. unfold decimal_literal.
      cbn [is_empty]. reflexivity.
    + change (2 ^ 53) with 9007199254740992. nia.
Qed.

Lemma whole_text_round_trip_witness :
  parse (decimal 500 ++ " " ++ "MB") = Ok (500 * 1024 ^ 2) /\
  format (500 * 1024 ^ 2) = Ok (decimal 500 ++ " " ++ "MB").
Proof.
  apply (whole_text_round_trip 500 "MB" (1024 ^ 2)); [lia|reflexivity].
Defined.

Lemma parse_bounds (v : pyval) (n : Z) :
  parse_size_to_bytes v = Ok n -> 0 <= n <= 1024 ^ 5.
Proof.
  destruct v as [|b|z|x|s|l]; try discriminate.
  change (parse_size_to_bytes (PyStr s)) with (parse s).
  destruct (parse_cases s) as [[_ ->]|(ip & fp & w & u & j & L & ->)];
    [discriminate|].
  unfold truncated_product.
  destruct (exceeds_limit (magnitude ip fp) (2 ^ j)) eqn:X; [discriminate|].
  intros H. inversion H; subst n.
  destruct L as (_ & _ & Hip & Hfp & _ & Hj).
  destruct (unit_multiplier u j Hj) as (_ & Hj0 & _ & _).
  apply truncated_bounds; try assumption.
  intros m e M. pose proof (magnitude_bounds ip fp m e Hip Hfp M). lia.
Qed.

(** X13.  What [validate] accepts can be parsed and formatted: when
    [validate_size_string] answers true, [parse_size_to_bytes] returns a
    byte count from 0 to [1024^5] and [bytes_to_human_readable] returns a
    text for it, with any number of decimal places from 0 to [2^31 - 1]. *)
Theorem valid_size_parses_and_formats (v : pyval) (dp : Z) :
  validate_size_string v = Ok true -> 0 <= dp < 2 ^ 31 ->
  exists n text,
    parse_size_to_bytes v = Ok n /\ 0 <= n <= 1024 ^ 5 /\
    bytes_to_human_readable (PyInt n) dp = Ok text.
Proof.
  intros Hv Hdp. unfold validate_size_string in Hv.
  destruct (parse_size_to_bytes v) as [n|e] eqn:E.
  - pose proof (parse_bounds v n E) as Hn.
    destruct (Z.eq_dec n 0) as [->|Nn].
    + exists 0, "0 B". repeat split; lia.
    + destruct (bytes_to_human_readable_int n dp) as [_ H].
      { change (1024 ^ 5) with 1125899906842624 in Hn.
        change (2 ^ 64) with 18446744073709551616. lia. }
      destruct (H Hdp) as (text & Ht). exists n, text. auto.
  - destruct e; discriminate.
Qed.

Lemma valid_size_parses_and_formats_witness :
  exists n text,
    parse_size_to_bytes (PyStr "1.5 tb") = Ok n /\ 0 <= n <= 1024 ^ 5 /\
    bytes_to_human_readable (PyInt n) 2 = Ok text.
Proof.
  apply (valid_size_parses_and_formats (PyStr "1.5 tb") 2).
  - vm_compute. reflexivity.
  - lia.
Defined.

(** * The callers in validation_utils *)

Lemma validate_size_string_cases (v : pyval) :
  validate_size_string v
  = Ok (match parse_size_to_bytes v with Ok _ => true | Raise _ => false end).
Proof.
  unfold validate_size_string.
  destruct (parse_only_invalid_format v) as [(n & ->)|(msg & ->)]; reflexivity.
Qed.

Lemma parse_strip (s : string) : parse (strip s) = parse s.
Proof. apply parse_normalised. now rewrite strip_idem. Qed.

Lemma parse_blank (s : string) :
  is_empty (strip s) = true ->
  parse s = Raise (InvalidSizeFormatError CannotBeEmpty).
Proof.
  intros H. unfold parse, parse_size_to_bytes.
  now rewrite is_empty_upper, H.
Qed.

Lemma validate_min_size_cases (v : string) :
  validate_min_size v
  = match parse v with
    | Ok _ => Ok (strip v)
    | Raise _ => Raise ValueError
    end.
Proof.
  unfold validate_min_size.
  destruct (is_empty (strip v)) eqn:E.
  - rewrite orb_true_r, (parse_blank v E). reflexivity.
  - assert (Hv : is_empty v = false).
    { destruct v; [discriminate E|reflexivity]. }
    rewrite Hv. cbn [orb]. rewrite validate_size_string_cases.
    change (parse_size_to_bytes (PyStr (strip v))) with (parse (strip v)).
    rewrite parse_strip. cbn [bind]. destruct (parse v); reflexivity.
Qed.

(** X14.  [validate_size_string_simple] answers what
    [validate_size_string] answers, its [except] never being taken: true
    exactly when [parse_size_to_bytes] succeeds on the same value. *)
Theorem validate_size_string_simple_reflects_parse (v : pyval) :
  validate_size_string v = Ok (validate_size_string_simple v) /\
  (validate_size_string_simple v = true <->
   exists n, parse_size_to_bytes v = Ok n).
Proof.
  unfold validate_size_string_simple. rewrite validate_size_string_cases.
  split; [reflexivity|].
  destruct (parse_size_to_bytes v) as [n|e].
  - split; eauto.
  - split; [discriminate|]. intros (n & H). discriminate H.
Qed.

(** X15.  [validate_min_size] accepts exactly the strings that [parse]
    accepts, and returns them trimmed; any other string is a
    [ValueError].  What it returns it accepts again unchanged, and a
    configuration that holds it has a minimum size in bytes, from 0 to
    [1024^5]. *)
Theorem validate_min_size_accepts_parseable (v : string) :
  (forall t,
     validate_min_size v = Ok t <-> t = strip v /\ exists n, parse v = Ok n) /\
  (forall e, validate_min_size v = Raise e -> e = ValueError) /\
  (forall t,
     validate_min_size v = Ok t ->
     validate_min_size t = Ok t /\
     forall self : BackupCheckConfig,
       min_size self = t ->
       exists n, get_min_size_bytes self = Ok n /\ 0 <= n <= 1024 ^ 5).
Proof.
  rewrite validate_min_size_cases.
  destruct (parse v) as [n|e] eqn:E.
  - split; [|split].
    + intros t. split.
      * intros H. inversion H. eauto.
      * intros [-> _]. reflexivity.
    + discriminate.
    + intros t H. inversion H; subst t. split.
      * rewrite validate_min_size_cases, parse_strip, E, strip_idem.
        reflexivity.
      * intros self Hself. exists n. unfold get_min_size_bytes.
        rewrite Hself.
        change (parse_size_to_bytes (PyStr (strip v))) with (parse (strip v)).
        rewrite parse_strip. split; [assumption|].
        apply (parse_bounds (PyStr v) n E).
  - split; [|split].
    + intros t. split; [discriminate|]. intros [_ (n & H)]. discriminate H.
    + intros e' H. inversion H. reflexivity.
    + discriminate.
Qed.

Lemma validate_min_size_accepts_parseable_witness :
  validate_min_size "10 GB" = Ok "10 GB" /\
  forall self : BackupCheckConfig,
    min_size self = "10 GB" ->
    exists n, get_min_size_bytes self = Ok n /\ 0 <= n <= 1024 ^ 5.
Proof.
  apply (proj2 (proj2 (validate_min_size_accepts_parseable " 10 GB ")) "10 GB").
  vm_compute. reflexivity.
Defined.

(** X16.  The two size validators agree: on every string
    [validate_min_free_space] gives what [validate_min_size] gives, though
    one tests the string for emptiness before trimming and the other
    after; and it refuses every value that is not a string.  A
    configuration that holds what it returns has a minimum free space in
    bytes. *)
Theorem validate_min_free_space_agrees :
  (forall s, validate_min_free_space (PyStr s) = validate_min_size s) /\
  (forall v, (forall s, v <> PyStr s) ->
     validate_min_free_space v = Raise ValueError) /\
  (forall v t (self : AppConfig),
     validate_min_free_space v = Ok t -> min_free_space self = t ->
     exists n, get_min_free_space_bytes self = Ok n /\ 0 <= n <= 1024 ^ 5).
Proof.
  assert (A : forall s, validate_min_free_space (PyStr s) = validate_min_size s).
  { intros s. rewrite validate_min_size_cases. unfold validate_min_free_space.
    destruct (is_empty s) eqn:E.
    - destruct s; [reflexivity|discriminate E].
    - rewrite validate_size_string_cases.
      change (parse_size_to_bytes (PyStr (strip s))) with (parse (strip s)).
      rewrite parse_strip. cbn [bind]. destruct (parse s); reflexivity. }
  split; [exact A|]. split.
  - intros v Hv. destruct v as [|b|z|x|s|l]; try reflexivity.
    now destruct (Hv s).
  - intros v t self Hv Hself.
    destruct v as [|b|z|x|s|l]; try discriminate Hv.
    rewrite A, validate_min_size_cases in Hv.
    destruct (parse s) as [n|e] eqn:E; [|discriminate Hv].
    inversion Hv as [Ht]. exists n. unfold get_min_free_space_bytes.
    rewrite Hself, <- Ht.
    change (parse_size_to_bytes (PyStr (strip s))) with (parse (strip s)).
    rewrite parse_strip. split; [assumption|].
    apply (parse_bounds (PyStr s) n E).
Qed.

Lemma validate_min_free_space_agrees_witness :
  validate_min_free_space (PyList []) = Raise ValueError.
Proof.
  apply (proj1 (proj2 validate_min_free_space_agrees) (PyList [])).
  discriminate.
Defined.

(** * The callers in filesystem_utils *)

Lemma int_truediv_finite (a d : Z) :
  0 < d -> Z.abs a < d * 2 ^ 64 -> exists m e, int_truediv a d = Ok (Fin m e).
Proof.
  intros Hd Ha. unfold int_truediv.
  destruct (Z.eqb_spec d 0); [lia|].
  rewrite Z.sgn_pos, Z.mul_1_l, Z.abs_eq by lia.
  unfold round64_signed. destruct (Z.ltb_spec a 0).
  - destruct (round64_finite (- a) d ltac:(lia) Hd ltac:(lia)) as (m & e & ->).
    simpl. eauto.
  - destruct (round64_finite a d ltac:(lia) Hd ltac:(lia)) as (m & e & ->).
    eauto.
Qed.

Lemma percent_defined (used total : Z) :
  0 < total -> Z.abs used < 2 ^ 64 ->
  exists x percent,
    (ratio <- int_truediv used total ;; float_mul_int ratio 100) = Ok x /\
    format_f x 1 = Ok percent.
Proof.
  intros Ht Hu.
  destruct (int_truediv_finite used total Ht) as (m & e & ->).
  { change (2 ^ 64) with 18446744073709551616 in *. nia. }
  cbn [bind]. unfold float_mul_int.
  change (float_of_int 100) with (Ok (Fin 7036874417766400 (-46))).
  cbn [bind]. set (y := fmul (Fin m e) (Fin 7036874417766400 (-46))).
  assert (Hp : exists percent, format_f y 1 = Ok percent).
  { unfold format_f. change ((1 <? 0) || (2 ^ 31 <=? 1)) with false.
    cbv iota. destruct y; eauto. }
  destruct Hp as (percent & Hp). exists y, percent.
  split; [reflexivity|assumption].
Qed.

Lemma bytes_to_human_readable_negative (b dp : Z) :
  b < 0 ->
  bytes_to_human_readable (PyInt b) dp
  = Raise (InvalidSizeFormatError BytesCannotBeNegative).
Proof.
  intros Hb. unfold bytes_to_human_readable.
  destruct (Z.ltb_spec b 0); [reflexivity|lia].
Qed.

Lemma bytes_to_human_readable_default (b : Z) :
  0 <= b < 2 ^ 64 -> exists text, bytes_to_human_readable (PyInt b) 1 = Ok text.
Proof.
  intros Hb. destruct (Z.eq_dec b 0) as [->|Nb]; [eexists; reflexivity|].
  apply bytes_to_human_readable_int; lia.
Qed.

(** X17.  With a total above zero and no negative count, all three below
    [2^64], [format_disk_usage] returns the report made of the three sizes
    as [bytes_to_human_readable] writes them and the percentage used, and
    reports nothing to the logger; the example of its documentation gives
    "953.7 MB total, 572.2 MB used (60.0%), 381.5 MB free". *)
Theorem format_disk_usage_report :
  (forall total used free,
     0 < total < 2 ^ 64 -> 0 <= used < 2 ^ 64 -> 0 <= free < 2 ^ 64 ->
     exists total_str used_str free_str used_percent percent,
       bytes_to_human_readable (PyInt total) 1 = Ok total_str /\
       bytes_to_human_readable (PyInt used) 1 = Ok used_str /\
       bytes_to_human_readable (PyInt free) 1 = Ok free_str /\
       (ratio <- int_truediv used total ;; float_mul_int ratio 100)
       = Ok used_percent /\
       format_f used_percent 1 = Ok percent /\
       format_disk_usage total used free
       = (total_str ++ " total, " ++ used_str ++ " used (" ++ percent
            ++ "%), " ++ free_str ++ " free", [])) /\
  format_disk_usage 1000000000 600000000 400000000
  = ("953.7 MB total, 572.2 MB used (60.0%), 381.5 MB free", []).
Proof.
  split; [|vm_compute; reflexivity].
  intros total used free Ht Hu Hf.
  destruct (bytes_to_human_readable_default total ltac:(lia)) as (ts & Ets).
  destruct (bytes_to_human_readable_default used Hu) as (us & Eus).
  destruct (bytes_to_human_readable_default free Hf) as (fs & Efs).
  destruct (percent_defined used total ltac:(lia)) as (x & pc & Ex & Epc).
  { rewrite Z.abs_eq; lia. }
  exists ts, us, fs, x, pc. repeat (split; [assumption|]).
  unfold format_disk_usage.
  destruct (Z.eqb_spec total 0); [lia|].
  destruct (Z.ltb_spec 0 total); [|lia].
  rewrite Ex, Ets, Eus, Efs. cbn [bind]. rewrite Epc. reflexivity.
Qed.

Lemma format_disk_usage_report_witness :
  exists total_str used_str free_str used_percent percent,
    bytes_to_human_readable (PyInt 4096) 1 = Ok total_str /\
    bytes_to_human_readable (PyInt 1024) 1 = Ok used_str /\
    bytes_to_human_readable (PyInt 3072) 1 = Ok free_str /\
    (ratio <- int_truediv 1024 4096 ;; float_mul_int ratio 100)
    = Ok used_percent /\
    format_f used_percent 1 = Ok percent /\
    format_disk_usage 4096 1024 3072
    = (total_str ++ " total, " ++ used_str ++ " used (" ++ percent
         ++ "%), " ++ free_str ++ " free", []).
Proof.
  apply (proj1 format_disk_usage_report 4096 1024 3072);
    (split; [lia|reflexivity]).
Defined.

(** X18.  With a total other than zero and a negative count among the
    three, all within [2^64] of zero, [format_disk_usage] does not raise:
    it returns the plain listing of the three numbers and reports the
    negative-count failure of [bytes_to_human_readable] to the logger.  A
    total of zero gives "Disk usage unavailable" whatever the other two
    are. *)
Theorem format_disk_usage_fallback :
  (forall total used free,
     total <> 0 -> Z.abs total < 2 ^ 64 -> Z.abs used < 2 ^ 64 ->
     Z.abs free < 2 ^ 64 ->
     total < 0 \/ used < 0 \/ free < 0 ->
     format_disk_usage total used free
     = ("Total: " ++ str_of_int total ++ ", Used: " ++ str_of_int used
          ++ ", Free: " ++ str_of_int free ++ " (bytes)",
        [InvalidSizeFormatError BytesCannotBeNegative])) /\
  (forall used free,
     format_disk_usage 0 used free = ("Disk usage unavailable", [])).
Proof.
  split; [|reflexivity].
  intros total used free Nt Ht Hu Hf Hneg.
  unfold format_disk_usage.
  destruct (Z.eqb_spec total 0); [lia|].
  destruct (Z.ltb_spec 0 total) as [Pt|Pt].
  - destruct (percent_defined used total Pt Hu) as (x & pc & -> & Epc).
    destruct (bytes_to_human_readable_default total ltac:(lia)) as (ts & ->).
    cbn [bind].
    destruct (Z.lt_ge_cases used 0) as [Nu|Pu].
    + rewrite (bytes_to_human_readable_negative used 1 Nu). reflexivity.
    + destruct (bytes_to_human_readable_default used ltac:(lia)) as (us & ->).
      cbn [bind].
      rewrite (bytes_to_human_readable_negative free 1 ltac:(lia)).
      reflexivity.
  - cbn [bind].
    rewrite (bytes_to_human_readable_negative total 1 ltac:(lia)).
    reflexivity.
Qed.

Lemma format_disk_usage_fallback_witness :
  format_disk_usage 4096 (-1) 3072
  = ("Total: " ++ str_of_int 4096 ++ ", Used: " ++ str_of_int (-1)
       ++ ", Free: " ++ str_of_int 3072 ++ " (bytes)",
     [InvalidSizeFormatError BytesCannotBeNegative]).
Proof.
  apply (proj1 format_disk_usage_fallback 4096 (-1) 3072);
    try reflexivity; [discriminate|lia].
Defined.



(** * Formatting what was parsed from a formatted text *)

Lemma rnd_half_even_nearest (n d r : Z) :
  0 < d -> 2 * Z.abs (n - r * d) < d -> rnd_half_even n d = r.
Proof.
  intros Hd Hn. pose proof (rnd_half_even_error n d Hd) as He.
  set (q := rnd_half_even n d) in *. clearbody q.
  assert (Z.abs ((q - r) * d) < d) by lia.
  rewrite Z.abs_mul, (Z.abs_eq d) in H by lia.
  assert (Z.abs (q - r) < 1) by nia. lia.
Qed.

Lemma reformat_arith (r U W C n : Z) :
  0 < C -> 0 < U -> 10 <= r -> r * U <= 10 * 2 ^ 50 ->
  2 ^ 53 * Z.abs (W * 10 - r * C) <= r * C ->
  (r mod 10 = 0 -> W * 10 = r * C) ->
  (r mod 10 <> 0 -> 1024 <= U) ->
  0 <= W ->
  n = (W * U) / C ->
  2 * Z.abs (n * 10 - r * U) < U /\ U <= n /\ (r < 10240 -> n < 1024 * U).
Proof.
  intros HC HU Hr HRU Herr Hexact Hinexact HW Hn.
  change (2 ^ 50) with 1125899906842624 in *.
  change (2 ^ 53) with 9007199254740992 in *.
  destruct (Z.eq_dec (r mod 10) 0) as [E|N].
  - specialize (Hexact E).
    pose proof (Z.div_mod r 10 ltac:(lia)) as Hdm. rewrite E in Hdm.
    set (q := r / 10) in *.
    assert (EW : W = q * C) by lia.
    assert (En : n = q * U).
    { rewrite Hn, EW. replace (q * C * U) with (q * U * C) by ring.
      apply Z.div_mul. lia. }
    rewrite En. replace (q * U * 10 - r * U) with 0 by nia.
    split; [simpl Z.abs; lia|]. split; nia.
  - specialize (Hinexact N).
    assert (Hr11 : 11 <= r).
    { destruct (Z.eq_dec r 10) as [->|]; [|lia]. exfalso. now apply N. }
    set (D := W * 10 - r * C) in *.
    assert (HD : 9007199254740992 * (Z.abs D * U) <= 2 * 9007199254740992 * C).
    { assert (r * C * U <= 2 * 9007199254740992 * C) by nia.
      assert (9007199254740992 * Z.abs D * U <= r * C * U) by nia.
      lia. }
    assert (HDU : - (2 * C) <= D * U <= 2 * C).
    { assert (Z.abs D * U <= 2 * C) by lia.
      assert (Z.abs (D * U) = Z.abs D * U) by (rewrite Z.abs_mul; f_equal; lia).
      lia. }
    assert (EWU : 10 * (W * U) = r * U * C + D * U) by (subst D; ring).
    assert (Hlo : n * C <= W * U).
    { pose proof (Z.mul_div_le (W * U) C HC) as G. rewrite <- Hn in G. lia. }
    assert (Hhi : W * U < (n + 1) * C).
    { pose proof (Z.mul_succ_div_gt (W * U) C HC) as G. rewrite <- Hn in G. lia. }
    assert (Hup : 10 * n <= r * U + 2).
    { assert ((10 * n - r * U - 2) * C <= 0) by nia. nia. }
    assert (Hdn : r * U - 11 <= 10 * n).
    { assert (0 < (10 * n + 10 - r * U + 2) * C) by nia. nia. }
    assert (H11 : 11 * U <= r * U) by nia.
    split; [lia|]. split; [lia|].
    intros H. assert (r * U <= 10239 * U) by nia. lia.
Qed.

(** What [parse] reads in the text [format] writes for [b] bytes: the
    float nearest to the tenths displayed, times the multiplier. *)
Lemma format_read_back (b : Z) (u : string) (j : Z) :
  0 < b <= 2 ^ 50 -> select_unit b = Some (u, 2 ^ j) ->
  In (u, j) unit_exponents ->
  let r := rnd_half_even (b * 10) (2 ^ j) in
  let text := decimal_literal (decimal (r / 10)) (tenths r) ++ " " ++ u in
  exists W,
    format b = Ok text /\ parse text = Ok (W * 2 ^ j / one_units) /\
    0 <= W /\
    2 ^ 53 * Z.abs (W * 10 - r * one_units) <= r * one_units /\
    (r mod 10 = 0 -> W * 10 = r * one_units) /\
    (r mod 10 <> 0 -> 1024 <= 2 ^ j) /\
    10 <= r /\ r * 2 ^ j <= 10 * 2 ^ 50.
Proof.
  intros Hb Hs Hj r text.
  destruct (unit_multiplier u j Hj) as (_ & Hj0 & _ & _).
  assert (J : 0 <= j <= 40).
  { simpl in Hj. repeat (destruct Hj as [Hj|Hj]; [inversion Hj; lia|]).
    contradiction. }
  assert (Hlo : 2 ^ j <= b).
  { destruct (select_unit_multiplier b u (2 ^ j) Hs) as (_ & _ & _ & _ & H).
    exact H. }
  assert (PU : 0 < 2 ^ j) by (apply Z.pow_pos_nonneg; lia).
  assert (PR : 0 < 2 ^ (50 - j)) by (apply Z.pow_pos_nonneg; lia).
  assert (ER : 2 ^ (50 - j) * 2 ^ j = 2 ^ 50).
  { rewrite <- Z.pow_add_r by lia. f_equal. lia. }
  assert (H1024 : j <> 0 -> 1024 <= 2 ^ j).
  { intros Hj0'. change 1024 with (2 ^ 10). apply Z.pow_le_mono_r; [lia|].
    simpl in Hj. repeat (destruct Hj as [Hj|Hj]; [inversion Hj; lia|]).
    contradiction. }
  pose proof (rnd_half_even_error (b * 10) (2 ^ j) PU) as Hrnd. fold r in Hrnd.
  assert (Hr : 10 <= r <= 10 * 2 ^ (50 - j)).
  { split; [apply rnd_half_even_ge|apply rnd_half_even_le]; try assumption.
    - lia.
    - rewrite <- Z.mul_assoc, ER. lia. }
  assert (Hr50 : 1 <= r <= 10 * 2 ^ 50).
  { split; [lia|]. assert (2 ^ (50 - j) <= 2 ^ 50) by (apply Z.pow_le_mono_r; lia).
    lia. }
  assert (Hbyte : j = 0 -> r mod 10 = 0).
  { intros ->. subst r. change (2 ^ 0) with 1.
    replace (b * 10) with (b * 10 * 1) by ring.
    rewrite rnd_half_even_exact by lia. apply Z.mod_mul. lia. }
  assert (Hformat : format b = Ok text).
  { apply format_tenths; [|assumption].
    change (2 ^ 50) with 1125899906842624 in Hb.
    change (2 ^ 53) with 9007199254740992. lia. }
  destruct (decimal_digits (r / 10)) as [Dq Nq].
  pose proof (parse_formatted (decimal (r / 10)) (tenths r) u j Nq Dq
                (tenths_digits r) Hj) as Hparse.
  fold text in Hparse. rewrite magnitude_tenths in Hparse by lia.
  destruct (read_back r Hr50) as (m & e & Hx & HW & Herr & Hexact).
  rewrite Hx in Hparse. unfold truncated_product in Hparse.
  cbn [exceeds_limit truncated] in Hparse.
  pose proof one_units_pos as PC.
  assert (Hq : Z.quot (units m e * 2 ^ j) one_units = units m e * 2 ^ j / one_units).
  { apply Z.quot_div_nonneg; nia. }
  rewrite Hq in Hparse.
  assert (Hinexact : r mod 10 <> 0 -> 1024 <= 2 ^ j).
  { intros N. apply H1024. intros J0. now apply N, Hbyte. }
  destruct (round_trip_arith b r (2 ^ j) (2 ^ (50 - j)) (units m e) one_units
              (units m e * 2 ^ j / one_units))
    as (Hlim & _ & _); try assumption; try reflexivity; try lia.
  unfold size_limit in Hparse. change (1024 ^ 5) with (2 ^ 50) in Hparse.
  destruct (Z.ltb_spec (2 ^ 50 * one_units) (units m e * 2 ^ j)) as [Hover|_];
    [lia|].
  exists (units m e). repeat split; try assumption; try lia.
  rewrite <- ER. nia.
Qed.

(** X20.  What [format] writes is kept by a further round: for a byte
    count [b] from 1 to [1024^5], [parse] reads the text of [format] as a
    byte count whose own text is the same, provided the text does not show
    1024 of a unit below TB.  When it does, the round moves to the next
    unit: 1048575 bytes are "1024 KB", which is parsed as 1048576 bytes,
    "1 MB". *)
Theorem format_is_stable :
  (forall b u U,
     0 < b <= 1024 ^ 5 -> select_unit b = Some (u, U) ->
     rnd_half_even (b * 10) U < 10240 \/ u = "TB" ->
     exists text n,
       format b = Ok text /\ parse text = Ok n /\ format n = Ok text) /\
  format 1048575 = Ok "1024 KB" /\ parse "1024 KB" = Ok 1048576 /\
  format 1048576 = Ok "1 MB".
Proof.
  split; [|repeat split; vm_compute; reflexivity].
  intros b u U Hb Hs Hshown. change (1024 ^ 5) with (2 ^ 50) in Hb.
  destruct (select_unit_multiplier b u U Hs) as (j & Hj & -> & Hj0 & Hle).
  destruct (format_read_back b u j Hb Hs Hj)
    as (W & Hf & Hp & HW & Herr & Hexact & Hinexact & Hr10 & HrU).
  set (r := rnd_half_even (b * 10) (2 ^ j)) in *.
  set (n := W * 2 ^ j / one_units) in *.
  assert (PU : 0 < 2 ^ j) by (apply Z.pow_pos_nonneg; lia).
  destruct (reformat_arith r (2 ^ j) W one_units n one_units_pos PU Hr10 HrU
              Herr Hexact Hinexact HW eq_refl) as (Hnear & Hlo & Hhi).
  assert (Hs' : select_unit n = Some (u, 2 ^ j)).
  { apply select_unit_range; try assumption.
    intros Hj40. rewrite Z.pow_add_r by lia. change (2 ^ 10) with 1024.
    rewrite Z.mul_comm. apply Hhi.
    destruct Hshown as [Hsh | ->]; [assumption|exfalso].
    simpl in Hj. repeat (destruct Hj as [Hj|Hj]; [inversion Hj; lia|]).
    contradiction. }
  assert (Hn : 0 < n < 2 ^ 53).
  { split; [lia|].
    assert (2 ^ j <= 2 ^ 40) by (apply Z.pow_le_mono_r; lia).
    change (2 ^ 40) with 1099511627776 in *.
    change (2 ^ 50) with 1125899906842624 in *.
    change (2 ^ 53) with 9007199254740992. lia. }
  exists (decimal_literal (decimal (r / 10)) (tenths r) ++ " " ++ u), n.
  split; [exact Hf|]. split; [exact Hp|].
  rewrite (format_tenths n u (2 ^ j) Hn Hs').
  rewrite (rnd_half_even_nearest (n * 10) (2 ^ j) r PU Hnear). reflexivity.
Qed.

Lemma format_is_stable_witness :
  exists text n,
    format 1280 = Ok text /\ parse text = Ok n /\ format n = Ok text.
Proof.
  apply (proj1 format_is_stable 1280 "KB" 1024).
  - split; [lia|discriminate].
  - reflexivity.
  - left. reflexivity.
Defined.



(** X22.  Above the limit [format] still writes a text, and [parse] does
    not take it back: for a byte count more than a twentieth of a TB above
    [1024^5], and below [2^53], the text shows more than 1024 TB,
    [validate] answers false for it and [parse] refuses it as too large. *)
Theorem format_above_limit_not_valid (b : Z) :
  20 * 1024 ^ 5 + 1024 ^ 4 < 20 * b -> b < 2 ^ 53 ->
  exists text,
    format b = Ok text /\ validate text = Ok false /\
    parse text = Raise (InvalidSizeFormatError (TooLarge text)).
Proof.
  intros Hlo Hhi.
  change (1024 ^ 5) with 1125899906842624 in Hlo.
  change (1024 ^ 4) with 1099511627776 in Hlo.
  assert (P53 : 2 ^ 53 = 9007199254740992) by reflexivity.
  assert (P40 : 2 ^ 40 = 1099511627776) by reflexivity.
  assert (Hj : In ("TB", 40) unit_exponents) by (simpl; tauto).
  assert (Hs : select_unit b = Some ("TB", 2 ^ 40)).
  { apply select_unit_range; [assumption|rewrite P40; lia|lia]. }
  set (r := rnd_half_even (b * 10) (2 ^ 40)).
  pose proof (rnd_half_even_error (b * 10) (2 ^ 40) ltac:(lia)) as Hrnd.
  fold r in Hrnd. rewrite P40 in Hrnd.
  assert (Hr : 10241 <= r <= 10 * 2 ^ 50).
  { change (2 ^ 50) with 1125899906842624. rewrite P53 in Hhi. lia. }
  set (text := decimal_literal (decimal (r / 10)) (tenths r) ++ " " ++ "TB").
  assert (Hparse : parse text = Raise (InvalidSizeFormatError (TooLarge text))).
  { destruct (decimal_digits (r / 10)) as [Dq Nq].
    pose proof (parse_formatted (decimal (r / 10)) (tenths r) "TB" 40 Nq Dq
                  (tenths_digits r) Hj) as E.
    fold text in E. rewrite E, magnitude_tenths by lia.
    destruct (read_back r ltac:(lia)) as (m & e & -> & HW & Herr & _).
    unfold truncated_product, exceeds_limit, size_limit.
    change (1024 ^ 5) with 1125899906842624. rewrite P40.
    pose proof one_units_pos as PC.
    set (W := units m e) in *. clearbody W.
    set (C := one_units) in *. clearbody C.
    rewrite P53 in Herr.
    assert (G : 9007199254740992 * (r * C - W * 10) <= r * C) by lia.
    assert (G1 : 10241 * C <= r * C) by nia.
    destruct (Z.ltb_spec (1125899906842624 * C) (W * 1099511627776));
      [reflexivity|lia]. }
  exists text. split; [|split; [|exact Hparse]].
  - apply format_tenths; [|exact Hs]. rewrite P53. lia.
  - unfold validate. rewrite validate_size_string_cases.
    change (parse_size_to_bytes (PyStr text)) with (parse text).
    now rewrite Hparse.
Qed.

Lemma format_above_limit_not_valid_witness :
  exists text,
    format (2 ^ 51) = Ok text /\ validate text = Ok false /\
    parse text = Raise (InvalidSizeFormatError (TooLarge text)).
Proof.
  apply (format_above_limit_not_valid (2 ^ 51)); reflexivity.
Defined.

(** X23.  With no decimal place asked for, the zeros removed are those of
    the whole number: a byte count of [k] whole units is displayed as [k]
    without its trailing zeros, so 10 KB and 100 KB are both "1 KB". *)
Theorem zero_places_strips_whole_number :
  (forall b u U k,
     0 < b < 2 ^ 53 -> select_unit b = Some (u, U) -> b = k * U ->
     bytes_to_human_readable (PyInt b) 0
     = Ok (rstrip "0" (decimal k) ++ " " ++ u)) /\
  bytes_to_human_readable (PyInt (10 * 1024)) 0 = Ok "1 KB" /\
  bytes_to_human_readable (PyInt (100 * 1024)) 0 = Ok "1 KB" /\
  bytes_to_human_readable (PyInt (10 * 1024)) 1 = Ok "10 KB".
Proof.
  split; [|repeat split; vm_compute; reflexivity].
  intros b u U k Hb Hs Hk.
  destruct (select_unit_multiplier b u U Hs) as (j & Hj & HU & Hj0 & Hle).
  assert (PU : 0 < U) by (subst U; apply Z.pow_pos_nonneg; lia).
  rewrite (bytes_to_human_readable_unit (PyInt b) 0 b u U);
    try assumption; try lia.
  2:{ simpl. destruct (Z.ltb_spec b 0); [lia|reflexivity]. }
  rewrite HU. rewrite format_with_small by lia. rewrite <- HU.
  change (10 ^ 0) with 1. rewrite Z.mul_1_r, Hk.
  rewrite rnd_half_even_exact by assumption.
  unfold fixed_point. change (0 =? 0) with true. cbv iota.
  change (10 ^ 0) with 1. rewrite Z.div_1_r, append_nil_r.
  destruct (decimal_digits k) as [Dk _].
  rewrite rstrip_dot_digits; [reflexivity|].
  now apply rstrip_by_digits.
Qed.

Lemma zero_places_strips_whole_number_witness :
  bytes_to_human_readable (PyInt (20 * 1024 ^ 2)) 0
  = Ok (rstrip "0" (decimal 20) ++ " " ++ "MB").
Proof.
  apply (proj1 zero_places_strips_whole_number (20 * 1024 ^ 2) "MB" (1024 ^ 2) 20);
    try reflexivity. split; [lia|reflexivity].
Defined.



